(** * RegistryClients: the role handle and the manager/worker sample

    A shallow embedding of [python/leader_election.py] (class [Role]),
    of the parts of [python/registry_client.py] it calls, and of
    [python/samples/manager_workers.py] ([ProblemState], [Manager],
    [Worker]).

    Conventions.
    - Python [int] is [Z]; Python [float] is the kernel's binary64
      [float]; [str] is [string], one character per code point below 256.
    - A statement that can raise evaluates to a [result]; code that also
      changes the process state is written in the monad [M].
    - The remote Registry Service is the environment: every HTTP request
      is logged and answered by the next entry of a script of responses,
      so the theorems hold for every behaviour of the service.
    - [time.time()] reads an arbitrary clock, one reading per call. *)

From Stdlib Require Import ZArith List String Ascii Bool Lia Floats.
Import ListNotations.
Open Scope string_scope.
Open Scope list_scope.
Open Scope Z_scope.
Set Warnings "-register-all,-inexact-float".

(** ** Exceptions and results *)

Inductive exn : Type :=
| RegistryError (http_code : Z)
| ConnectionError
| AttributeError (attr : string)
| UnboundLocalError (var : string)
| AssertionError
| ValueError
| IndexError
| KeyError (key : string)
| TypeError
| OverflowError
| BlockingIOError (errno : Z)
| SocketTimeout
| BlocksForever
| IllTyped
| OutOfFuel.

Inductive result (A : Type) : Type :=
| Return (a : A)
| Raise (e : exn).
Arguments Return {A} a.
Arguments Raise {A} e.

(** [isinstance(e, RegistryError)]: what [except RegistryError] catches. *)
Definition is_RegistryError (e : exn) : bool :=
  match e with RegistryError _ => true | _ => false end.

(** [isinstance(e, socket.error)]: [socket.error] is [OSError], and
    [BlockingIOError], [ConnectionError] and [socket.timeout] derive from it. *)
Definition is_socket_error (e : exn) : bool :=
  match e with
  | BlockingIOError _ | SocketTimeout | ConnectionError => true
  | _ => false
  end.

(** [isinstance(e, Exception)]: every exception the code can meet. Three
    pseudo-exceptions mark the limits of the model and are caught by
    nothing: [BlocksForever] is a call that never returns, [IllTyped] a
    persisted record whose fields do not have the types of a
    [ProblemState], [OutOfFuel] a loop that used up the bound given to
    it (the theorems show it is never reached). *)
Definition is_Exception (e : exn) : bool :=
  match e with BlocksForever | IllTyped | OutOfFuel => false | _ => true end.

(** ** The environment: HTTP exchange with the Registry Service *)

Inductive Request : Type :=
| PutRole (role_path player_name : string) (playtime_secs max_players : Z)
| DeleteRole (role_path player_name : string)
| GetRole (role_path : string)
| PutData (data_item_path data content_type : string)
| GetData (data_item_path : string).

(** What an answer carries besides its status: a body that is no JSON;
    the JSON object of a role taken, with the expiration; the JSON
    object of a role read, with its players; or content with its
    content type. The headers with the org times, which the service
    sets on its answers, are taken to be there and to hold integers. *)
Inductive Payload : Type :=
| NoJson
| JsonExpiration (client_expiration_time_in_msecs : Z)
| JsonPlayers (players_remaining_milliseconds : list (string * Z))
| Blob (content_type content : string).

Inductive Response : Type :=
| HttpResponse (status_code : Z) (payload : Payload)
| NoResponse.

(** Who issued a request: the thread that called a method of the handle,
    or the renewal thread with the given number. *)
Inductive issuer : Type :=
| Caller
| Renewal (tid : nat).

Inductive print_event : Type :=
| UnexpectedSocketError (e : exn)
| UnexpectedException (e : exn)
| StoreError (op : string) (e : exn).

(** The environment of one machine: the script of responses still to
    come and the log of requests sent; the clock with the number of
    readings made; the UDP socket (its timeout as [settimeout] left it,
    the datagrams queued for it, the datagrams sent from it with their
    port); the errno the platform gives a receive that would block; and
    what was printed. *)
Record World : Type := mkWorld {
  script : list Response;
  requests : list (issuer * Request);
  clock : nat -> float;
  ticks : nat;
  sock_timeout : option float;
  inbox : list string;
  outbox : list (string * Z);
  eagain : Z;
  stdout : list print_event
}.

Definition set_exchange (sc : list Response) (rqs : list (issuer * Request)) (w : World) : World :=
  mkWorld sc rqs (clock w) (ticks w) (sock_timeout w) (inbox w) (outbox w) (eagain w) (stdout w).

Definition set_ticks (n : nat) (w : World) : World :=
  mkWorld (script w) (requests w) (clock w) n (sock_timeout w) (inbox w) (outbox w)
          (eagain w) (stdout w).

Definition set_sock_timeout (t : option float) (w : World) : World :=
  mkWorld (script w) (requests w) (clock w) (ticks w) t (inbox w) (outbox w)
          (eagain w) (stdout w).

Definition set_inbox (msgs : list string) (w : World) : World :=
  mkWorld (script w) (requests w) (clock w) (ticks w) (sock_timeout w) msgs (outbox w)
          (eagain w) (stdout w).

Definition set_outbox (sent : list (string * Z)) (w : World) : World :=
  mkWorld (script w) (requests w) (clock w) (ticks w) (sock_timeout w) (inbox w) sent
          (eagain w) (stdout w).

(** [requests.put/get/delete]: the request goes out and the next response
    of the script comes back; an exhausted script is an unreachable host. *)
Definition http (who : issuer) (rq : Request) (w : World) : Response * World :=
  match script w with
  | [] => (NoResponse, set_exchange [] (requests w ++ [(who, rq)]) w)
  | r :: rest => (r, set_exchange rest (requests w ++ [(who, rq)]) w)
  end.

(** [time.time()] *)
Definition time_time (w : World) : float * World :=
  (clock w (ticks w), set_ticks (S (ticks w)) w).

Definition print (ev : print_event) (w : World) : World :=
  mkWorld (script w) (requests w) (clock w) (ticks w)
          (sock_timeout w) (inbox w) (outbox w) (eagain w) (stdout w ++ [ev]).

(** ** registry_client.py *)

Record TakeRoleResult : Type := mkTakeRoleResult {
  is_new_role_created : bool;
  client_expiration_time_in_msecs : Z
}.

Record ReadRoleResult : Type := mkReadRoleResult {
  players_remaining_milliseconds : list (string * Z)
}.

Record ReadDataResult : Type := mkReadDataResult {
  content_type : string;
  content : string
}.

(** [json.get(...)] on a body that is no JSON object of the expected kind:
    [_extract_json_from_response] returned [None]. *)
Definition no_json {A : Type} : result A := Raise (AttributeError "get").

Definition RegistryClient_take_role (who : issuer)
    (role_path player_name : string) (playtime_secs max_players : Z)
    (w : World) : result TakeRoleResult * World :=
  let '(resp, w') := http who (PutRole role_path player_name playtime_secs max_players) w in
  match resp with
  | NoResponse => (Raise ConnectionError, w')
  | HttpResponse status body =>
      if status =? 200 then
        match body with
        | JsonExpiration t => (Return (mkTakeRoleResult false t), w')
        | _ => (no_json, w')
        end
      else if status =? 201 then
        match body with
        | JsonExpiration t => (Return (mkTakeRoleResult true t), w')
        | _ => (no_json, w')
        end
      else (Raise (RegistryError status), w')
  end.

Definition RegistryClient_release_role (who : issuer)
    (role_path player_name : string) (w : World) : result unit * World :=
  let '(resp, w') := http who (DeleteRole role_path player_name) w in
  match resp with
  | NoResponse => (Raise ConnectionError, w')
  | HttpResponse status _ =>
      if status =? 200 then (Return tt, w')
      else (Raise (RegistryError status), w')
  end.

Definition RegistryClient_read_role (who : issuer) (role_path : string)
    (w : World) : result ReadRoleResult * World :=
  let '(resp, w') := http who (GetRole role_path) w in
  match resp with
  | NoResponse => (Raise ConnectionError, w')
  | HttpResponse status body =>
      if status =? 200 then
        match body with
        | JsonPlayers ps => (Return (mkReadRoleResult ps), w')
        | _ => (no_json, w')
        end
      else (Raise (RegistryError status), w')
  end.

Definition RegistryClient_read_data (who : issuer) (data_item_path : string)
    (w : World) : result ReadDataResult * World :=
  let '(resp, w') := http who (GetData data_item_path) w in
  match resp with
  | NoResponse => (Raise ConnectionError, w')
  | HttpResponse status body =>
      if status =? 200 then
        match body with
        | Blob ct c => (Return (mkReadDataResult ct c), w')
        | _ => (Return (mkReadDataResult "" ""), w')
        end
      else (Raise (RegistryError status), w')
  end.

(** ** A state-and-exception monad for method bodies *)

Definition M (S A : Type) : Type := S -> result A * S.

Definition ret {S A : Type} (a : A) : M S A := fun s => (Return a, s).

Definition raise {S A : Type} (e : exn) : M S A := fun s => (Raise e, s).

Definition bind {S A B : Type} (m : M S A) (k : A -> M S B) : M S B :=
  fun s =>
    match m s with
    | (Return a, s') => k a s'
    | (Raise e, s') => (Raise e, s')
    end.

(** [try: m  except <class>: h]: the handler runs in the state the
    exception left behind; an exception of another class goes on. *)
Definition try_except {S A : Type} (m : M S A) (catches : exn -> bool)
    (h : exn -> M S A) : M S A :=
  fun s =>
    match m s with
    | (Return a, s') => (Return a, s')
    | (Raise e, s') => if catches e then h e s' else (Raise e, s')
    end.

(** [try: m  except <class 1>: h1  except <class 2>: h2]: the first
    clause that matches handles the exception. *)
Definition try_except2 {S A : Type} (m : M S A)
    (catches1 : exn -> bool) (h1 : exn -> M S A)
    (catches2 : exn -> bool) (h2 : exn -> M S A) : M S A :=
  fun s =>
    match m s with
    | (Return a, s') => (Return a, s')
    | (Raise e, s') =>
        if catches1 e then h1 e s'
        else if catches2 e then h2 e s'
        else (Raise e, s')
    end.

Definition lift {S A : Type} (r : result A) : M S A := fun s => (r, s).

Definition get {S : Type} : M S S := fun s => (Return s, s).

Definition modify {S : Type} (f : S -> S) : M S unit := fun s => (Return tt, f s).

Declare Scope monad_scope.
Delimit Scope monad_scope with monad.
Notation "x <- m ;; k" := (bind m (fun x => k))
  (at level 61, m at next level, right associativity) : monad_scope.
Notation "m ;;; k" := (bind m (fun _ => k))
  (at level 61, right associativity) : monad_scope.

(** ** leader_election.py: class Role *)

(** The attributes [__init__] gives a handle. [client] and [_lock] hold
    no data of their own here: the client is the [World], and the lock is
    the atomicity of the steps below. [_maintenance_thread] holds the
    number of the thread object, or [None]. *)
Record Role : Type := mkRole {
  name : string;
  role_path : string;
  max_players : Z;
  playtime_secs : Z;
  expiration_time_msecs : Z;
  _to_maintain_role : bool;
  _maintenance_thread : option nat
}.

(** Where a renewal thread stands in [_maintain_role]. *)
Inductive pc : Type :=
| InitialSleep   (* line 161: the first time.sleep(retake_interval) *)
| LoopTest       (* line 162: while self._to_maintain_role *)
| WaitLock       (* line 163: with self._lock *)
| Sleep.         (* line 181: time.sleep(retake_interval) *)

(** One process: a handle, the renewal threads that were started for it
    and have not ended, the count of threads started so far, and the
    environment. *)
Record Process : Type := mkProcess {
  handle : Role;
  threads : list (nat * pc);
  started : nat;
  world : World
}.

Definition Role_init (name role_path : string) (max_players playtime_secs : Z) : Role :=
  mkRole name role_path max_players playtime_secs 0 false None.

Definition set_handle (r : Role) (p : Process) : Process :=
  mkProcess r (threads p) (started p) (world p).

Definition set_world (w : World) (p : Process) : Process :=
  mkProcess (handle p) (threads p) (started p) w.

Definition set_expiration_time_msecs (t : Z) (r : Role) : Role :=
  mkRole (name r) (role_path r) (max_players r) (playtime_secs r) t
         (_to_maintain_role r) (_maintenance_thread r).

Definition set_to_maintain_role (b : bool) (r : Role) : Role :=
  mkRole (name r) (role_path r) (max_players r) (playtime_secs r)
         (expiration_time_msecs r) b (_maintenance_thread r).

Definition set_maintenance_thread (t : option nat) (r : Role) : Role :=
  mkRole (name r) (role_path r) (max_players r) (playtime_secs r)
         (expiration_time_msecs r) (_to_maintain_role r) t.

(** Python values an attribute of a handle can hold. *)
Inductive value : Type :=
| VStr (s : string)
| VInt (z : Z)
| VBool (b : bool)
| VThread (t : option nat)
| VObject.

(** [self.<attr>]: the instance attributes set by [__init__], then the
    methods of the class; any other name raises [AttributeError]. *)
Definition Role_getattr (self : Role) (attr : string) : result value :=
  if String.eqb attr "name" then Return (VStr (name self))
  else if String.eqb attr "client" then Return VObject
  else if String.eqb attr "role_path" then Return (VStr (role_path self))
  else if String.eqb attr "max_players" then Return (VInt (max_players self))
  else if String.eqb attr "playtime_secs" then Return (VInt (playtime_secs self))
  else if String.eqb attr "expiration_time_msecs" then Return (VInt (expiration_time_msecs self))
  else if String.eqb attr "_lock" then Return VObject
  else if String.eqb attr "_to_maintain_role" then Return (VBool (_to_maintain_role self))
  else if String.eqb attr "_maintenance_thread" then Return (VThread (_maintenance_thread self))
  else if String.eqb attr "take" || String.eqb attr "release" || String.eqb attr "is_holding"
          || String.eqb attr "active_players" || String.eqb attr "remaining_playtime"
          || String.eqb attr "_maintain_role" then Return VObject
  else Raise (AttributeError attr).

Definition as_str (v : value) : result string :=
  match v with VStr s => Return s | _ => Raise TypeError end.

Definition as_int (v : value) : result Z :=
  match v with VInt z => Return z | _ => Raise TypeError end.

(** A call of the client from inside a method of the handle. *)
Definition in_world {A : Type} (f : World -> result A * World) : M Process A :=
  fun p => let '(r, w) := f (world p) in (r, set_world w p).

(** The body of [take] from the response on: record a later expiration,
    set the flag, and start the renewal thread when the handle holds none. *)
Definition take_recorded (resp : TakeRoleResult) (p : Process) : Process :=
  let self0 := handle p in
  let self1 :=
    if client_expiration_time_in_msecs resp >? expiration_time_msecs self0
    then set_expiration_time_msecs (client_expiration_time_in_msecs resp) self0
    else self0 in
  let self2 := set_to_maintain_role true self1 in
  match _maintenance_thread self2 with
  | None =>
      mkProcess (set_maintenance_thread (Some (started p)) self2)
                (threads p ++ [(started p, InitialSleep)])
                (S (started p)) (world p)
  | Some _ => set_handle self2 p
  end.

(** [Role.take]: the whole body runs under [self._lock]. *)
Definition take : M Process bool :=
  try_except
    (resp <- (fun p => in_world (RegistryClient_take_role Caller
                          (role_path (handle p)) (name (handle p))
                          (playtime_secs (handle p)) (max_players (handle p))) p) ;;
     modify (take_recorded resp) ;;;
     ret true)%monad
    is_RegistryError
    (fun _ => ret false).

(** [LOAD_FAST]: reading a local variable of a function; a name the
    function assigns somewhere but has not bound yet raises. *)
Definition load_fast (locals : list (string * value)) (x : string) : result value :=
  match find (fun kv => String.eqb (fst kv) x) locals with
  | Some kv => Return (snd kv)
  | None => Raise (UnboundLocalError x)
  end.

(** The locals of [release] that are bound when its handler runs: the
    parameter [self]. Nothing in the function binds [num_attempts]. *)
Definition release_locals : list (string * value) := [("self", VObject)].

(** The handler of [release]: [num_attempts -= 1], after which the
    function would end without a [return] and yield [None]. *)
Definition release_handler (locals : list (string * value)) : M Process (option bool) :=
  (v <- lift (load_fast locals "num_attempts") ;;
   n <- lift (as_int v) ;;
   ret None)%monad.

(** [Role.release]: the whole body runs under [self._lock]. A thread
    object is truthy, so a handle that holds one forgets it. *)
Definition release : M Process (option bool) :=
  (modify (fun p => set_handle (set_to_maintain_role false (handle p)) p) ;;;
   modify (fun p =>
     match _maintenance_thread (handle p) with
     | Some _ => set_handle (set_maintenance_thread None (handle p)) p
     | None => p
     end) ;;;
   try_except
     ((fun p => in_world (RegistryClient_release_role Caller
                  (role_path (handle p)) (name (handle p))) p) ;;;
      ret (Some true))
     is_Exception
     (fun _ => release_handler release_locals))%monad.

(** [Role.active_players]: the players with time left, or [None] when
    the read raises [RegistryError]. The set is listed in the order of
    the response. *)
Definition active_players (who : issuer) (self : Role) (w : World)
    : result (option (list string)) * World :=
  match RegistryClient_read_role who (role_path self) w with
  | (Return resp, w') =>
      (Return (Some (map fst (filter (fun kv => snd kv >? 0)
                                     (players_remaining_milliseconds resp)))), w')
  | (Raise e, w') =>
      if is_RegistryError e then (Return None, w') else (Raise e, w')
  end.

(** *** Role._maintain_role, run by each renewal thread *)

Definition num_retries : Z := 1.

Definition retake_interval (self : Role) : Z := playtime_secs self - 1 - num_retries.

(** [time.sleep(secs)]: a negative length raises; the time slept is not
    part of the state. *)
Definition time_sleep (secs : Z) : result unit :=
  if secs <? 0 then Raise ValueError else Return tt.

(** Lines 173-177, the body of the [try]: the arguments of the call are
    evaluated from left to right, then [take_role] is called and a later
    expiration is recorded. *)
Definition renewal_attempt (tid : nat) : M Process unit :=
  (p <- get ;;
   a1 <- lift (Role_getattr (handle p) "role_path") ;;
   a2 <- lift (Role_getattr (handle p) "instance_name") ;;
   a3 <- lift (Role_getattr (handle p) "playtime_secs") ;;
   a4 <- lift (Role_getattr (handle p) "max_players") ;;
   path <- lift (as_str a1) ;;
   player <- lift (as_str a2) ;;
   secs <- lift (as_int a3) ;;
   players <- lift (as_int a4) ;;
   resp <- in_world (RegistryClient_take_role (Renewal tid) path player secs players) ;;
   modify (fun p =>
     if client_expiration_time_in_msecs resp >? expiration_time_msecs (handle p)
     then set_handle (set_expiration_time_msecs
                        (client_expiration_time_in_msecs resp) (handle p)) p
     else p))%monad.

(** Lines 171-180: [while self._to_maintain_role and retry_remaining > 0],
    with the attempt of the [try] as a parameter. Every round ends with
    [retry_remaining] at 0 or one less, so [Z.to_nat retry_remaining]
    rounds of fuel are enough. *)
Fixpoint retry_loop (attempt : M Process unit) (fuel : nat) (retry_remaining : Z)
    : M Process unit :=
  fun p =>
    if _to_maintain_role (handle p) && (retry_remaining >? 0) then
      match fuel with
      | O => (Raise OutOfFuel, p)
      | S fuel' =>
          bind (try_except
                  (attempt ;;; ret 0)%monad
                  is_Exception
                  (fun _ => lift (time_sleep 1) ;;; ret (retry_remaining - 1))%monad)
               (fun r => retry_loop attempt fuel' r) p
      end
    else (Return tt, p).

(** Lines 163-180: the block under [self._lock], for a given body of
    the [try]. *)
Definition maintain_locked_with (attempt : M Process unit) : M Process unit :=
  retry_loop attempt (Z.to_nat num_retries) num_retries.

Definition maintain_locked (tid : nat) : M Process unit :=
  maintain_locked_with (renewal_attempt tid).

Definition pc_of (tid : nat) (ts : list (nat * pc)) : option pc :=
  option_map snd (find (fun t => Nat.eqb (fst t) tid) ts).

Definition set_pc (tid : nat) (at_pc : pc) (ts : list (nat * pc)) : list (nat * pc) :=
  map (fun t => if Nat.eqb (fst t) tid then (tid, at_pc) else t) ts.

Definition end_thread (tid : nat) (ts : list (nat * pc)) : list (nat * pc) :=
  filter (fun t => negb (Nat.eqb (fst t) tid)) ts.

Definition set_threads (ts : list (nat * pc)) (p : Process) : Process :=
  mkProcess (handle p) ts (started p) (world p).

(** One step of renewal thread [tid], for a given body of the [try].
    The lock makes [take], [release] and the locked block exclude one
    another, so each is one step; the loop test of line 162 is made
    outside the lock and is a step of its own. A thread ends when
    [_maintain_role] returns or raises. *)
Definition thread_step_with (attempt : nat -> M Process unit) (tid : nat)
    (p : Process) : Process :=
  match pc_of tid (threads p) with
  | None => p
  | Some InitialSleep | Some Sleep =>
      match time_sleep (retake_interval (handle p)) with
      | Return _ => set_threads (set_pc tid LoopTest (threads p)) p
      | Raise _ => set_threads (end_thread tid (threads p)) p
      end
  | Some LoopTest =>
      if _to_maintain_role (handle p)
      then set_threads (set_pc tid WaitLock (threads p)) p
      else set_threads (end_thread tid (threads p)) p
  | Some WaitLock =>
      match maintain_locked_with (attempt tid) p with
      | (Return _, p') => set_threads (set_pc tid Sleep (threads p')) p'
      | (Raise _, p') => set_threads (end_thread tid (threads p')) p'
      end
  end.

(** [_maintain_role] as the source has it. *)
Definition thread_step (tid : nat) (p : Process) : Process :=
  thread_step_with renewal_attempt tid p.

(** Executions of a process: calls of [take] and [release] by the owner
    of the handle, interleaved with steps of the renewal threads. *)
Inductive action : Type :=
| CallTake
| CallRelease
| Tick (tid : nat).

Definition step (a : action) (p : Process) : Process :=
  match a with
  | CallTake => snd (take p)
  | CallRelease => snd (release p)
  | Tick tid => thread_step tid p
  end.

Definition run (acts : list action) (p : Process) : Process :=
  fold_left (fun q a => step a q) acts p.

(** A fresh handle in a fresh process. *)
Definition new_process (self : Role) (w : World) : Process := mkProcess self [] O w.

(** The requests of the log that renewal threads issued. *)
Definition renewal_requests (p : Process) : list (issuer * Request) :=
  filter (fun r => match fst r with Renewal _ => true | Caller => false end)
         (requests (world p)).

(** The PutRole (acquire) requests of the log. *)
Definition acquire_requests (p : Process) : list (issuer * Request) :=
  filter (fun r => match snd r with PutRole _ _ _ _ => true | _ => false end)
         (requests (world p)).

(** Steps of renewal threads alone, for a given body of the [try]. *)
Definition run_ticks_with (attempt : nat -> M Process unit) (tids : list nat)
    (p : Process) : Process :=
  fold_left (fun q t => thread_step_with attempt t q) tids p.

(** ** Python strings and integers *)

Fixpoint string_forall (f : ascii -> bool) (s : string) : bool :=
  match s with
  | EmptyString => true
  | String c rest => f c && string_forall f rest
  end.

Definition is_comma (c : ascii) : bool := Ascii.eqb c ","%char.

(** [s.split(",")] *)
Fixpoint split_comma (s : string) : list string :=
  match s with
  | EmptyString => [EmptyString]
  | String c rest =>
      if is_comma c then EmptyString :: split_comma rest
      else match split_comma rest with
           | part :: parts => String c part :: parts
           | [] => [String c EmptyString]
           end
  end.

(** [",".join(parts)] *)
Fixpoint join_comma (parts : list string) : string :=
  match parts with
  | [] => EmptyString
  | [part] => part
  | part :: rest => (part ++ String ","%char (join_comma rest))%string
  end.

(** The character of a decimal digit, and back: ["0"] is code point 48. *)
Definition digit_char (d : Z) : ascii := ascii_of_nat (Z.to_nat (48 + d)).

Definition digit_value (c : ascii) : option Z :=
  let n := Z.of_nat (nat_of_ascii c) in
  if (48 <=? n) && (n <=? 57) then Some (n - 48) else None.

Definition is_digit (c : ascii) : bool :=
  match digit_value c with Some _ => true | None => false end.

(** The decimal digits of [n >= 0] in front of [acc]; a number has no
    more decimal digits than bits, which bounds the recursion. *)
Fixpoint digits_of (fuel : nat) (n : Z) (acc : string) : string :=
  match fuel with
  | O => acc
  | S fuel' =>
      let acc' := String (digit_char (n mod 10)) acc in
      if n / 10 =? 0 then acc' else digits_of fuel' (n / 10) acc'
  end.

(** [str(z)] for an [int]. *)
Definition py_str (z : Z) : string :=
  if z <? 0
  then String "-"%char (digits_of (S (Z.to_nat (Z.log2 (- z)))) (- z) EmptyString)
  else digits_of (S (Z.to_nat (Z.log2 z))) z EmptyString.

(** Whitespace that [int()] and [str.strip()] skip, among the code
    points below 256. *)
Definition is_space (c : ascii) : bool :=
  let n := nat_of_ascii c in
  ((9 <=? n) && (n <=? 13) || (28 <=? n) && (n <=? 32) || (n =? 133) || (n =? 160))%nat.

Fixpoint lstrip (s : string) : string :=
  match s with
  | EmptyString => EmptyString
  | String c rest => if is_space c then lstrip rest else s
  end.

Fixpoint rstrip (s : string) : string :=
  match s with
  | EmptyString => EmptyString
  | String c rest =>
      match rstrip rest with
      | EmptyString => if is_space c then EmptyString else String c EmptyString
      | kept => String c kept
      end
  end.

(** Digits with single underscores between them, most significant first. *)
Fixpoint parse_digits (s : string) (acc : Z) (after_digit : bool) : option Z :=
  match s with
  | EmptyString => if after_digit then Some acc else None
  | String c rest =>
      match digit_value c with
      | Some d => parse_digits rest (10 * acc + d) true
      | None =>
          if Ascii.eqb c "_"%char && after_digit
          then parse_digits rest acc false
          else None
      end
  end.

(** [int(s)] for a [str]: surrounding whitespace, a sign, decimal digits. *)
Definition py_int (s : string) : result Z :=
  let t := rstrip (lstrip s) in
  let parsed :=
    match t with
    | String "-"%char rest => option_map Z.opp (parse_digits rest 0 false)
    | String "+"%char rest => parse_digits rest 0 false
    | _ => parse_digits t 0 false
    end in
  match parsed with
  | Some z => Return z
  | None => Raise ValueError
  end.

(** The first [n] characters of [s]: what [recv(n)] keeps of a datagram. *)
Fixpoint string_take (n : nat) (s : string) : string :=
  match n, s with
  | S n', String c rest => String c (string_take n' rest)
  | _, _ => EmptyString
  end.

(** [s.startswith(p)] *)
Fixpoint is_prefix (p s : string) : bool :=
  match p, s with
  | EmptyString, _ => true
  | String a p', String b s' => Ascii.eqb a b && is_prefix p' s'
  | String _ _, EmptyString => false
  end.

(** [sub in s] for two [str]. *)
Fixpoint contains (sub s : string) : bool :=
  is_prefix sub s ||
  match s with
  | EmptyString => false
  | String _ rest => contains sub rest
  end.

(** ** Python dictionaries with [str] keys, in insertion order *)

Definition dict (V : Type) : Type := list (string * V).

Definition dict_contains {V : Type} (k : string) (d : dict V) : bool :=
  existsb (fun kv => String.eqb (fst kv) k) d.

Definition dict_get {V : Type} (k : string) (d : dict V) : option V :=
  option_map snd (find (fun kv => String.eqb (fst kv) k) d).

(** [del d[k]] for a key that is present. *)
Definition dict_del {V : Type} (k : string) (d : dict V) : dict V :=
  filter (fun kv => negb (String.eqb (fst kv) k)) d.

(** [d[k] = v]: a present key keeps its place, a new one goes last. *)
Definition dict_set {V : Type} (k : string) (v : V) (d : dict V) : dict V :=
  if dict_contains k d
  then map (fun kv => if String.eqb (fst kv) k then (k, v) else kv) d
  else d ++ [(k, v)].

Definition dict_keys {V : Type} (d : dict V) : list string := map fst d.

(** ** The UDP socket *)

(** [sock.setblocking(flag)] is [settimeout(None)] or [settimeout(0.0)]. *)
Definition sock_setblocking (flag : bool) (w : World) : World :=
  set_sock_timeout (if flag then None else Some 0%float) w.

Definition sock_settimeout (t : float) (w : World) : World :=
  set_sock_timeout (Some t) w.

(** [sock.recv(bufsize)]: the next queued datagram, cut to the buffer.
    With nothing queued a non-blocking socket raises at once, a socket
    with a timeout raises when it runs out, and a blocking one waits. *)
Definition sock_recv (bufsize : nat) (w : World) : result string * World :=
  match inbox w with
  | msg :: rest => (Return (string_take bufsize msg), set_inbox rest w)
  | [] =>
      match sock_timeout w with
      | None => (Raise BlocksForever, w)
      | Some t =>
          if PrimFloat.eqb t 0 then (Raise (BlockingIOError (eagain w)), w)
          else (Raise SocketTimeout, w)
      end
  end.

(** [sock.sendto(data, ("localhost", port))]: the datagram leaves (it may
    be lost later); a port outside 0..65535 raises. *)
Definition sock_sendto (data : string) (port : Z) (w : World) : result unit * World :=
  if (port <? 0) || (65535 <? port) then (Raise OverflowError, w)
  else (Return tt, set_outbox (outbox w ++ [(data, port)]) w).

(** [se.errno] of a socket error. *)
Definition errno_of (e : exn) : option Z :=
  match e with BlockingIOError n => Some n | _ => None end.

(** ** manager_workers.py *)

Definition NUM_WORKERS : Z := 5.
Definition ASSIGNMENT_SIZE : Z := 1000.
Definition RESULT_WAIT_TIME_SECS : float := 1%float.

(** class ProblemState. [pending] maps an assignment ["lower,higher"] to
    the time it was last sent; [busy_workers] maps a worker to the
    assignment it was sent. *)
Record ProblemState : Type := mkProblemState {
  next : Z;
  pending : dict float;
  busy_workers : dict string;
  finished : Z;
  _saving_path : string
}.

Definition ProblemState_init (saving_path : string) : ProblemState :=
  mkProblemState 0 [] [] 0 saving_path.

Definition set_next (n : Z) (pb : ProblemState) : ProblemState :=
  mkProblemState n (pending pb) (busy_workers pb) (finished pb) (_saving_path pb).

Definition set_pending (d : dict float) (pb : ProblemState) : ProblemState :=
  mkProblemState (next pb) d (busy_workers pb) (finished pb) (_saving_path pb).

Definition set_busy_workers (d : dict string) (pb : ProblemState) : ProblemState :=
  mkProblemState (next pb) (pending pb) d (finished pb) (_saving_path pb).

Definition set_finished (n : Z) (pb : ProblemState) : ProblemState :=
  mkProblemState (next pb) (pending pb) (busy_workers pb) n (_saving_path pb).

(** class Manager; its socket is the one of the [World]. *)
Record Manager : Type := mkManager {
  Manager_name : string;
  Manager_role : Role;
  Manager_workers : Role;
  Manager_resp_wait_time : float;
  Manager_assignment_range : Z;
  Manager_problem : ProblemState
}.

Definition Manager_init (name problem_state_path : string) (role workers : Role) : Manager :=
  mkManager name role workers RESULT_WAIT_TIME_SECS ASSIGNMENT_SIZE
            (ProblemState_init problem_state_path).

Definition set_problem (pb : ProblemState) (m : Manager) : Manager :=
  mkManager (Manager_name m) (Manager_role m) (Manager_workers m)
            (Manager_resp_wait_time m) (Manager_assignment_range m) pb.

(** The state a method of the manager runs in. *)
Definition MState : Type := (Manager * World)%type.

Definition problem_of (s : MState) : ProblemState := Manager_problem (fst s).

Definition get_problem : M MState ProblemState := fun s => (Return (problem_of s), s).

Definition update_problem (f : ProblemState -> ProblemState) : M MState unit :=
  fun s => (Return tt, (set_problem (f (problem_of s)) (fst s), snd s)).

(** A call on the socket, the clock or the client from a method. *)
Definition in_env {A : Type} (f : World -> result A * World) : M MState A :=
  fun s => let '(r, w) := f (snd s) in (r, (fst s, w)).

Definition now : M MState float :=
  in_env (fun w => let '(t, w') := time_time w in (Return t, w')).

Definition printing (ev : print_event) : M MState unit :=
  in_env (fun w => (Return tt, print ev w)).

(** Lines 155-163, the body of the loop of [_recv_results] for one
    message: unpack four fields, assert the worker is busy and free it,
    and count the result if its assignment is still pending. *)
Definition record_result (msg : string) : M MState unit :=
  match split_comma msg with
  | [lower; higher; count; worker] =>
      (pb <- get_problem ;;
       if dict_contains worker (busy_workers pb) then
         update_problem (fun pb => set_busy_workers (dict_del worker (busy_workers pb)) pb) ;;;
         let assignment := (lower ++ "," ++ higher)%string in
         pb <- get_problem ;;
         if dict_contains assignment (pending pb) then
           c <- lift (py_int count) ;;
           update_problem (fun pb => set_finished (finished pb + c) pb) ;;;
           update_problem (fun pb => set_pending (dict_del assignment (pending pb)) pb)
         else ret tt
       else raise AssertionError)%monad
  | _ => raise ValueError
  end.

(** Lines 154-165: [while len(msg) > 0]. Every round takes a datagram
    off the queue, so one round more than the queue is long is enough. *)
Fixpoint recv_loop (fuel : nat) (msg : string) : M MState unit :=
  if (0 <? String.length msg)%nat then
    match fuel with
    | O => raise OutOfFuel
    | S fuel' =>
        (record_result msg ;;;
         msg' <- in_env (sock_recv 1024) ;;
         recv_loop fuel' msg')%monad
    end
  else ret tt.

(** Manager._recv_results *)
Definition Manager_recv_results : M MState unit :=
  fun s =>
    try_except2
      (msg <- in_env (sock_recv 1024) ;;
       recv_loop (S (List.length (inbox (snd s)))) msg)%monad
      is_socket_error
      (fun se => if match errno_of se with Some n => negb (n =? 35) | None => true end
                 then printing (UnexpectedSocketError se)
                 else ret tt)
      is_Exception
      (fun e => printing (UnexpectedException e))
      s.

(** Lines 180-181: the scan of [pending.items()] for the first entry
    sent too long ago; the clock is read for every entry looked at. *)
Fixpoint first_stalled (wait : float) (items : list (string * float))
    : M MState (option string) :=
  match items with
  | [] => ret None
  | (assignment, timestamp) :: rest =>
      (t <- now ;;
       if (timestamp + wait <? t)%float then ret (Some assignment)
       else first_stalled wait rest)%monad
  end.

(** The readings of the clock that a scan of [n] entries makes from the
    world [w], one for each entry, in order. *)
Definition readings (w : World) (n : nat) : list float :=
  map (clock w) (seq (ticks w) n).

(** [r[i]] for a list. *)
Definition item {A : Type} (l : list A) (i : nat) : result A :=
  match nth_error l i with Some a => Return a | None => Raise IndexError end.

(** Manager._get_assignment *)
Definition Manager_get_assignment : M MState (Z * Z) :=
  (s <- get ;;
   found <- first_stalled (Manager_resp_wait_time (fst s)) (pending (problem_of s)) ;;
   match found with
   | Some assignment =>
       let r := split_comma assignment in
       r0 <- lift (item r 0) ;;
       lower <- lift (py_int r0) ;;
       r1 <- lift (item r 1) ;;
       higher <- lift (py_int r1) ;;
       ret (lower, higher)
   | None =>
       ret (next (problem_of s), next (problem_of s) + Manager_assignment_range (fst s))
   end)%monad.

(** Manager._send_assignment *)
Definition Manager_send_assignment (assignment : Z * Z) (worker : string) : M MState unit :=
  (let message := join_comma [py_str (fst assignment); py_str (snd assignment)] in
   worker_port <- lift (py_int worker) ;;
   in_env (sock_sendto message worker_port) ;;;
   pb <- get_problem ;;
   (if snd assignment >? next pb then
      if fst assignment =? next pb
      then update_problem (set_next (snd assignment))
      else raise AssertionError
    else ret tt) ;;;
   t <- now ;;
   update_problem (fun pb => set_pending (dict_set message t (pending pb)) pb) ;;;
   update_problem (fun pb => set_busy_workers (dict_set worker message (busy_workers pb)) pb))%monad.

(** Lines 221-224: one pass over the free workers. *)
Fixpoint assign_all (free_workers : list string) (assigned : Z) : M MState Z :=
  match free_workers with
  | [] => ret assigned
  | worker :: rest =>
      (assignment <- Manager_get_assignment ;;
       Manager_send_assignment assignment worker ;;;
       assign_all rest (assigned + 1))%monad
  end.

(** ** Typed view of the messages and of the progress record *)

(** The characters of the text of an [int]. *)
Definition plain (c : ascii) : bool := is_digit c || Ascii.eqb c "-"%char.

(** The text of an assignment, as [_send_assignment] writes it and as
    it keys [pending]: [",".join(map(str, (lower, higher)))]. *)
Definition assignment_text (a : Z * Z) : string :=
  join_comma [py_str (fst a); py_str (snd a)].

(** The report of a worker (Worker.do_work, line 274):
    [",".join(map(str, (lower, higher, count, self._name)))]. *)
Definition result_text (lower higher count : Z) (worker : string) : string :=
  join_comma [py_str lower; py_str higher; py_str count; worker].

(** A [pending] dictionary given by its ranges, in insertion order. *)
Definition encode_pending (tp : list ((Z * Z) * float)) : dict float :=
  map (fun e => (assignment_text (fst e), snd e)) tp.

Definition no_comma (s : string) : bool := string_forall (fun c => negb (is_comma c)) s.

(** *** The drain as the spec words it (section 4.3, step 1)

    For each report: if the reporting worker is recorded in
    [busy_workers], clear that entry; if the reported range is still in
    [pending], add the reported count to [finished] and remove the range
    from [pending]. *)
Definition spec_record_result (report : Z * Z * Z * string) (pb : ProblemState)
    : ProblemState :=
  let '(lower, higher, count, worker) := report in
  let pb1 := if dict_contains worker (busy_workers pb)
             then set_busy_workers (dict_del worker (busy_workers pb)) pb
             else pb in
  let a := assignment_text (lower, higher) in
  if dict_contains a (pending pb1)
  then set_pending (dict_del a (pending pb1)) (set_finished (finished pb1 + count) pb1)
  else pb1.

Definition spec_drain (reports : list (Z * Z * Z * string)) (pb : ProblemState)
    : ProblemState :=
  fold_left (fun q r => spec_record_result r q) reports pb.

Definition report_text (report : Z * Z * Z * string) : string :=
  let '(lower, higher, count, worker) := report in result_text lower higher count worker.

(** ** Reasoning about method bodies *)

(** [hoare P m Q]: run from a state satisfying [P], the body [m] ends,
    by returning or raising, in a state and with a result satisfying [Q]. *)
Definition hoare {S A : Type} (P : S -> Prop) (m : M S A) (Q : result A -> S -> Prop) : Prop :=
  forall s, P s -> Q (fst (m s)) (snd (m s)).

Definition with_problem (pb : ProblemState) (s : MState) : MState :=
  (set_problem pb (fst s), snd s).

(** A result that is returned, or raised as an exception that
    [except Exception] catches. *)
Definition catchable {A : Type} (r : result A) : Prop :=
  match r with
  | Return _ => True
  | Raise e => is_Exception e = true
  end.

(** The completion bookkeeping of a record: [finished] and [pending]. *)
Definition counts (pb : ProblemState) : Z * dict float := (finished pb, pending pb).


(** Every key of a [pending] dictionary is the text of a range. *)
Definition canonical (d : dict float) : Prop :=
  forall k ts, In (k, ts) d -> exists a, k = assignment_text a.


(** ** json: the text of the values a progress record holds

    A model of [json.dumps] and [json.loads] for text whose characters
    are code points below 256. *)

Definition dquote : ascii := "034"%char.
Definition backslash : ascii := "092"%char.

(** What [json.loads] returns: [None], [bool], [int], [float], [str],
    [list] and [dict] values. *)
Inductive json : Type :=
| JNull
| JBool (b : bool)
| JInt (z : Z)
| JFloat (f : float)
| JStr (s : string)
| JList (items : list json)
| JDict (items : list (string * json)).

Definition hex_char (n : nat) : ascii :=
  if (n <? 10)%nat then ascii_of_nat (48 + n) else ascii_of_nat (87 + n).

Definition hex_value (c : ascii) : option nat :=
  let n := nat_of_ascii c in
  if ((48 <=? n) && (n <=? 57))%nat then Some (n - 48)%nat
  else if ((97 <=? n) && (n <=? 102))%nat then Some (n - 87)%nat
  else if ((65 <=? n) && (n <=? 70))%nat then Some (n - 55)%nat
  else None.

(** [json.encoder.py_encode_basestring_ascii], one character. *)
Definition escape_char (c : ascii) : string :=
  let n := nat_of_ascii c in
  if (n =? 34)%nat then String backslash (String dquote EmptyString)
  else if (n =? 92)%nat then String backslash (String backslash EmptyString)
  else if (n =? 10)%nat then String backslash "n"
  else if (n =? 13)%nat then String backslash "r"
  else if (n =? 9)%nat then String backslash "t"
  else if (n =? 8)%nat then String backslash "b"
  else if (n =? 12)%nat then String backslash "f"
  else if ((32 <=? n) && (n <=? 126))%nat then String c EmptyString
  else String backslash
         (String "u" (String "0" (String "0"
            (String (hex_char (n / 16)) (String (hex_char (n mod 16)) EmptyString))))).

Fixpoint escape (s : string) : string :=
  match s with
  | EmptyString => EmptyString
  | String c rest => (escape_char c ++ escape rest)%string
  end.

Definition quoted (s : string) : string :=
  String dquote (s ++ String dquote EmptyString).

(** [json.dumps(s)] for a [str]. *)
Definition dumps_str (s : string) : string := quoted (escape s).

(** The character a backslash and [e] stand for (other than [u]). *)
Definition unescape (e : ascii) : option ascii :=
  let n := nat_of_ascii e in
  if (n =? 34)%nat then Some dquote
  else if (n =? 92)%nat then Some backslash
  else if (n =? 47)%nat then Some "/"%char
  else if (n =? 98)%nat then Some (ascii_of_nat 8)
  else if (n =? 102)%nat then Some (ascii_of_nat 12)
  else if (n =? 110)%nat then Some (ascii_of_nat 10)
  else if (n =? 114)%nat then Some (ascii_of_nat 13)
  else if (n =? 116)%nat then Some (ascii_of_nat 9)
  else None.

Definition cons_char (c : ascii) (r : option (string * string)) : option (string * string) :=
  match r with
  | Some (s, rest) => Some (String c s, rest)
  | None => None
  end.

(** [json.decoder.py_scanstring] in strict mode, from the character
    after the opening quote: the string and what follows its closing
    quote. A code point from 256 on is outside the model. *)
Fixpoint scanstring (s : string) : option (string * string) :=
  match s with
  | EmptyString => None
  | String c rest =>
      if Ascii.eqb c dquote then Some (EmptyString, rest)
      else if Ascii.eqb c backslash then
        match rest with
        | EmptyString => None
        | String e rest' =>
            if Ascii.eqb e "u"%char then
              match rest' with
              | String h1 (String h2 (String h3 (String h4 rest''))) =>
                  match hex_value h1, hex_value h2, hex_value h3, hex_value h4 with
                  | Some a, Some b, Some c3, Some d =>
                      let n := (((a * 16 + b) * 16 + c3) * 16 + d)%nat in
                      if (n <? 256)%nat
                      then cons_char (ascii_of_nat n) (scanstring rest'')
                      else None
                  | _, _, _, _ => None
                  end
              | _ => None
              end
            else
              match unescape e with
              | Some ch => cons_char ch (scanstring rest')
              | None => None
              end
        end
      else if (nat_of_ascii c <? 32)%nat then None
      else cons_char c (scanstring rest)
  end.

Definition is_ws (c : ascii) : bool :=
  let n := nat_of_ascii c in
  ((n =? 32) || (n =? 9) || (n =? 10) || (n =? 13))%nat.

Fixpoint skip_ws (s : string) : string :=
  match s with
  | EmptyString => EmptyString
  | String c rest => if is_ws c then skip_ws rest else s
  end.

(** The longest prefix of characters that satisfy [f], and the rest. *)
Fixpoint span (f : ascii -> bool) (s : string) : string * string :=
  match s with
  | EmptyString => (EmptyString, EmptyString)
  | String c rest =>
      if f c then let '(a, b) := span f rest in (String c a, b)
      else (EmptyString, s)
  end.

Fixpoint starts_with (prefix s : string) : option string :=
  match prefix, s with
  | EmptyString, _ => Some s
  | String p prefix', String c rest =>
      if Ascii.eqb p c then starts_with prefix' rest else None
  | String _ _, EmptyString => None
  end.

(** [dict(pairs)]: a later pair with a key already met replaces its value. *)
Definition dict_of_pairs {V : Type} (pairs : list (string * V)) : dict V :=
  fold_left (fun d kv => dict_set (fst kv) (snd kv) d) pairs [].

(** The members of a [dict] as [json.dumps] writes them, with [", "]
    between members and [": "] after a key. *)
Fixpoint dumps_members {V : Type} (dumps_value : V -> string) (d : dict V) : string :=
  match d with
  | [] => EmptyString
  | [kv] => (dumps_str (fst kv) ++ ": " ++ dumps_value (snd kv))%string
  | kv :: rest =>
      (dumps_str (fst kv) ++ ": " ++ dumps_value (snd kv) ++ ", "
         ++ dumps_members dumps_value rest)%string
  end.

(** [json.dumps(d)] for a [dict] with [str] keys. *)
Definition dumps_dict {V : Type} (dumps_value : V -> string) (d : dict V) : string :=
  ("{" ++ dumps_members dumps_value d ++ "}")%string.

(** The three parts of the parser: a value, the members of an object
    after its brace (at the quote of a key), the items of an array. *)
Inductive mode : Type :=
| Value
| Members (pairs : list (string * json))
| Elements (items : list json).

Section Json.

(** [float.__repr__] and [float()] on the text of a number with a
    fraction or an exponent: the two functions of the interpreter that
    [json] uses for floats. They are parameters of the model. *)
Variable float_repr : float -> string.
Variable float_of_string : string -> option float.

(** [json.dumps(f)] for a [float]. *)
Definition dumps_float (f : float) : string :=
  if PrimFloat.is_nan f then "NaN"
  else if PrimFloat.eqb f PrimFloat.infinity then "Infinity"
  else if PrimFloat.eqb f PrimFloat.neg_infinity then "-Infinity"
  else float_repr f.

(** The parts of [NUMBER_RE]: an optional minus ... *)
Definition split_sign (s : string) : string * string :=
  match s with
  | String c r => if Ascii.eqb c "-"%char then ("-", r) else (EmptyString, s)
  | EmptyString => (EmptyString, s)
  end.

(** ... an optional fraction, a point and at least one digit ... *)
Definition scan_fraction (s : string) : string * string :=
  match s with
  | String c r =>
      if Ascii.eqb c "."%char then
        if String.eqb (fst (span is_digit r)) EmptyString then (EmptyString, s)
        else (String "."%char (fst (span is_digit r)), snd (span is_digit r))
      else (EmptyString, s)
  | EmptyString => (EmptyString, s)
  end.

(** The sign of an exponent, [+] or [-] or none. *)
Definition exponent_sign (s : string) : string * string :=
  match s with
  | String c r =>
      if Ascii.eqb c "+"%char then ("+", r)
      else if Ascii.eqb c "-"%char then ("-", r)
      else (EmptyString, s)
  | EmptyString => (EmptyString, s)
  end.

(** ... and an optional exponent, [e] or [E], an optional sign and at
    least one digit. *)
Definition scan_exponent (s : string) : string * string :=
  match s with
  | String e r =>
      if Ascii.eqb e "e"%char || Ascii.eqb e "E"%char then
        let sg := fst (exponent_sign r) in
        let ed := fst (span is_digit (snd (exponent_sign r))) in
        if String.eqb ed EmptyString then (EmptyString, s)
        else (String e (sg ++ ed), snd (span is_digit (snd (exponent_sign r))))
      else (EmptyString, s)
  | EmptyString => (EmptyString, s)
  end.

(** A number at the head of [s], as [NUMBER_RE] matches it: an optional
    minus, an integer part, an optional fraction, an optional exponent.
    With a fraction or an exponent the text goes to [float], else to
    [int]. An integer part with a zero in front of more digits ends the
    match after the zero, where no delimiter follows, so it is refused
    here. *)
Definition scan_unsigned (sign s1 : string) : option (json * string) :=
  let '(ds, s2) := span is_digit s1 in
  match ds with
  | EmptyString => None
  | String d more =>
      if Ascii.eqb d "0"%char && negb (String.eqb more EmptyString) then None
      else
        let '(frac, s3) := scan_fraction s2 in
        let '(expo, s4) := scan_exponent s3 in
        if String.eqb frac EmptyString && String.eqb expo EmptyString then
          match py_int (sign ++ ds) with
          | Return z => Some (JInt z, s4)
          | Raise _ => None
          end
        else
          match float_of_string (sign ++ ds ++ frac ++ expo) with
          | Some f => Some (JFloat f, s4)
          | None => None
          end
  end%string.

Definition scan_number (s : string) : option (json * string) :=
  scan_unsigned (fst (split_sign s)) (snd (split_sign s)).

(** [scan_once] with [JSONObject] and [JSONArray]. Every call is made on
    a shorter text than the call it is made from, so fuel beyond the
    length of the text is never used. [None] is a [JSONDecodeError]. *)
Fixpoint scan (fuel : nat) (md : mode) (s : string) : option (json * string) :=
  match fuel with
  | O => None
  | S fuel' =>
      match md with
      | Value =>
          match s with
          | EmptyString => None
          | String c rest =>
              if Ascii.eqb c dquote then
                match scanstring rest with
                | Some (str, r) => Some (JStr str, r)
                | None => None
                end
              else if Ascii.eqb c "{"%char then
                match starts_with "}" (skip_ws rest) with
                | Some r => Some (JDict [], r)
                | None => scan fuel' (Members []) (skip_ws rest)
                end
              else if Ascii.eqb c "["%char then
                match starts_with "]" (skip_ws rest) with
                | Some r => Some (JList [], r)
                | None => scan fuel' (Elements []) (skip_ws rest)
                end
              else
                match starts_with "null" s, starts_with "true" s, starts_with "false" s with
                | Some r, _, _ => Some (JNull, r)
                | None, Some r, _ => Some (JBool true, r)
                | None, None, Some r => Some (JBool false, r)
                | None, None, None =>
                    match scan_number s with
                    | Some vr => Some vr
                    | None =>
                        match starts_with "NaN" s, starts_with "Infinity" s,
                              starts_with "-Infinity" s with
                        | Some r, _, _ => Some (JFloat PrimFloat.nan, r)
                        | None, Some r, _ => Some (JFloat PrimFloat.infinity, r)
                        | None, None, Some r => Some (JFloat PrimFloat.neg_infinity, r)
                        | None, None, None => None
                        end
                    end
                end
          end
      | Members pairs =>
          match s with
          | String q r =>
              if Ascii.eqb q dquote then
                match scanstring r with
                | Some (key, r1) =>
                    match skip_ws r1 with
                    | String ":"%char r2 =>
                        match scan fuel' Value (skip_ws r2) with
                        | Some (v, r3) =>
                            match skip_ws r3 with
                            | String "}"%char r4 =>
                                Some (JDict (dict_of_pairs (pairs ++ [(key, v)])), r4)
                            | String ","%char r4 =>
                                scan fuel' (Members (pairs ++ [(key, v)])) (skip_ws r4)
                            | _ => None
                            end
                        | None => None
                        end
                    | _ => None
                    end
                | None => None
                end
              else None
          | EmptyString => None
          end
      | Elements items =>
          match scan fuel' Value s with
          | Some (v, r1) =>
              match skip_ws r1 with
              | String "]"%char r2 => Some (JList (items ++ [v]), r2)
              | String ","%char r2 => scan fuel' (Elements (items ++ [v])) (skip_ws r2)
              | _ => None
              end
          | None => None
          end
      end
  end.

(** [json.loads(s)]: one value, with nothing but whitespace around it;
    [JSONDecodeError] is a [ValueError]. *)
Definition json_loads (s : string) : result json :=
  match scan (S (String.length s)) Value (skip_ws s) with
  | Some (v, rest) =>
      match skip_ws rest with
      | EmptyString => Return v
      | String _ _ => Raise ValueError
      end
  | None => Raise ValueError
  end.

End Json.

(** ** Floats and integers *)

(** [int(f)] for a [float]: truncation toward zero. *)
Definition int_of_float (f : float) : result Z :=
  match Prim2SF f with
  | S754_zero _ => Return 0
  | S754_infinity _ => Raise OverflowError
  | S754_nan => Raise ValueError
  | S754_finite sign m e =>
      let magnitude := if 0 <=? e then Z.pos m * 2 ^ e else Z.pos m / 2 ^ (- e) in
      Return (if sign then - magnitude else magnitude)
  end.

(** [Role.is_holding(num_secs)] *)
Definition is_holding (self : Role) (num_secs : float) (w : World) : result bool * World :=
  let '(t, w') := time_time w in
  match int_of_float ((t + num_secs) * 1000)%float with
  | Return target_time_msecs => (Return (target_time_msecs <? expiration_time_msecs self), w')
  | Raise e => (Raise e, w')
  end.

(** ** ProblemState: durable_json, save, load *)

Section Persistence.

Variable float_repr : float -> string.
Variable float_of_string : string -> option float.

(** ProblemState.durable_json *)
Definition durable_json (pb : ProblemState) : string :=
  ("{" ++ quoted "next" ++ ":" ++ py_str (next pb) ++ ","
       ++ quoted "pending" ++ ":" ++ dumps_dict (dumps_float float_repr) (pending pb) ++ ","
       ++ quoted "busy_workers" ++ ":" ++ dumps_dict dumps_str (busy_workers pb) ++ ","
       ++ quoted "finished" ++ ":" ++ py_str (finished pb) ++ "}")%string.

(** [_extract_json_from_response] on an answer of the script. The
    payloads that stand for a JSON object give that object. Content
    that comes with a content type is parsed when the type names JSON;
    a body that does not parse, or another type, gives [None]. *)
Definition extract_json (body : Payload) : option json :=
  match body with
  | NoJson => None
  | JsonExpiration t => Some (JDict [("client_expiration_time_in_msecs", JInt t)])
  | JsonPlayers ps =>
      Some (JDict [("players_remaining_milliseconds",
                    JDict (map (fun kv => (fst kv, JInt (snd kv))) ps))])
  | Blob ct c =>
      if contains "application/json" ct then
        match json_loads float_of_string c with
        | Return v => Some v
        | Raise _ => None
        end
      else None
  end.

(** [RegistryClient.write_data] (lines 525-544): the JSON is extracted
    before the status is looked at. On 200 and 201 the result is built
    with [json.get] on three keys: a key that is missing gives [None],
    but only a [dict] has the method, so any other extracted value, and
    [None], raise [AttributeError]. The caller looks at none of the
    fields of the result. *)
Definition RegistryClient_write_data (who : issuer)
    (data_item_path data ctype : string) (w : World) : result unit * World :=
  let '(resp, w') := http who (PutData data_item_path data ctype) w in
  match resp with
  | NoResponse => (Raise ConnectionError, w')
  | HttpResponse status body =>
      let json := extract_json body in
      if (status =? 200) || (status =? 201) then
        match json with
        | Some (JDict _) => (Return tt, w')
        | _ => (no_json, w')
        end
      else (Raise (RegistryError status), w')
  end.

(** ProblemState.save *)
Definition ProblemState_save (pb : ProblemState) (w : World) : result bool * World :=
  match RegistryClient_write_data Caller (_saving_path pb) (durable_json pb)
                                  "application/json" w with
  | (Return _, w') => (Return true, w')
  | (Raise e, w') =>
      if is_RegistryError e then (Return false, print (StoreError "store" e) w')
      else (Raise e, w')
  end.

(** [obj[key]] for what [json.loads] returned. *)
Definition getitem (obj : json) (key : string) : result json :=
  match obj with
  | JDict items =>
      match dict_get key items with
      | Some v => Return v
      | None => Raise (KeyError key)
      end
  | _ => Raise TypeError
  end.

(** The fields of a record have the types of [ProblemState]; a loaded
    value of another type is outside the model. *)
Definition to_int (v : json) : result Z :=
  match v with JInt z => Return z | _ => Raise IllTyped end.

Fixpoint to_dict {V : Type} (to_value : json -> result V) (items : list (string * json))
    : result (dict V) :=
  match items with
  | [] => Return []
  | (k, v) :: rest =>
      match to_value v, to_dict to_value rest with
      | Return x, Return d => Return ((k, x) :: d)
      | _, _ => Raise IllTyped
      end
  end.

Definition to_float_dict (v : json) : result (dict float) :=
  match v with
  | JDict items =>
      to_dict (fun x => match x with JFloat f => Return f | _ => Raise IllTyped end) items
  | _ => Raise IllTyped
  end.

Definition to_str_dict (v : json) : result (dict string) :=
  match v with
  | JDict items =>
      to_dict (fun x => match x with JStr s => Return s | _ => Raise IllTyped end) items
  | _ => Raise IllTyped
  end.

(** Lines 120-123: the four assignments from the loaded object, in
    order; an assignment made before a failing one stays made. *)
Definition load_fields (obj : json) : M ProblemState unit :=
  (v <- lift (getitem obj "next") ;;
   n <- lift (to_int v) ;;
   modify (set_next n) ;;;
   v <- lift (getitem obj "pending") ;;
   p <- lift (to_float_dict v) ;;
   modify (set_pending p) ;;;
   v <- lift (getitem obj "busy_workers") ;;
   b <- lift (to_str_dict v) ;;
   modify (set_busy_workers b) ;;;
   v <- lift (getitem obj "finished") ;;
   f <- lift (to_int v) ;;
   modify (set_finished f))%monad.

(** ProblemState.load: only a [RegistryError] of the read is caught. *)
Definition ProblemState_load (pb : ProblemState) (w : World)
    : result unit * (ProblemState * World) :=
  match RegistryClient_read_data Caller (_saving_path pb) w with
  | (Raise e, w') =>
      if is_RegistryError e then (Return tt, (pb, print (StoreError "load" e) w'))
      else (Raise e, (pb, w'))
  | (Return read, w') =>
      if String.eqb (content_type read) "application/json" then
        match json_loads float_of_string (content read) with
        | Raise e => (Raise e, (pb, w'))
        | Return obj =>
            let '(r, pb') := load_fields obj pb in (r, (pb', w'))
        end
      else (Raise AssertionError, (pb, w'))
  end.

(** ** Manager.do_work *)

(** Line 220: [active_players() - busy_workers.keys()]; subtracting from
    [None] raises [TypeError]. *)
Definition free_workers_of (players : option (list string)) (pb : ProblemState)
    : result (list string) :=
  match players with
  | None => Raise TypeError
  | Some names =>
      Return (filter (fun n => negb (dict_contains n (busy_workers pb))) names)
  end.

(** Line 218, the test of the work loops:
    [t_end - time.time() >= 0.5 and role.is_holding(0.5)]. *)
Definition keep_working (role : Role) (t_end : float) (w : World) : result bool * World :=
  let '(t, w1) := time_time w in
  if (0.5 <=? t_end - t)%float then is_holding role 0.5%float w1
  else (Return false, w1).

(** Lines 219-230, the body of the loop. *)
Definition manager_iteration (assigned : Z) : M MState Z :=
  (Manager_recv_results ;;;
   s <- get ;;
   players <- in_env (active_players Caller (Manager_workers (fst s))) ;;
   s <- get ;;
   free_workers <- lift (free_workers_of players (problem_of s)) ;;
   assigned' <- assign_all free_workers assigned ;;
   s <- get ;;
   in_env (ProblemState_save (problem_of s)) ;;;
   ret assigned')%monad.

(** Lines 218-230: the loop runs until the deadline or the lease ends it;
    the fuel bounds the number of iterations looked at. *)
Fixpoint manager_loop (fuel : nat) (t_end : float) (assigned : Z) : M MState Z :=
  (s <- get ;;
   go <- in_env (keep_working (Manager_role (fst s)) t_end) ;;
   if go : bool then
     match fuel with
     | O => raise OutOfFuel
     | S fuel' =>
         assigned' <- manager_iteration assigned ;;
         manager_loop fuel' t_end assigned'
     end
   else ret assigned)%monad.

(** Manager.do_work *)
Definition Manager_do_work (fuel : nat) (t_end : float) : M MState Z :=
  ((fun s =>
      let '(r, (pb, w)) := ProblemState_load (problem_of s) (snd s) in
      (r, (set_problem pb (fst s), w))) ;;;
   in_env (fun w => (Return tt, sock_setblocking false w)) ;;;
   manager_loop fuel t_end 0)%monad.

(** ** Worker.do_work *)

Record Worker : Type := mkWorker {
  Worker_name : string;
  Worker_role : Role;
  Worker_manager : Role
}.

(** Lines 267-269: counting the numbers of [range(lower, higher)]. *)
Definition count_range (lower higher : Z) : Z := Z.max 0 (higher - lower).

(** Lines 261-276, the body of the [try]. *)
Definition worker_attempt (self : Worker) (solved : Z) : M World Z :=
  (msg <- sock_recv 1024 ;;
   if (0 <? String.length msg)%nat then
     let pair := split_comma msg in
     p0 <- lift (item pair 0) ;;
     lower <- lift (py_int p0) ;;
     p1 <- lift (item pair 1) ;;
     higher <- lift (py_int p1) ;;
     let count := count_range lower higher in
     players <- active_players Caller (Worker_manager self) ;;
     match players with
     | None => raise TypeError
     | Some [player] =>
         manager_port <- lift (py_int player) ;;
         sock_sendto (result_text lower higher count (Worker_name self)) manager_port ;;;
         ret (solved + 1)
     | Some _ => ret solved
     end
   else ret solved)%monad.

(** Lines 256-279: the loop of [Worker.do_work]. *)
Fixpoint worker_loop (fuel : nat) (self : Worker) (t_end : float) (solved : Z) : M World Z :=
  (go <- keep_working (Worker_role self) t_end ;;
   if go : bool then
     match fuel with
     | O => raise OutOfFuel
     | S fuel' =>
         modify (sock_settimeout 0.4%float) ;;;
         solved' <- try_except (worker_attempt self solved)
                      (fun e => match e with SocketTimeout => true | _ => false end)
                      (fun _ => ret solved) ;;
         worker_loop fuel' self t_end solved'
     end
   else ret solved)%monad.

(** Worker.do_work *)
Definition Worker_do_work (fuel : nat) (self : Worker) (t_end : float) : M World Z :=
  worker_loop fuel self t_end 0.

End Persistence.

(** ** Reading back what was written *)

(** A text that begins with the comma or the closing brace that follows
    a value inside an object. *)
Definition delimited (s : string) : Prop :=
  exists r, s = String ","%char r \/ s = String "}"%char r.

(** The texts that [NUMBER_RE] matches from end to end and hands to
    [float]: an optional minus, an integer part with no zero in front of
    other digits, and then a fraction, an exponent or both. *)
Definition float_literal (t : string) : bool :=
  let s1 := snd (split_sign t) in
  let s2 := snd (span is_digit s1) in
  let s3 := snd (scan_fraction s2) in
  match fst (span is_digit s1) with
  | EmptyString => false
  | String d more =>
      negb (Ascii.eqb d "0"%char && negb (String.eqb more EmptyString))
      && negb (String.eqb (fst (scan_fraction s2)) EmptyString
               && String.eqb (fst (scan_exponent s3)) EmptyString)
      && String.eqb (snd (scan_exponent s3)) EmptyString
  end.

(** A float that is neither NaN nor an infinity, by the tests of
    [json.encoder.floatstr]: [o != o], [o == INFINITY], [o == -INFINITY]. *)
Definition finite_float (f : float) : bool :=
  negb (PrimFloat.is_nan f)
  && negb (PrimFloat.eqb f PrimFloat.infinity)
  && negb (PrimFloat.eqb f PrimFloat.neg_infinity).

(** The text that [float.__repr__] writes for [f], when [f] is finite,
    is a float literal that [float] reads as [f] again. *)
Definition float_round_trips (float_repr : float -> string)
    (float_of_string : string -> option float) (f : float) : Prop :=
  finite_float f = true ->
  float_literal (float_repr f) = true /\ float_of_string (float_repr f) = Some f.

(** With [n] rounds of fuel or more, the scanner reads the text [t] as
    the value [v] and stops at the delimiter behind it. *)
Definition reads_back (float_of_string : string -> option float)
    (n : nat) (t : string) (v : json) : Prop :=
  forall rest fuel, delimited rest -> (n <= fuel)%nat ->
    scan float_of_string fuel Value (skip_ws (t ++ rest)) = Some (v, rest).

(** The members of an object, each a key, the text of its value and the
    value, written with the given separators. *)
Fixpoint members_text (colon comma : string) (ms : list (string * string * json)) : string :=
  match ms with
  | [] => EmptyString
  | [(k, t, _)] => (dumps_str k ++ colon ++ t)%string
  | (k, t, _) :: rest =>
      (dumps_str k ++ colon ++ t ++ comma ++ members_text colon comma rest)%string
  end.

Definition member_pair (m : string * string * json) : string * json :=
  (fst (fst m), snd m).

(** The contract of the data store that [save] and [load] rely on: the
    response in line answers the read of a data item with the content
    and the content type of the write logged last. *)
Definition answers_last_write (w : World) : Prop :=
  match last (requests w) (Caller, GetData EmptyString) with
  | (_, PutData _ data ctype) =>
      exists rest, script w = HttpResponse 200 (Blob ctype data) :: rest
  | _ => False
  end.

(** What follows the value of a member: the closing brace, or the comma
    and the members that remain. *)
Definition member_tail (colon comma : string) (ms : list (string * string * json))
    (rest : string) : string :=
  match ms with
  | [] => String "}"%char rest
  | _ :: _ => (comma ++ members_text colon comma ms ++ String "}"%char rest)%string
  end.

(** A dictionary as the members of an object: each value with its text
    and with the [json] value it is read as. *)
Definition dict_members {V : Type} (dumps_value : V -> string) (inj : V -> json)
    (d : dict V) : list (string * string * json) :=
  map (fun kv => (fst kv, dumps_value (snd kv), inj (snd kv))) d.

(** The object [json.loads] makes of a [float] or [str] dictionary. *)
Definition json_of_dict {V : Type} (inj : V -> json) (d : dict V) : json :=
  JDict (map (fun kv => (fst kv, inj (snd kv))) d).

(** The four members of the durable text of a progress record. *)
Definition record_members (float_repr : float -> string) (pb : ProblemState)
    : list (string * string * json) :=
  [("next", py_str (next pb), JInt (next pb));
   ("pending", dumps_dict (dumps_float float_repr) (pending pb),
    json_of_dict JFloat (pending pb));
   ("busy_workers", dumps_dict dumps_str (busy_workers pb),
    json_of_dict JStr (busy_workers pb));
   ("finished", py_str (finished pb), JInt (finished pb))].

(** ** The role handle: requests and schedules *)

(** The request [take] sends for a handle (lines 80-81). *)
Definition take_request (self : Role) : Request :=
  PutRole (role_path self) (name self) (playtime_secs self) (max_players self).

(** How many steps a renewal thread is from its end once the flag is
    down: from the lock it leaves the block, sleeps and fails the loop
    test; a thread that is gone has none left. *)
Definition steps_to_end (at_pc : option pc) : nat :=
  match at_pc with
  | Some WaitLock => 3
  | Some Sleep | Some InitialSleep => 2
  | Some LoopTest => 1
  | None => 0
  end.

(** A handle that was never released holds its thread, if it started
    one: the threads number as many as were started, one at most. *)
Definition tidy (p : Process) : Prop :=
  (List.length (threads p) <= started p)%nat /\
  match _maintenance_thread (handle p) with
  | None => started p = O
  | Some _ => started p = 1%nat
  end.

(** The actions of the owner and of the threads other than [release]. *)
Definition is_release (a : action) : bool :=
  match a with CallRelease => true | _ => false end.

(** ** Invariants of the manager's loop *)

(** Every range on record as pending is keyed by its text and ends at
    or below [next]: the numbers from [next] on were never handed out. *)
Definition covered (pb : ProblemState) : Prop :=
  forall k ts, In (k, ts) (pending pb) -> exists a, k = assignment_text a /\ snd a <= next pb.

(** The number [n] lies in a range that was sent in a datagram and is
    on record as pending. *)
Definition handed_out (n : Z) (s : MState) : Prop :=
  exists a port,
    dict_contains (assignment_text a) (pending (problem_of s)) = true /\
    In (assignment_text a, port) (outbox (snd s)) /\
    fst a <= n < snd a.

(** The three updates the drain makes to a progress record (lines 157,
    162 and 163): a worker is freed, a count is added to [finished], a
    range is taken off [pending]. *)
Inductive drain_step : ProblemState -> ProblemState -> Prop :=
| free_worker (pb : ProblemState) (worker : string) :
    drain_step pb (set_busy_workers (dict_del worker (busy_workers pb)) pb)
| add_count (pb : ProblemState) (c : Z) :
    drain_step pb (set_finished (finished pb + c) pb)
| forget_range (pb : ProblemState) (assignment : string) :
    drain_step pb (set_pending (dict_del assignment (pending pb)) pb).

Inductive drained : ProblemState -> ProblemState -> Prop :=
| drained_refl (pb : ProblemState) : drained pb pb
| drained_step (pb pb1 pb2 : ProblemState) :
    drained pb pb1 -> drain_step pb1 pb2 -> drained pb pb2.

(** ** Datagrams a worker can work on *)

(** What [Worker.do_work] needs of a datagram (lines 263-264): at least
    two fields between commas, the first two of them texts of integers. *)
Definition names_a_range (msg : string) : bool :=
  match split_comma msg with
  | lower :: higher :: _ =>
      match py_int lower, py_int higher with
      | Return _, Return _ => true
      | _, _ => false
      end
  | _ => false
  end.

(** The players of an answer that [active_players] keeps. *)
Definition unexpired (ps : list (string * Z)) : list string :=
  map fst (filter (fun kv => snd kv >? 0) ps).

(** ** registry_client.py: what each method makes of a response

    The methods of [RegistryClient] in full: the answer of the service
    with its status, its headers and its body, the result objects with
    all their fields, and [RegistryError] with its message and its extra
    JSON. A Python value taken from the JSON of an answer is a [json],
    [JNull] standing for [None]. *)

Module RegistryClient.

(** [str.lower()], for code points below 256. *)
Definition lower_char (c : ascii) : ascii :=
  let n := nat_of_ascii c in
  if ((65 <=? n) && (n <=? 90))%nat then ascii_of_nat (n + 32)
  else if ((192 <=? n) && (n <=? 222) && negb (n =? 215))%nat then ascii_of_nat (n + 32)
  else c.

Fixpoint lower (s : string) : string :=
  match s with
  | EmptyString => EmptyString
  | String c rest => String (lower_char c) (lower rest)
  end.

(** A [requests.Response]: the status, the headers (a
    [CaseInsensitiveDict], kept under lower-case names), what
    [response.json()] does ([None] here when it raises) and the bytes
    of the body. *)
Record Reply : Type := mkReply {
  status_code : Z;
  headers : dict string;
  json_body : option json;
  content : string
}.

(** [response.headers.get(name)] *)
Definition header (name : string) (response : Reply) : option string :=
  dict_get (lower name) (headers response).

(** The header names of the class. *)
Definition CONTENT_TYPE : string := "Content-Type".
Definition X_DK_ORG_TIME : string := "x-dk-org-time".
Definition X_DK_CREATE_ORG_TIME : string := "x-dk-create-org-time".
Definition X_DK_UPDATE_ORG_TIME : string := "x-dk-update-org-time".

Definition GenericErrorMessages : list (Z * string) :=
  [(400, "Bad request"); (403, "Forbidden"); (404, "Not found"); (409, "Conflict");
   (413, "Payload too large"); (500, "Internal server error"); (503, "Request collision");
   (507, "Insufficient storage")].

(** [self.GenericErrorMessages.get(status, "Unknown error")] *)
Definition error_message (status : Z) : string :=
  match find (fun kv => fst kv =? status) GenericErrorMessages with
  | Some kv => snd kv
  | None => "Unknown error"
  end.

(** What a method raises: [RegistryError] with its three attributes, or
    an exception of the interpreter. *)
Inductive raised : Type :=
| RegistryError (http_code : Z) (message : string) (extra_json : json)
| Builtin (e : exn).

Inductive outcome (A : Type) : Type :=
| Returned (a : A)
| Raised (e : raised).
Arguments Returned {A} a.
Arguments Raised {A} e.

Definition and_then {A B : Type} (o : outcome A) (k : A -> outcome B) : outcome B :=
  match o with
  | Returned a => k a
  | Raised e => Raised e
  end.

(** [_extract_json_from_response]: the JSON of the body when the
    content type names JSON and the body parses, else [None]. *)
Definition _extract_json_from_response (response : Reply) : json :=
  let content_type :=
    match header "content-type" response with Some v => v | None => EmptyString end in
  if contains "application/json" content_type then
    match json_body response with
    | Some v => v
    | None => JNull
    end
  else JNull.

(** [json.get(key)] on what [_extract_json_from_response] returned: only
    a [dict] has the method. *)
Definition get (obj : json) (key : string) : outcome json :=
  match obj with
  | JDict items =>
      Returned (match dict_get key items with Some v => v | None => JNull end)
  | _ => Raised (Builtin (AttributeError "get"))
  end.

(** [int(response.headers.get(name))]: [int(None)] is a [TypeError]. *)
Definition header_int (name : string) (response : Reply) : outcome Z :=
  match header name response with
  | None => Raised (Builtin TypeError)
  | Some v =>
      match py_int v with
      | Return z => Returned z
      | Raise e => Raised (Builtin e)
      end
  end.

(** [int(v)] for a value of the JSON. *)
Definition int_of_json (v : json) : outcome Z :=
  match v with
  | JInt z => Returned z
  | JBool b => Returned (if b then 1 else 0)
  | JFloat f =>
      match int_of_float f with
      | Return z => Returned z
      | Raise e => Raised (Builtin e)
      end
  | JStr s =>
      match py_int s with
      | Return z => Returned z
      | Raise e => Raised (Builtin e)
      end
  | JNull | JList _ | JDict _ => Raised (Builtin TypeError)
  end.

(** [v == True] for a value of the JSON: [True], [1] and [1.0] are
    equal to [True]. *)
Definition equals_True (v : json) : bool :=
  match v with
  | JBool b => b
  | JInt z => z =? 1
  | JFloat f => PrimFloat.eqb f 1
  | _ => false
  end.

(** Lines 431-433 and their like: the error of a refused request. *)
Definition refusal {A : Type} (response : Reply) : outcome A :=
  Raised (RegistryError (status_code response) (error_message (status_code response))
            (_extract_json_from_response response)).

(** The result classes, with the arguments of their [__init__]. *)
Inductive TakeRoleResult : Type :=
| mkTakeRoleResult (org_time : Z) (is_new_role_created : bool)
    (client_expiration_time_in_msecs : json).

Inductive ReleaseRoleResult : Type :=
| mkReleaseRoleResult (org_time : Z).

Inductive ReadRoleResult : Type :=
| mkReadRoleResult (org_time : Z)
    (default_playtime_secs max_players players_remaining_milliseconds : json).

Inductive WriteDataResult : Type :=
| mkWriteDataResult (org_time : Z) (is_new_data_item_created : bool)
    (create_org_time update_org_time number_of_bytes_written : json).

Inductive DeleteDataResult : Type :=
| mkDeleteDataResult (org_time : Z).

Inductive ReadDataResult : Type :=
| mkReadDataResult (org_time create_org_time update_org_time : Z)
    (content_type : option string) (content : string).

Inductive ListStats : Type :=
| mkListStats (role_count data_item_count : Z).

Inductive ListItemsResult : Type :=
| mkListItemsResult (org_time : Z) (files : json) (stats : ListStats).

Inductive RotateOrgKeyResult : Type :=
| mkRotateOrgKeyResult (org_time : Z) (org_key : json).

Inductive OrgStats : Type :=
| mkOrgStats (total_role_count total_data_item_count total_data_size : json).

Inductive DescribeOrgResult : Type :=
| mkDescribeOrgResult (org_name org_key : json) (org_time : Z) (is_deleted : bool)
    (stats : OrgStats).

(** [take_role], from the response on (lines 418-433). The arguments of
    a result are evaluated from left to right. *)
Definition take_role (response : Reply) : outcome TakeRoleResult :=
  if status_code response =? 200 then
    let json := _extract_json_from_response response in
    and_then (header_int X_DK_ORG_TIME response) (fun org_time =>
    and_then (get json "client_expiration_time_in_msecs") (fun expiration =>
    Returned (mkTakeRoleResult org_time false expiration)))
  else if status_code response =? 201 then
    let json := _extract_json_from_response response in
    and_then (header_int X_DK_ORG_TIME response) (fun org_time =>
    and_then (get json "client_expiration_time_in_msecs") (fun expiration =>
    Returned (mkTakeRoleResult org_time true expiration)))
  else refusal response.

(** [release_role], from the response on (lines 461-466). *)
Definition release_role (response : Reply) : outcome ReleaseRoleResult :=
  if status_code response =? 200 then
    and_then (header_int X_DK_ORG_TIME response) (fun org_time =>
    Returned (mkReleaseRoleResult org_time))
  else refusal response.

(** [read_role], from the response on (lines 488-498). *)
Definition read_role (response : Reply) : outcome ReadRoleResult :=
  if status_code response =? 200 then
    let json := _extract_json_from_response response in
    and_then (header_int X_DK_ORG_TIME response) (fun org_time =>
    and_then (get json "default_playtime_secs") (fun playtime =>
    and_then (get json "max_players") (fun players =>
    and_then (get json "players_remaining_milliseconds") (fun remaining =>
    Returned (mkReadRoleResult org_time playtime players remaining)))))
  else refusal response.

(** [write_data], from the response on (lines 526-544): the JSON is
    extracted before the status is looked at. *)
Definition write_data (response : Reply) : outcome WriteDataResult :=
  let json := _extract_json_from_response response in
  if status_code response =? 200 then
    and_then (header_int X_DK_ORG_TIME response) (fun org_time =>
    and_then (get json "create_org_time") (fun created =>
    and_then (get json "update_org_time") (fun updated =>
    and_then (get json "number_of_bytes_written") (fun written =>
    Returned (mkWriteDataResult org_time false created updated written)))))
  else if status_code response =? 201 then
    and_then (header_int X_DK_ORG_TIME response) (fun org_time =>
    and_then (get json "create_org_time") (fun created =>
    and_then (get json "update_org_time") (fun updated =>
    and_then (get json "number_of_bytes_written") (fun written =>
    Returned (mkWriteDataResult org_time true created updated written)))))
  else Raised (RegistryError (status_code response) (error_message (status_code response))
                 json).

(** [delete_data], from the response on (lines 570-575). *)
Definition delete_data (response : Reply) : outcome DeleteDataResult :=
  if status_code response =? 200 then
    and_then (header_int X_DK_ORG_TIME response) (fun org_time =>
    Returned (mkDeleteDataResult org_time))
  else refusal response.

(** [read_data], from the response on (lines 597-607). *)
Definition read_data (response : Reply) : outcome ReadDataResult :=
  if status_code response =? 200 then
    and_then (header_int X_DK_ORG_TIME response) (fun org_time =>
    and_then (header_int X_DK_CREATE_ORG_TIME response) (fun created =>
    and_then (header_int X_DK_UPDATE_ORG_TIME response) (fun updated =>
    Returned (mkReadDataResult org_time created updated (header CONTENT_TYPE response)
                (content response)))))
  else refusal response.

(** [list_items], from the response on (lines 629-640). *)
Definition list_items (response : Reply) : outcome ListItemsResult :=
  if status_code response =? 200 then
    let json := _extract_json_from_response response in
    and_then (header_int X_DK_ORG_TIME response) (fun org_time =>
    and_then (get json "files") (fun files =>
    and_then (get json "stats") (fun stats1 =>
    and_then (get stats1 "role_count") (fun roles =>
    and_then (int_of_json roles) (fun role_count =>
    and_then (get json "stats") (fun stats2 =>
    and_then (get stats2 "data_item_count") (fun items =>
    and_then (int_of_json items) (fun data_item_count =>
    Returned (mkListItemsResult org_time files
                (mkListStats role_count data_item_count))))))))))
  else refusal response.

(** [rotate_org_key], from the response on (lines 667-676), with the
    value of [self.org_key] before and after: the key is assigned before
    the result is built. *)
Definition rotate_org_key (org_key : json) (response : Reply)
    : outcome RotateOrgKeyResult * json :=
  if status_code response =? 200 then
    let json := _extract_json_from_response response in
    match get json "org_key" with
    | Raised e => (Raised e, org_key)
    | Returned new_key =>
        (and_then (header_int X_DK_ORG_TIME response) (fun org_time =>
         Returned (mkRotateOrgKeyResult org_time new_key)),
         new_key)
    end
  else (refusal response, org_key).

(** [describe_org], from the response on (lines 695-709). *)
Definition describe_org (response : Reply) : outcome DescribeOrgResult :=
  if status_code response =? 200 then
    let json := _extract_json_from_response response in
    and_then (get json "org_name") (fun org_name =>
    and_then (get json "org_key") (fun org_key =>
    and_then (header_int X_DK_ORG_TIME response) (fun org_time =>
    and_then (get json "is_deleted") (fun deleted =>
    and_then (get json "stats") (fun stats1 =>
    and_then (get stats1 "total_role_count") (fun roles =>
    and_then (get json "stats") (fun stats2 =>
    and_then (get stats2 "total_data_item_count") (fun items =>
    and_then (get json "stats") (fun stats3 =>
    and_then (get stats3 "total_data_size") (fun size =>
    Returned (mkDescribeOrgResult org_name org_key org_time (equals_True deleted)
                (mkOrgStats roles items size))))))))))))
  else refusal response.

(** The statuses a method takes for success. *)
Inductive method : Type :=
| TakeRole | ReleaseRole | ReadRole | WriteData | DeleteData | ReadData
| ListItems | RotateOrgKey | DescribeOrg.

Definition accepts (m : method) (status : Z) : bool :=
  match m with
  | TakeRole | WriteData => (status =? 200) || (status =? 201)
  | _ => status =? 200
  end.

(** The [RegistryError] an outcome is, if it is one. *)
Definition registry_error {A : Type} (o : outcome A) : option (Z * string * json) :=
  match o with
  | Raised (RegistryError code message extra) => Some (code, message, extra)
  | _ => None
  end.

(** The [RegistryError] of a call of the method on the response. *)
Definition registry_error_of (m : method) (org_key : json) (response : Reply)
    : option (Z * string * json) :=
  match m with
  | TakeRole => registry_error (take_role response)
  | ReleaseRole => registry_error (release_role response)
  | ReadRole => registry_error (read_role response)
  | WriteData => registry_error (write_data response)
  | DeleteData => registry_error (delete_data response)
  | ReadData => registry_error (read_data response)
  | ListItems => registry_error (list_items response)
  | RotateOrgKey => registry_error (fst (rotate_org_key org_key response))
  | DescribeOrg => registry_error (describe_org response)
  end.

End RegistryClient.

(** ** samples/leader.py: elect_leader *)

(** The two locals of [elect_leader] that outlive a round. *)
Record Chef : Type := mkChef {
  is_leader : bool;
  expiration : json
}.

(** What [elect_leader] prints. *)
Inductive leader_print : Type :=
| BecomesLeader (timestamp : Z)
| LeadershipEnded (expiration : json).

(** One round of the loop (lines 27-40), given what [take_role] did and
    what [int(time.time() * 1000)] gives if it is asked for: a success
    records the expiration and makes a chef who was none a leader; a
    refusal with status 409 ends the leadership of a leader; any other
    [RegistryError] changes nothing; any other exception ends
    [elect_leader]. *)
Definition elect_round (took : RegistryClient.outcome RegistryClient.TakeRoleResult)
    (timestamp : result Z) (state : Chef * list leader_print)
    : result (Chef * list leader_print) :=
  let '(chef, printed) := state in
  match took with
  | RegistryClient.Returned (RegistryClient.mkTakeRoleResult _ _ expires) =>
      if is_leader chef then Return (mkChef true expires, printed)
      else
        match timestamp with
        | Return t => Return (mkChef true expires, printed ++ [BecomesLeader t])
        | Raise e => Raise e
        end
  | RegistryClient.Raised (RegistryClient.RegistryError http_code _ _) =>
      if (http_code =? 409) && is_leader chef
      then Return (mkChef false (expiration chef),
                   printed ++ [LeadershipEnded (expiration chef)])
      else Return (chef, printed)
  | RegistryClient.Raised (RegistryClient.Builtin e) => Raise e
  end.

(** The rounds of [elect_leader] until the time is up, one for each
    answer of the service. *)
Fixpoint elect_rounds
    (rounds : list (RegistryClient.outcome RegistryClient.TakeRoleResult * result Z))
    (state : Chef * list leader_print) : result (Chef * list leader_print) :=
  match rounds with
  | [] => Return state
  | (took, timestamp) :: rest =>
      match elect_round took timestamp state with
      | Return state' => elect_rounds rest state'
      | Raise e => Raise e
      end
  end.

(** [elect_leader]: no leader at first, expiration 0, nothing printed. *)
Definition elect_leader
    (rounds : list (RegistryClient.outcome RegistryClient.TakeRoleResult * result Z))
    : result (Chef * list leader_print) :=
  elect_rounds rounds (mkChef false (JInt 0), []).

(** A beginning and an end of leadership take turns in what is
    printed, from the given one on. *)
Fixpoint takes_turns (leader : bool) (printed : list leader_print) : bool :=
  match printed with
  | [] => true
  | BecomesLeader _ :: rest => negb leader && takes_turns true rest
  | LeadershipEnded _ :: rest => leader && takes_turns false rest
  end.

(** ** Concrete scenarios *)

Definition still_clock : nat -> float := fun _ => 0%float.

(** A world with the given script of responses and nothing else. *)
Definition world_of_script (sc : list Response) : World :=
  mkWorld sc [] still_clock O None [] [] 35 [].

(** The manager-role handle of machine 5001, as [Machine.__init__] builds it. *)
Definition manager_role_5001 : Role := Role_init "5001" "/manager_workers/run/manager" 1 10.

Definition renewed (t : Z) : Response := HttpResponse 200 (JsonExpiration t).

Definition unavailable : Response := HttpResponse 503 NoJson.

Definition worker_role_5001 : Role := Role_init "5001" "/manager_workers/run/workers" NUM_WORKERS 10.

(** The manager of machine 5001 with a given progress record. *)
Definition manager_with (pb : ProblemState) : Manager :=
  set_problem pb (Manager_init "5001" "/manager_workers/run/problem"
                               manager_role_5001 worker_role_5001).

(** A world whose non-blocking socket has the given datagrams queued and
    whose clock gives the given readings. *)
Definition world_of_inbox (ck : nat -> float) (msgs : list string) : World :=
  mkWorld [] [] ck O (Some 0%float) msgs [] 35 [].

(** Two ranges were sent and not yet reported back: [0,1000) to worker
    5002 at time 100.0 and [1000,2000) to worker 5003 at time 100.5. *)
Definition two_pending : ProblemState :=
  mkProblemState 2000
    (encode_pending [((0, 1000), 100%float); ((1000, 2000), 100.5%float)])
    [("5002", "0,1000"); ("5003", "1000,2000")] 0 "/manager_workers/run/problem".

(** As [two_pending], but worker 5002 is not recorded busy (the record
    on hand is older than the assignment it works on). *)
Definition orphan_pending : ProblemState :=
  mkProblemState 2000
    (encode_pending [((0, 1000), 100%float); ((1000, 2000), 100.5%float)])
    [("5003", "1000,2000")] 0 "/manager_workers/run/problem".

(** Two ranges were sent and not yet reported back: [0,1000) at time
    100.0 and [1000,2000) at time 100.05. *)
Definition close_pending : ProblemState :=
  mkProblemState 2000
    (encode_pending [((0, 1000), 100%float); ((1000, 2000), 100.05%float)])
    [("5002", "0,1000"); ("5003", "1000,2000")] 0 "/manager_workers/run/problem".

(** A clock that reads 100.9 once and 101.1 from then on. *)
Definition creeping_clock (n : nat) : float :=
  match n with O => 100.9%float | S _ => 101.1%float end.


(** A clock that reads 100.0 once and 100.5 from then on. *)
Definition brisk_clock (n : nat) : float :=
  match n with O => 100%float | S _ => 100.5%float end.

Definition fresh_manager : Manager :=
  Manager_init "5001" "/manager_workers/run/problem" manager_role_5001 worker_role_5001.


(** Machine 5001 holds the manager role until time 1005.0 (in
    milliseconds), and machine 5002 a worker role until then. *)
Definition held_manager_role : Role :=
  set_expiration_time_msecs 1005000 manager_role_5001.

Definition held_worker_role : Role :=
  set_expiration_time_msecs 1005000
    (Role_init "5002" "/manager_workers/run/workers" NUM_WORKERS 10).

Definition manager_5001 : Manager :=
  Manager_init "5001" "/manager_workers/run/problem" held_manager_role worker_role_5001.

Definition worker_5002 : Worker :=
  mkWorker "5002" held_worker_role
    (Role_init "5002" "/manager_workers/run/manager" 1 10).

(** A clock that stands at time 1000.0. *)
Definition clock_1000 : nat -> float := fun _ => 1000%float.

(** The world of a machine at time 1000.0 with a script of responses and
    a queue of datagrams. *)
Definition world_at_1000 (sc : list Response) (msgs : list string) : World :=
  mkWorld sc [] clock_1000 O None msgs [] 35 [].

(** Stand-ins for the two float functions where no float is written or
    read. *)
Definition no_float_repr : float -> string := fun _ => "0.0".
Definition no_float_of_string : string -> option float := fun _ => None.

(** [float.__repr__] and [float] on the two time stamps of
    [two_pending]: [repr(100.0)] is ["100.0"], [repr(100.5)] is ["100.5"]. *)
Definition repr_of_stamps (f : float) : string :=
  if PrimFloat.eqb f 100 then "100.0"
  else if PrimFloat.eqb f 100.5 then "100.5"
  else "0.0".

Definition float_of_stamps (s : string) : option float :=
  if String.eqb s "100.0" then Some 100%float
  else if String.eqb s "100.5" then Some 100.5%float
  else if String.eqb s "0.0" then Some 0%float
  else None.

(** The answer to a write that created the data item: a JSON object
    with the three fields [write_data] reads. *)
Definition written : Response :=
  HttpResponse 201
    (Blob "application/json"
       ("{" ++ quoted "create_org_time" ++ ": 7, "
            ++ quoted "update_org_time" ++ ": 7, "
            ++ quoted "number_of_bytes_written" ++ ": 120}")).

(** The store accepts the write of [two_pending] and answers the read
    with what was written. *)
Definition store_keeps_two_pending : World :=
  world_of_script
    [written;
     HttpResponse 200 (Blob "application/json" (durable_json repr_of_stamps two_pending))].

(** A handle whose playtime is one second. *)
Definition brief_role : Role := Role_init "5001" "/manager_workers/run/manager" 1 1.

(** The content of a data item that holds a [next] and nothing else. *)
Definition only_next : string := ("{" ++ quoted "next" ++ ": 7}")%string.

(** The record [two_pending] as loaded under another path. *)
Definition copy_of_two_pending : ProblemState :=
  mkProblemState 2000
    (encode_pending [((0, 1000), 100%float); ((1000, 2000), 100.5%float)])
    [("5002", "0,1000"); ("5003", "1000,2000")] 0 "/manager_workers/other/problem".

(** A clock that reads 1000.0 four times and 2000.0 from then on. *)
Definition clock_runs_out (n : nat) : float :=
  if (n <? 4)%nat then 1000%float else 2000%float.

(** The world of the manager of machine 5001 for one iteration of its
    loop: nothing is stored yet, workers 5002 and 5003 hold the worker
    role, the save is accepted, and no report is queued. *)
Definition world_of_one_iteration : World :=
  mkWorld [HttpResponse 404 NoJson;
           HttpResponse 200 (JsonPlayers [("5002", 4000); ("5003", 4000)]);
           written]
          [] clock_runs_out O None [] [] 35 [].

(** The world of one iteration of the loop on its own: the socket is
    non-blocking and nothing is queued, workers 5002 and 5003 hold the
    worker role, and the save is accepted. *)
Definition world_of_a_pass : World :=
  mkWorld [HttpResponse 200 (JsonPlayers [("5002", 4000); ("5003", 4000)]);
           written]
          [] clock_1000 O (Some 0%float) [] [] 35 [].

(** An answer with status 200 and an empty JSON object, without the
    header of the org time. *)
Definition bare_answer : RegistryClient.Reply :=
  RegistryClient.mkReply 200 [("content-type", "application/json; charset=utf-8")]
    (Some (JDict [])) "{}".

(** The answer to a first acquisition of a role. *)
Definition created_answer : RegistryClient.Reply :=
  RegistryClient.mkReply 201
    [("x-dk-org-time", "41"); ("content-type", "application/json")]
    (Some (JDict [("client_expiration_time_in_msecs", JInt 1005000)])) "".

(** A record as it could be loaded from a store another program wrote
    to: the one pending entry is not keyed by a range. *)
Definition foreign_pending : ProblemState :=
  mkProblemState 1000 [("first thousand", 98%float)] [] 0 "/manager_workers/run/problem".

(** The world of worker 5002 for two rounds of its loop: one assignment
    is queued, machine 5001 alone holds the manager role, and the clock
    passes the deadline after the third reading. *)
Definition clock_of_two_rounds (n : nat) : float :=
  if (n <? 4)%nat then 1000%float else 2000%float.

Definition world_of_two_rounds : World :=
  mkWorld [HttpResponse 200 (JsonPlayers [("5001", 4000)])]
          [] clock_of_two_rounds O None ["0,1000"] [] 35 [].

(** * Theorems *)

(** ** The monad *)

Lemma bind_Return {S A B : Type} (m : M S A) (k : A -> M S B) (s s' : S) (a : A) :
  m s = (Return a, s') -> bind m k s = k a s'.
Proof. intros H. unfold bind. now rewrite H. Qed.

Lemma bind_Raise {S A B : Type} (m : M S A) (k : A -> M S B) (s s' : S) (e : exn) :
  m s = (Raise e, s') -> bind m k s = (Raise e, s').
Proof. intros H. unfold bind. now rewrite H. Qed.

(** ** The role handle *)

(** The attributes [__init__] sets are found by [Role_getattr]. *)
Lemma Role_getattr_defined (self : Role) :
  Role_getattr self "name" = Return (VStr (name self)) /\
  Role_getattr self "role_path" = Return (VStr (role_path self)) /\
  Role_getattr self "max_players" = Return (VInt (max_players self)) /\
  Role_getattr self "playtime_secs" = Return (VInt (playtime_secs self)) /\
  Role_getattr self "expiration_time_msecs" = Return (VInt (expiration_time_msecs self)).
Proof. repeat split. Qed.

(** No handle has an attribute [instance_name]. *)
Lemma Role_getattr_instance_name (self : Role) :
  Role_getattr self "instance_name" = Raise (AttributeError "instance_name").
Proof. reflexivity. Qed.

(** A renewal attempt raises before any request is sent and leaves the
    process as it was. *)
Lemma renewal_attempt_raises (tid : nat) (p : Process) :
  renewal_attempt tid p = (Raise (AttributeError "instance_name"), p).
Proof. reflexivity. Qed.

(** With the flag down the retry loop makes no attempt, whatever the
    attempt is. *)
Lemma retry_loop_stopped (attempt : M Process unit) (fuel : nat) (r : Z) (p : Process) :
  _to_maintain_role (handle p) = false ->
  retry_loop attempt fuel r p = (Return tt, p).
Proof.
  intros Hflag. destruct fuel as [|fuel]; simpl; now rewrite Hflag.
Qed.

(** A step of a renewal thread with the flag down changes neither the
    handle nor the environment, whatever the attempt is. *)
Lemma thread_step_with_stopped (attempt : nat -> M Process unit) (tid : nat) (p : Process) :
  _to_maintain_role (handle p) = false ->
  handle (thread_step_with attempt tid p) = handle p /\
  world (thread_step_with attempt tid p) = world p.
Proof.
  intros Hflag. unfold thread_step_with.
  destruct (pc_of tid (threads p)) as [[| | |]|]; try (split; reflexivity).
  - destruct (time_sleep _); split; reflexivity.
  - rewrite Hflag. split; reflexivity.
  - unfold maintain_locked_with. rewrite retry_loop_stopped by assumption.
    split; reflexivity.
  - destruct (time_sleep _); split; reflexivity.
Qed.

(** The locked block of the source: the attempt raises, the handler
    swallows it, and the process is as before. *)
Lemma maintain_locked_frame (tid : nat) (p : Process) :
  maintain_locked tid p = (Return tt, p).
Proof.
  unfold maintain_locked, maintain_locked_with. simpl.
  destruct (_to_maintain_role (handle p)) eqn:Hflag; [|reflexivity].
  cbn. rewrite Hflag. reflexivity.
Qed.

Lemma thread_step_frame (tid : nat) (p : Process) :
  handle (thread_step tid p) = handle p /\
  world (thread_step tid p) = world p /\
  started (thread_step tid p) = started p.
Proof.
  unfold thread_step, thread_step_with.
  destruct (pc_of tid (threads p)) as [[| | |]|]; try (repeat split; reflexivity).
  - destruct (time_sleep _); repeat split; reflexivity.
  - destruct (_to_maintain_role (handle p)); repeat split; reflexivity.
  - fold (maintain_locked tid). rewrite maintain_locked_frame. repeat split; reflexivity.
  - destruct (time_sleep _); repeat split; reflexivity.
Qed.

Lemma run_app (a b : list action) (p : Process) :
  run (a ++ b) p = run b (run a p).
Proof. unfold run. apply fold_left_app. Qed.

Lemma run_ticks_frame (tids : list nat) (p : Process) :
  handle (run (map Tick tids) p) = handle p /\
  world (run (map Tick tids) p) = world p.
Proof.
  revert p. induction tids as [|t tids IH]; intros p; simpl; [split; reflexivity|].
  destruct (IH (thread_step t p)) as [Hh Hw].
  destruct (thread_step_frame t p) as (Hh' & Hw' & _).
  unfold run in *. simpl. rewrite Hh, Hw. split; assumption.
Qed.

(** [release] always leaves the flag down and no thread in the handle. *)
Lemma release_clears (p : Process) :
  _to_maintain_role (handle (snd (release p))) = false /\
  _maintenance_thread (handle (snd (release p))) = None.
Proof.
  destruct p as [[nm path mx secs ex flag [th|]] ts n [[|[st body|] rest] rq ck tk so ib ob ea out]];
    unfold release, bind, modify, try_except, in_world, RegistryClient_release_role,
      http, release_handler, lift, ret; cbn;
    try (destruct (st =? 200)); cbn; split; reflexivity.
Qed.

Lemma run_ticks_with_stopped (attempt : nat -> M Process unit) (tids : list nat) (p : Process) :
  _to_maintain_role (handle p) = false ->
  handle (run_ticks_with attempt tids p) = handle p /\
  world (run_ticks_with attempt tids p) = world p.
Proof.
  revert p. induction tids as [|t tids IH]; intros p Hflag; [split; reflexivity|].
  destruct (thread_step_with_stopped attempt t p Hflag) as [Hh Hw].
  unfold run_ticks_with in *. simpl.
  destruct (IH (thread_step_with attempt t p)) as [Hh' Hw'].
  - now rewrite Hh.
  - rewrite Hh', Hw'. split; assumption.
Qed.

Lemma run_ticks_source (tids : list nat) (p : Process) :
  run (map Tick tids) p = run_ticks_with renewal_attempt tids p.
Proof.
  revert p. induction tids as [|t tids IH]; intros p; [reflexivity|].
  unfold run, run_ticks_with in *. simpl. apply IH.
Qed.

Lemma filter_snoc_false {A : Type} (f : A -> bool) (l : list A) (x : A) :
  f x = false -> filter f (l ++ [x]) = filter f l.
Proof.
  intros H. rewrite filter_app. simpl. rewrite H. apply app_nil_r.
Qed.

(** [take] and [release] send their one request as [Caller]. *)
Lemma take_requests (p : Process) :
  exists rq, requests (world (snd (take p))) = requests (world p) ++ [(Caller, rq)].
Proof.
  destruct p as [[nm path mx secs ex flag th] ts n [[|[st body|] rest] rq ck tk so ib ob ea out]];
    unfold take, bind, modify, try_except, in_world, RegistryClient_take_role,
      http, take_recorded, lift, ret; cbn;
    try (destruct (st =? 200); [|destruct (st =? 201)]);
    try (destruct body); cbn; try (destruct (_ >? _)); try (destruct th); cbn;
    eexists; reflexivity.
Qed.

Lemma release_requests (p : Process) :
  exists rq, requests (world (snd (release p))) = requests (world p) ++ [(Caller, rq)].
Proof.
  destruct p as [[nm path mx secs ex flag [th|]] ts n [[|[st body|] rest] rq ck tk so ib ob ea out]];
    unfold release, bind, modify, try_except, in_world, RegistryClient_release_role,
      http, release_handler, lift, ret; cbn;
    try (destruct (st =? 200)); cbn; eexists; reflexivity.
Qed.

Lemma step_renewal_requests (a : action) (p : Process) :
  renewal_requests (step a p) = renewal_requests p.
Proof.
  unfold renewal_requests. destruct a as [| |tid]; simpl.
  - destruct (take_requests p) as [rq ->]. now apply filter_snoc_false.
  - destruct (release_requests p) as [rq ->]. now apply filter_snoc_false.
  - destruct (thread_step_frame tid p) as (_ & -> & _). reflexivity.
Qed.

Lemma run_renewal_requests (acts : list action) (p : Process) :
  renewal_requests (run acts p) = renewal_requests p.
Proof.
  revert p. induction acts as [|a acts IH]; intros p; [reflexivity|].
  unfold run in *. simpl. rewrite IH. apply step_renewal_requests.
Qed.

Lemma release_expiration (p : Process) :
  expiration_time_msecs (handle (snd (release p))) = expiration_time_msecs (handle p).
Proof.
  destruct p as [[nm path mx secs ex flag [th|]] ts n [[|[st body|] rest] rq ck tk so ib ob ea out]];
    unfold release, bind, modify, try_except, in_world, RegistryClient_release_role,
      http, release_handler, lift, ret; cbn;
    try (destruct (st =? 200)); cbn; reflexivity.
Qed.

(** C1, as the code has it: [release] lowers the maintain flag before
    anything else in every case, but when the store call raises, its
    handler reads the unbound local [num_attempts], so [release] raises
    [UnboundLocalError] where the claim and the docstring promise the
    boolean false. *)
Theorem release_store_failure_raises (p : Process) (e : exn) :
  fst (RegistryClient_release_role Caller (role_path (handle p)) (name (handle p))
         (world p)) = Raise e ->
  fst (release p) = Raise (UnboundLocalError "num_attempts") /\
  _to_maintain_role (handle (snd (release p))) = false.
Proof.
  intros H. split; [|apply release_clears].
  destruct p as [[nm path mx secs ex flag [th|]] ts n [[|[st body|] rest] rq ck tk so ib ob ea out]];
    revert H;
    unfold release, bind, modify, try_except, in_world, RegistryClient_release_role,
      http, release_handler, lift, ret; cbn;
    try (destruct (st =? 200)); cbn; intros H; try discriminate H; reflexivity.
Qed.

Lemma release_store_failure_raises_witness :
  fst (release (new_process manager_role_5001 (world_of_script [unavailable])))
    = Raise (UnboundLocalError "num_attempts") /\
  _to_maintain_role
    (handle (snd (release (new_process manager_role_5001 (world_of_script [unavailable])))))
    = false.
Proof.
  apply (release_store_failure_raises
           (new_process manager_role_5001 (world_of_script [unavailable]))
           (RegistryError 503)).
  reflexivity.
Defined.

(** C2: every renewal attempt of the background task raises
    [AttributeError] on [self.instance_name] before a request is sent;
    the retry handler swallows it, so the locked block returns with the
    process unchanged; no step of a renewal thread changes the handle
    or sends a request; and along any execution the recorded expiration
    changes only at a [take] call. *)
Theorem renewal_never_updates_expiration :
  (forall tid p, renewal_attempt tid p = (Raise (AttributeError "instance_name"), p)) /\
  (forall tid p, maintain_locked tid p = (Return tt, p)) /\
  (forall tid p,
      expiration_time_msecs (handle (thread_step tid p)) = expiration_time_msecs (handle p) /\
      requests (world (thread_step tid p)) = requests (world p)) /\
  (forall a p,
      expiration_time_msecs (handle (step a p)) <> expiration_time_msecs (handle p) ->
      a = CallTake).
Proof.
  split; [exact renewal_attempt_raises|].
  split; [exact maintain_locked_frame|].
  split.
  - intros tid p. destruct (thread_step_frame tid p) as (-> & -> & _). split; reflexivity.
  - intros [| |tid] p H; [reflexivity| |]; exfalso; apply H; simpl.
    + apply release_expiration.
    + destruct (thread_step_frame tid p) as (-> & _). reflexivity.
Qed.

(** C3, as the code has it: [release] forgets the renewal thread without
    ending it, so [take(); release(); take()] on a fresh handle, each
    call succeeding, leaves two renewal threads, and both pass the loop
    test once they wake up: the handle does not keep to one renewal
    task. *)
Theorem take_release_take_two_renewal_threads
    (nm path : string) (mx secs t1 t2 : Z) (b : Payload) (w : World) (rest : list Response) :
  2 <= secs ->
  script w = renewed t1 :: HttpResponse 200 b :: renewed t2 :: rest ->
  let p0 := new_process (Role_init nm path mx secs) w in
  let p1 := snd (take p0) in
  let p2 := snd (release p1) in
  let p3 := snd (take p2) in
  fst (take p0) = Return true /\
  fst (release p1) = Return (Some true) /\
  fst (take p2) = Return true /\
  threads p3 = [(0%nat, InitialSleep); (1%nat, InitialSleep)] /\
  threads (run [Tick 0; Tick 1; Tick 0; Tick 1] p3) = [(0%nat, WaitLock); (1%nat, WaitLock)].
Proof.
  intros Hs Hw. destruct w as [sc rq ck tk so ib ob ea out]. simpl in Hw. subst sc.
  unfold take, release, bind, modify, try_except, in_world, RegistryClient_take_role,
    RegistryClient_release_role, http, take_recorded, lift, ret, new_process, Role_init.
  assert (Hlt : (secs - 1 - 1 <? 0) = false) by (apply Z.ltb_ge; lia).
  cbn. destruct (t1 >? 0); cbn; destruct (t2 >? _); cbn;
    unfold thread_step, thread_step_with, time_sleep, retake_interval, num_retries;
    repeat (cbn; rewrite ?Hlt); repeat split; reflexivity.
Qed.

Lemma take_release_take_two_renewal_threads_witness :
  threads (snd (take (snd (release (snd (take
     (new_process manager_role_5001
        (world_of_script [renewed 1000; HttpResponse 200 NoJson; renewed 2000]))))))))
  = [(0%nat, InitialSleep); (1%nat, InitialSleep)].
Proof.
  apply (take_release_take_two_renewal_threads
           "5001" "/manager_workers/run/manager" 1 10 1000 2000 NoJson
           (world_of_script [renewed 1000; HttpResponse 200 NoJson; renewed 2000]) []).
  - lia.
  - reflexivity.
Defined.

(** With the flag up, a thread that gets the lock runs the body of the
    [try]: when the body returns, the step leaves the process as the
    body left it, with the thread gone to sleep. The attempts go on
    until something lowers the flag. *)
Lemma locked_block_runs_attempt
    (attempt : nat -> M Process unit) (tid : nat) (p p' : Process) :
  _to_maintain_role (handle p) = true ->
  pc_of tid (threads p) = Some WaitLock ->
  attempt tid p = (Return tt, p') ->
  thread_step_with attempt tid p = set_threads (set_pc tid Sleep (threads p')) p'.
Proof.
  intros Hflag Hpc Hrun. unfold thread_step_with. rewrite Hpc.
  unfold maintain_locked_with, num_retries.
  change (Z.to_nat 1) with 1%nat. cbn [retry_loop]. rewrite Hflag.
  change (true && (1 >? 0)) with true. cbn iota.
  unfold bind at 1, try_except, bind at 1. rewrite Hrun. unfold ret.
  change (_to_maintain_role (handle p') && (0 >? 0))
    with (_to_maintain_role (handle p') && false).
  rewrite andb_false_r. reflexivity.
Qed.

(** C8: once [release] has completed (returned or raised), the steps
    of the renewal threads run no attempt, wherever each thread stood
    when [release] ran (also past the loop test, waiting for the lock).
    The body of the [try] is a parameter here: whatever an attempt
    would do to the handle or send to the service, nothing of it shows,
    so it is [release] that stops the attempts and not the failure of
    the attempt the source makes. For the source: its steps are these
    steps, and whatever is called later, no request in the log is ever
    issued by a renewal thread. *)
Theorem no_renewal_after_release
    (attempt : nat -> M Process unit) (p : Process) (tids : list nat) (acts : list action) :
  let q := snd (release p) in
  _to_maintain_role (handle q) = false /\
  handle (run_ticks_with attempt tids q) = handle q /\
  world (run_ticks_with attempt tids q) = world q /\
  run (map Tick tids) q = run_ticks_with renewal_attempt tids q /\
  renewal_requests (run acts q) = renewal_requests q.
Proof.
  intros q. destruct (release_clears p) as [Hflag _]. fold q in Hflag.
  destruct (run_ticks_with_stopped attempt tids q Hflag) as [Hh Hw].
  repeat split; try assumption.
  - apply run_ticks_source.
  - apply run_renewal_requests.
Qed.

(** ** Strings and integers *)

Lemma digit_cases (d : Z) :
  0 <= d < 10 ->
  d = 0 \/ d = 1 \/ d = 2 \/ d = 3 \/ d = 4 \/ d = 5 \/ d = 6 \/ d = 7 \/ d = 8 \/ d = 9.
Proof. lia. Qed.

Ltac each_digit d H :=
  destruct (digit_cases d H) as [->|[->|[->|[->|[->|[->|[->|[->|[->| ->]]]]]]]]].

Lemma digit_value_digit_char (d : Z) :
  0 <= d < 10 -> digit_value (digit_char d) = Some d.
Proof. intros H. each_digit d H; reflexivity. Qed.

Lemma is_digit_digit_char (d : Z) :
  0 <= d < 10 -> is_digit (digit_char d) = true.
Proof. intros H. unfold is_digit. now rewrite digit_value_digit_char. Qed.

Lemma string_forall_impl (f g : ascii -> bool) (s : string) :
  (forall c, f c = true -> g c = true) ->
  string_forall f s = true -> string_forall g s = true.
Proof.
  intros Hfg. induction s as [|c s IH]; simpl; [reflexivity|].
  intros H. apply andb_true_iff in H as [Hc Hs].
  apply andb_true_iff. split; [apply Hfg, Hc | apply IH, Hs].
Qed.

Lemma string_forall_app (f : ascii -> bool) (a b : string) :
  string_forall f (a ++ b)%string = string_forall f a && string_forall f b.
Proof.
  induction a as [|c a IH]; simpl; [reflexivity|].
  now rewrite IH, andb_assoc.
Qed.

Lemma digits_of_all_digits (fuel : nat) (n : Z) (acc : string) :
  string_forall is_digit acc = true ->
  string_forall is_digit (digits_of fuel n acc) = true.
Proof.
  revert n acc. induction fuel as [|fuel IH]; intros n acc Hacc; simpl; [assumption|].
  assert (Hd : is_digit (digit_char (n mod 10)) = true)
    by (apply is_digit_digit_char, Z.mod_pos_bound; lia).
  destruct (n / 10 =? 0).
  - simpl. now rewrite Hd.
  - apply IH. simpl. now rewrite Hd.
Qed.

(** Reading back the digits written by [digits_of]. *)
Lemma parse_digits_digits_of (fuel : nat) (n : Z) (acc : string) (b : bool) :
  0 <= n < 2 ^ Z.of_nat (S fuel) ->
  parse_digits (digits_of (S fuel) n acc) 0 b = parse_digits acc n true.
Proof.
  revert n acc b. induction fuel as [|fuel IH]; intros n acc b Hn.
  - assert (Hn' : n / 10 = 0) by (apply Z.div_small; simpl in Hn; lia).
    simpl. rewrite Hn'. simpl.
    rewrite digit_value_digit_char by (apply Z.mod_pos_bound; lia).
    f_equal. rewrite Z.mod_small by (simpl in Hn; lia). lia.
  - change (digits_of (S (S fuel)) n acc)
      with (let acc' := String (digit_char (n mod 10)) acc in
            if n / 10 =? 0 then acc' else digits_of (S fuel) (n / 10) acc').
    cbv zeta. destruct (n / 10 =? 0) eqn:Hq.
    + apply Z.eqb_eq in Hq. simpl.
      rewrite digit_value_digit_char by (apply Z.mod_pos_bound; lia).
      f_equal. pose proof (Z.div_mod n 10). lia.
    + apply Z.eqb_neq in Hq.
      rewrite IH.
      * cbn [parse_digits]. rewrite digit_value_digit_char by (apply Z.mod_pos_bound; lia).
        f_equal. pose proof (Z.div_mod n 10). lia.
      * split; [apply Z.div_pos; lia|].
        apply Z.div_lt_upper_bound; [lia|].
        rewrite Nat2Z.inj_succ, Z.pow_succ_r in Hn by lia.
        rewrite Nat2Z.inj_succ, Z.pow_succ_r by lia.
        rewrite Nat2Z.inj_succ, Z.pow_succ_r in Hn by lia.
        assert (0 < 2 ^ Z.of_nat fuel) by (apply Z.pow_pos_nonneg; lia).
        lia.
Qed.

Lemma log2_fuel (n : Z) : 0 <= n -> 0 <= n < 2 ^ Z.of_nat (S (Z.to_nat (Z.log2 n))).
Proof.
  intros Hn. split; [assumption|].
  rewrite Nat2Z.inj_succ, Z2Nat.id by apply Z.log2_nonneg.
  destruct (Z.eq_dec n 0) as [->|Hz]; [reflexivity|].
  apply Z.log2_spec. lia.
Qed.

(** The first character written by [digits_of] is a digit. *)
Lemma digits_of_head (fuel : nat) (n : Z) (acc : string) :
  exists d rest, 0 <= d < 10 /\ digits_of (S fuel) n acc = String (digit_char d) rest.
Proof.
  revert n acc. induction fuel as [|fuel IH]; intros n acc.
  - simpl. exists (n mod 10), acc. split; [apply Z.mod_pos_bound; lia|].
    now destruct (n / 10 =? 0).
  - change (digits_of (S (S fuel)) n acc)
      with (let acc' := String (digit_char (n mod 10)) acc in
            if n / 10 =? 0 then acc' else digits_of (S fuel) (n / 10) acc').
    cbv zeta. destruct (n / 10 =? 0).
    + exists (n mod 10), acc. split; [apply Z.mod_pos_bound; lia|reflexivity].
    + apply IH.
Qed.

Lemma plain_not_space (c : ascii) : plain c = true -> is_space c = false.
Proof.
  unfold plain, is_digit, digit_value.
  destruct c as [[] [] [] [] [] [] [] []]; simpl; intros H; try discriminate H; reflexivity.
Qed.

Lemma plain_not_comma (c : ascii) : plain c = true -> is_comma c = false.
Proof.
  unfold plain, is_digit, digit_value.
  destruct c as [[] [] [] [] [] [] [] []]; simpl; intros H; try discriminate H; reflexivity.
Qed.

Lemma py_str_plain (z : Z) : string_forall plain (py_str z) = true.
Proof.
  assert (Hd : forall s, string_forall is_digit s = true -> string_forall plain s = true).
  { intros s. apply string_forall_impl. intros c Hc. unfold plain. now rewrite Hc. }
  unfold py_str. destruct (z <? 0).
  - cbn [string_forall]. apply andb_true_iff. split; [reflexivity|].
    apply Hd. now apply digits_of_all_digits.
  - apply Hd. now apply digits_of_all_digits.
Qed.

Lemma lstrip_no_space (s : string) :
  string_forall (fun c => negb (is_space c)) s = true -> lstrip s = s.
Proof.
  destruct s as [|c s]; simpl; [reflexivity|].
  intros H. apply andb_true_iff in H as [Hc _].
  now destruct (is_space c).
Qed.

Lemma rstrip_no_space (s : string) :
  string_forall (fun c => negb (is_space c)) s = true -> rstrip s = s.
Proof.
  induction s as [|c s IH]; simpl; [reflexivity|].
  intros H. apply andb_true_iff in H as [Hc Hs].
  rewrite (IH Hs). destruct s; [|reflexivity].
  now destruct (is_space c).
Qed.

Lemma plain_no_space (s : string) :
  string_forall plain s = true -> string_forall (fun c => negb (is_space c)) s = true.
Proof.
  apply string_forall_impl. intros c Hc. now rewrite plain_not_space.
Qed.

(** [int(str(z)) = z] *)
Lemma py_int_py_str (z : Z) : py_int (py_str z) = Return z.
Proof.
  unfold py_int.
  rewrite (lstrip_no_space (py_str z)) by apply plain_no_space, py_str_plain.
  rewrite (rstrip_no_space (py_str z)) by apply plain_no_space, py_str_plain.
  unfold py_str. destruct (z <? 0) eqn:Hz.
  - apply Z.ltb_lt in Hz.
    rewrite parse_digits_digits_of by (apply log2_fuel; lia).
    simpl. now rewrite Z.opp_involutive.
  - apply Z.ltb_ge in Hz.
    pose proof (parse_digits_digits_of (Z.to_nat (Z.log2 z)) z EmptyString false
                  (log2_fuel z Hz)) as Hp.
    destruct (digits_of_head (Z.to_nat (Z.log2 z)) z EmptyString) as (d & rest & Hd & Hhead).
    rewrite Hhead in *.
    assert (Hm : match String (digit_char d) rest with
                 | String "-"%char r => option_map Z.opp (parse_digits r 0 false)
                 | String "+"%char r => parse_digits r 0 false
                 | _ => parse_digits (String (digit_char d) rest) 0 false
                 end = parse_digits (String (digit_char d) rest) 0 false)
      by (each_digit d Hd; reflexivity).
    rewrite Hm, Hp. reflexivity.
Qed.

Lemma py_str_inj (a b : Z) : py_str a = py_str b -> a = b.
Proof.
  intros H. pose proof (py_int_py_str a) as Ha. rewrite H, py_int_py_str in Ha.
  now inversion Ha.
Qed.

Lemma split_comma_nonempty (s : string) : split_comma s <> [].
Proof.
  induction s as [|c s IH]; simpl; [discriminate|].
  destruct (is_comma c); [discriminate|].
  destruct (split_comma s); [contradiction|discriminate].
Qed.

Lemma split_comma_none (s : string) :
  string_forall (fun c => negb (is_comma c)) s = true -> split_comma s = [s].
Proof.
  induction s as [|c s IH]; simpl; [reflexivity|].
  intros H. apply andb_true_iff in H as [Hc Hs].
  destruct (is_comma c); [discriminate|]. now rewrite (IH Hs).
Qed.

Lemma split_comma_app (a b : string) :
  string_forall (fun c => negb (is_comma c)) a = true ->
  split_comma (a ++ String ","%char b)%string = a :: split_comma b.
Proof.
  induction a as [|c a IH]; simpl; [reflexivity|].
  intros H. apply andb_true_iff in H as [Hc Ha].
  destruct (is_comma c); [discriminate|]. now rewrite (IH Ha).
Qed.

Lemma plain_no_comma (s : string) :
  string_forall plain s = true -> string_forall (fun c => negb (is_comma c)) s = true.
Proof.
  apply string_forall_impl. intros c Hc. now rewrite plain_not_comma.
Qed.

(** ** Messages *)

Lemma no_comma_py_str (z : Z) : no_comma (py_str z) = true.
Proof. apply plain_no_comma, py_str_plain. Qed.

Lemma split_comma_assignment (a : Z * Z) :
  split_comma (assignment_text a) = [py_str (fst a); py_str (snd a)].
Proof.
  unfold assignment_text. cbn [join_comma].
  rewrite split_comma_app by apply no_comma_py_str.
  now rewrite split_comma_none by apply no_comma_py_str.
Qed.

Lemma split_comma_result (lower higher count : Z) (worker : string) :
  no_comma worker = true ->
  split_comma (result_text lower higher count worker)
  = [py_str lower; py_str higher; py_str count; worker].
Proof.
  intros Hw. unfold result_text. cbn [join_comma].
  rewrite !split_comma_app by apply no_comma_py_str.
  now rewrite split_comma_none.
Qed.

Lemma assignment_text_inj (a b : Z * Z) :
  assignment_text a = assignment_text b -> a = b.
Proof.
  intros H. pose proof (split_comma_assignment a) as Ha.
  rewrite H, split_comma_assignment in Ha.
  destruct a as [a1 a2], b as [b1 b2]. simpl in Ha.
  inversion Ha as [[H1 H2]].
  apply py_str_inj in H1, H2. congruence.
Qed.

(** The key of a report read back by [record_result] is the text of its
    range. *)
Lemma assignment_key (lower higher : Z) :
  (py_str lower ++ "," ++ py_str higher)%string = assignment_text (lower, higher).
Proof. reflexivity. Qed.

Lemma string_take_all (n : nat) (s : string) :
  (String.length s <= n)%nat -> string_take n s = s.
Proof.
  revert n. induction s as [|c s IH]; intros [|n] H; simpl in *; try reflexivity; try lia.
  f_equal. apply IH. lia.
Qed.

(** ** Manager._get_assignment *)

(** The scan makes one reading of the clock for each entry it looks at
    and finds the first entry, in insertion order, sent more than [wait]
    before the reading made for it. *)
Lemma first_stalled_readings (wait : float) (tp : list ((Z * Z) * float)) (s : MState) :
  exists s',
    first_stalled wait (encode_pending tp) s
    = (Return (option_map (fun er => assignment_text (fst (fst er)))
                 (find (fun er => (snd (fst er) + wait <? snd er)%float)
                       (combine tp (readings (snd s) (List.length tp))))), s')
    /\ fst s' = fst s.
Proof.
  revert s. induction tp as [|[r ts] tp IH]; intros [m w].
  - exists (m, w). split; reflexivity.
  - cbn [encode_pending map first_stalled fst snd List.length].
    unfold readings. cbn [seq map combine find fst snd].
    unfold bind, now, in_env, time_time. cbn [fst snd].
    destruct (ts + wait <? clock w (ticks w))%float.
    + eexists. split; reflexivity.
    + apply (IH (m, set_ticks (S (ticks w)) w)).
Qed.

(** C7, as the code has it: for every progress record, given by the
    ranges of its pending map in insertion order, [_get_assignment]
    reads the clock once for each pending entry it looks at and returns
    the first pending range whose last-sent time plus the response wait
    is before the reading made for it, and the new range
    [(next, next + chunk)] only when no pending range qualifies at its
    reading. *)
Theorem get_assignment_prefers_first_stalled
    (m : Manager) (w : World) (tp : list ((Z * Z) * float)) :
  pending (Manager_problem m) = encode_pending tp ->
  fst (Manager_get_assignment (m, w))
  = Return (match find (fun er => (snd (fst er) + Manager_resp_wait_time m <? snd er)%float)
                       (combine tp (readings w (List.length tp))) with
            | Some er => fst (fst er)
            | None => (next (Manager_problem m),
                       next (Manager_problem m) + Manager_assignment_range m)
            end).
Proof.
  intros Hp. unfold Manager_get_assignment, bind at 1, get.
  unfold problem_of at 1. cbn [fst snd]. rewrite Hp.
  destruct (first_stalled_readings (Manager_resp_wait_time m) tp (m, w))
    as (s' & Hscan & Hm).
  unfold bind at 1. rewrite Hscan. cbn [snd].
  destruct (find _ (combine tp _)) as [[[r ts] t]|]; cbn [option_map fst snd].
  - rewrite split_comma_assignment. destruct r as [lo hi]. cbn [fst snd].
    unfold bind, lift, item, ret. cbn [nth_error fst snd].
    rewrite !py_int_py_str. reflexivity.
  - reflexivity.
Qed.

Lemma get_assignment_prefers_first_stalled_witness :
  fst (Manager_get_assignment
         (manager_with close_pending, world_of_inbox creeping_clock []))
  = Return (1000, 2000).
Proof.
  apply (get_assignment_prefers_first_stalled
           (manager_with close_pending) (world_of_inbox creeping_clock [])
           [((0, 1000), 100%float); ((1000, 2000), 100.05%float)]).
  reflexivity.
Defined.

(** Of two positive floats with the same exponent, what the larger is
    below the smaller is below too. *)
Lemma SFltb_below (m1 m2 : positive) (e : Z) (x : spec_float) :
  (m1 <= m2)%positive ->
  SFltb (S754_finite false m2 e) x = true ->
  SFltb (S754_finite false m1 e) x = true.
Proof.
  intros Hm. unfold SFltb, SFcompare.
  destruct x as [s|s| |s m' e']; try (intros H; exact H).
  destruct s; [intros H; exact H|].
  destruct (Z.compare e e'); [|intros H; exact H|intros H; exact H].
  fold (Pos.compare m2 m'). fold (Pos.compare m1 m').
  destruct (Pos.compare_spec m2 m'); try discriminate.
  intros _. destruct (Pos.compare_spec m1 m'); try reflexivity; lia.
Qed.

(** A time at which the range sent at 100.05 is stalled is one at which
    the range sent at 100.0 is stalled. *)
Lemma stalled_after_earlier (t : float) :
  (100.05 + 1 <? t)%float = true -> (100 + 1 <? t)%float = true.
Proof.
  rewrite !ltb_spec.
  let x := eval vm_compute in (Prim2SF (100.05 + 1)) in
  change (Prim2SF (100.05 + 1)) with x.
  let x := eval vm_compute in (Prim2SF (100 + 1)) in
  change (Prim2SF (100 + 1)) with x.
  apply SFltb_below. lia.
Qed.

(** The claim as worded, with one current time for the whole scan: the
    clock moves on between the two readings of a scan, from 100.9 to
    101.1, and [_get_assignment] returns the second pending range, the
    answer the rule of the claim gives at no current time: a time at
    which the second range is stalled has the first one stalled, and
    the first one goes first. *)
Lemma moving_clock_counterexample :
  fst (Manager_get_assignment
         (manager_with close_pending, world_of_inbox creeping_clock []))
  = Return (1000, 2000) /\
  forall t : float,
    match find (fun e => (snd e + Manager_resp_wait_time (manager_with close_pending) <? t)%float)
               [((0, 1000), 100%float); ((1000, 2000), 100.05%float)] with
    | Some e => fst e
    | None => (next close_pending,
               next close_pending + Manager_assignment_range (manager_with close_pending))
    end <> (1000, 2000).
Proof.
  split; [vm_compute; reflexivity|].
  intros t. cbn [find fst snd].
  change (Manager_resp_wait_time (manager_with close_pending)) with 1%float.
  destruct (100 + 1 <? t)%float eqn:H1; [discriminate|].
  destruct (100.05 + 1 <? t)%float eqn:H2.
  - apply stalled_after_earlier in H2. congruence.
  - vm_compute. discriminate.
Qed.

(** ** Hoare rules for the monad *)

Lemma hoare_bind {S A B : Type} (P : S -> Prop) (m : M S A) (k : A -> M S B)
    (Q1 : result A -> S -> Prop) (Q : result B -> S -> Prop) :
  hoare P m Q1 ->
  (forall a, hoare (Q1 (Return a)) (k a) Q) ->
  (forall e s, Q1 (Raise e) s -> Q (Raise e) s) ->
  hoare P (bind m k) Q.
Proof.
  intros Hm Hk He s Hs. specialize (Hm s Hs). unfold bind.
  destruct (m s) as [[a|e] s']; simpl in Hm.
  - apply Hk, Hm.
  - simpl. apply He, Hm.
Qed.

Lemma hoare_weaken {S A : Type} (P P' : S -> Prop) (m : M S A)
    (Q Q' : result A -> S -> Prop) :
  hoare P' m Q' ->
  (forall s, P s -> P' s) ->
  (forall r s, Q' r s -> Q r s) ->
  hoare P m Q.
Proof. intros Hm HP HQ s Hs. apply HQ, Hm, HP, Hs. Qed.

Lemma hoare_try_except2 {S A : Type} (P : S -> Prop) (m : M S A)
    (c1 c2 : exn -> bool) (h1 h2 : exn -> M S A)
    (Q1 Q : result A -> S -> Prop) :
  hoare P m Q1 ->
  (forall a s, Q1 (Return a) s -> Q (Return a) s) ->
  (forall e, c1 e = true -> hoare (Q1 (Raise e)) (h1 e) Q) ->
  (forall e, c1 e = false -> c2 e = true -> hoare (Q1 (Raise e)) (h2 e) Q) ->
  (forall e s, c1 e = false -> c2 e = false -> Q1 (Raise e) s -> Q (Raise e) s) ->
  hoare P (try_except2 m c1 h1 c2 h2) Q.
Proof.
  intros Hm Hr H1 H2 H3 s Hs. specialize (Hm s Hs). unfold try_except2.
  destruct (m s) as [[a|e] s']; simpl in Hm.
  - simpl. apply Hr, Hm.
  - destruct (c1 e) eqn:E1; [apply (H1 e E1), Hm|].
    destruct (c2 e) eqn:E2; [apply (H2 e E1 E2), Hm|].
    simpl. apply (H3 e s' E1 E2), Hm.
Qed.

(** ** Manager._recv_results *)

Lemma py_int_raises (s : string) (e : exn) : py_int s = Raise e -> e = ValueError.
Proof.
  unfold py_int. destruct (match rstrip (lstrip s) with EmptyString => _ | String _ _ => _ end);
    intros H; inversion H; reflexivity.
Qed.

(** What [record_result] does, case by case. *)
Lemma record_result_eq (msg : string) (s : MState) :
  record_result msg s =
  match split_comma msg with
  | [lower; higher; count; worker] =>
      let pb := problem_of s in
      if dict_contains worker (busy_workers pb) then
        let pb1 := set_busy_workers (dict_del worker (busy_workers pb)) pb in
        let a := (lower ++ "," ++ higher)%string in
        if dict_contains a (pending pb) then
          match py_int count with
          | Return c =>
              (Return tt,
               with_problem (set_pending (dict_del a (pending pb))
                               (set_finished (finished pb + c) pb1)) s)
          | Raise e => (Raise e, with_problem pb1 s)
          end
        else (Return tt, with_problem pb1 s)
      else (Raise AssertionError, s)
  | _ => (Raise ValueError, s)
  end.
Proof.
  unfold record_result.
  destruct (split_comma msg) as [|lower [|higher [|count [|worker [|x l]]]]]; try reflexivity.
  destruct s as [m w]. unfold bind, get_problem, update_problem, problem_of, with_problem,
    lift, ret, raise. cbn [fst snd].
  destruct (dict_contains worker (busy_workers (Manager_problem m))); [|reflexivity].
  cbn [fst snd set_problem set_busy_workers Manager_problem pending busy_workers finished].
  destruct (dict_contains _ (pending (Manager_problem m))); [|reflexivity].
  destruct (py_int count); reflexivity.
Qed.

(** A report of a worker that is not recorded busy fails the assertion
    and changes nothing. *)
Lemma record_result_unknown (msg lower higher count worker : string) (s : MState) :
  split_comma msg = [lower; higher; count; worker] ->
  dict_contains worker (busy_workers (problem_of s)) = false ->
  record_result msg s = (Raise AssertionError, s).
Proof.
  intros Hsplit Hbusy. rewrite record_result_eq, Hsplit. cbv zeta. now rewrite Hbusy.
Qed.

Lemma record_result_frame (msg : string) (s : MState) :
  snd (snd (record_result msg s)) = snd s /\ catchable (fst (record_result msg s)).
Proof.
  rewrite record_result_eq.
  destruct (split_comma msg) as [|lower [|higher [|count [|worker [|x l]]]]];
    try (split; reflexivity).
  cbv zeta. destruct (dict_contains worker _); [|split; reflexivity].
  destruct (dict_contains _ _); [|split; reflexivity].
  destruct (py_int count) as [c|e] eqn:Hc; [split; reflexivity|].
  apply py_int_raises in Hc. subst e. split; reflexivity.
Qed.

(** The loop of the drain never runs out of fuel and, on a socket with a
    timeout, raises only what [except Exception] catches. *)
Lemma recv_loop_catchable (fuel : nat) (msg : string) :
  hoare (fun s => sock_timeout (snd s) <> None /\ (List.length (inbox (snd s)) < fuel)%nat)
        (recv_loop fuel msg)
        (fun r _ => catchable r).
Proof.
  revert msg. induction fuel as [|fuel IH]; intros msg s [Hto Hlen]; [lia|].
  cbn [recv_loop]. destruct (0 <? String.length msg)%nat; [|exact I].
  unfold bind at 1.
  destruct (record_result_frame msg s) as [Hw Hc].
  destruct (record_result msg s) as [[[]|e] s1]; cbn [fst snd] in *; [|exact Hc].
  unfold bind, in_env, sock_recv. rewrite Hw.
  destruct (inbox (snd s)) as [|msg' rest] eqn:Hin.
  - destruct (sock_timeout (snd s)) as [t|]; [|contradiction].
    destruct (PrimFloat.eqb t 0); reflexivity.
  - apply IH. cbn [snd]. unfold set_inbox. cbn [sock_timeout inbox].
    split; [assumption|]. simpl in Hlen. lia.
Qed.

(** The drain is never fatal: on a socket with a timeout (as [do_work]
    sets it) [_recv_results] returns, whatever is queued. *)
Lemma recv_results_returns (m : Manager) (w : World) :
  sock_timeout w <> None -> fst (Manager_recv_results (m, w)) = Return tt.
Proof.
  intros Hto. unfold Manager_recv_results, try_except2. cbn [snd].
  assert (Hbody : catchable (fst ((msg <- in_env (sock_recv 1024) ;;
                    recv_loop (S (List.length (inbox w))) msg)%monad (m, w)))).
  { unfold bind, in_env, sock_recv. cbn [fst snd].
    destruct (inbox w) as [|msg rest] eqn:Hin.
    - destruct (sock_timeout w) as [t|]; [|contradiction].
      destruct (PrimFloat.eqb t 0); reflexivity.
    - apply (recv_loop_catchable (S (List.length (msg :: rest))) (string_take 1024 msg)
               (m, set_inbox rest w)).
      cbn [snd]. unfold set_inbox. cbn [sock_timeout inbox]. split; [assumption|].
      simpl. lia. }
  destruct ((msg <- in_env (sock_recv 1024) ;;
             recv_loop (S (List.length (inbox w))) msg)%monad (m, w)) as [[[]|e] s1];
    [reflexivity|].
  cbn [fst] in Hbody. unfold catchable in Hbody.
  destruct (is_socket_error e).
  - destruct (match errno_of e with Some n => negb (n =? 35) | None => true end); reflexivity.
  - rewrite Hbody. reflexivity.
Qed.

Lemma dict_contains_del_same {V : Type} (k : string) (d : dict V) :
  dict_contains k (dict_del k d) = false.
Proof.
  unfold dict_contains, dict_del. induction d as [|[k' v] d IH]; simpl; [reflexivity|].
  destruct (String.eqb k' k) eqn:E; simpl; [assumption|]. now rewrite E.
Qed.

Lemma dict_contains_del_other {V : Type} (k k' : string) (d : dict V) :
  dict_contains k d = false -> dict_contains k (dict_del k' d) = false.
Proof.
  unfold dict_contains, dict_del. induction d as [|[k0 v] d IH]; simpl; [reflexivity|].
  intros H. apply orb_false_iff in H as [H0 Hd].
  destruct (String.eqb k0 k'); simpl; [auto|]. rewrite H0. auto.
Qed.

Lemma split_comma_four_nonempty (msg a b c d : string) :
  split_comma msg = [a; b; c; d] -> (0 <? String.length msg)%nat = true.
Proof. destruct msg; [discriminate|reflexivity]. Qed.

(** After a round of the loop for a report, and whatever follows in the
    loop, the reporting worker is not recorded busy. *)
Lemma recv_loop_keeps_absent (k : string) (fuel : nat) (msg : string) :
  hoare (fun s => dict_contains k (busy_workers (problem_of s)) = false)
        (recv_loop fuel msg)
        (fun _ s => dict_contains k (busy_workers (problem_of s)) = false).
Proof.
  revert msg. induction fuel as [|fuel IH]; intros msg s Hs;
    cbn [recv_loop]; destruct (0 <? String.length msg)%nat; try exact Hs.
  unfold bind at 1. rewrite record_result_eq.
  assert (Hnext : forall s1, dict_contains k (busy_workers (problem_of s1)) = false ->
            dict_contains k (busy_workers (problem_of (snd
              ((msg' <- in_env (sock_recv 1024) ;; recv_loop fuel msg')%monad s1)))) = false).
  { intros [m1 w1] H1. unfold bind, in_env, sock_recv. cbn [fst snd].
    destruct (inbox w1) as [|msg' rest].
    - destruct (sock_timeout w1) as [t|]; [destruct (PrimFloat.eqb t 0)|]; exact H1.
    - apply IH. exact H1. }
  destruct (split_comma msg) as [|lower [|higher [|count [|worker [|x l]]]]]; try exact Hs.
  cbv zeta. destruct (dict_contains worker _); [|exact Hs].
  assert (Hdel : dict_contains k
            (dict_del worker (busy_workers (problem_of s))) = false)
    by now apply dict_contains_del_other.
  destruct (dict_contains _ (pending _)).
  - destruct (py_int count); [apply Hnext|]; exact Hdel.
  - apply Hnext. exact Hdel.
Qed.

Lemma recv_loop_clears (fuel : nat) (msg lower higher count worker : string) (s : MState) :
  split_comma msg = [lower; higher; count; worker] ->
  dict_contains worker
    (busy_workers (problem_of (snd (recv_loop (S fuel) msg s)))) = false.
Proof.
  intros Hsplit. cbn [recv_loop]. rewrite (split_comma_four_nonempty _ _ _ _ _ Hsplit).
  unfold bind at 1. rewrite record_result_eq, Hsplit. cbv zeta.
  assert (Hnext : forall s1, dict_contains worker (busy_workers (problem_of s1)) = false ->
            dict_contains worker (busy_workers (problem_of (snd
              ((msg' <- in_env (sock_recv 1024) ;; recv_loop fuel msg')%monad s1)))) = false).
  { intros [m1 w1] H1. unfold bind, in_env, sock_recv. cbn [fst snd].
    destruct (inbox w1) as [|msg' rest].
    - destruct (sock_timeout w1) as [t|]; [destruct (PrimFloat.eqb t 0)|]; exact H1.
    - apply recv_loop_keeps_absent. exact H1. }
  destruct (dict_contains worker (busy_workers (problem_of s))) eqn:Hb; [|exact Hb].
  assert (Hdel : dict_contains worker
            (dict_del worker (busy_workers (problem_of s))) = false)
    by apply dict_contains_del_same.
  destruct (dict_contains _ (pending _)).
  - destruct (py_int count); [apply Hnext|]; exact Hdel.
  - apply Hnext. exact Hdel.
Qed.

(** The handlers of the drain print and leave the manager as it is. *)
Lemma recv_results_manager (s : MState) :
  fst (snd (Manager_recv_results s))
  = fst (snd ((msg <- in_env (sock_recv 1024) ;;
               recv_loop (S (List.length (inbox (snd s)))) msg)%monad s)).
Proof.
  unfold Manager_recv_results, try_except2.
  destruct ((msg <- in_env (sock_recv 1024) ;;
             recv_loop (S (List.length (inbox (snd s)))) msg)%monad s) as [[[]|e] s1];
    [reflexivity|].
  destruct (is_socket_error e).
  - destruct (match errno_of e with Some n => negb (n =? 35) | None => true end); reflexivity.
  - destruct (is_Exception e); reflexivity.
Qed.

(** C4, as amended: a report of a worker that is not recorded busy is a
    logged oddity that is never fatal, but it ends the drain there: the
    assertion fails in the round of that report, [_recv_results] prints
    the exception and returns, the progress record is as it was before
    the report (nothing is counted for it), and the datagrams behind it
    stay queued. In every case the drain returns on the socket [do_work]
    set up, and after it the reporting worker is not recorded busy. *)
Theorem unknown_worker_report_ends_drain
    (m : Manager) (w : World) (msg lower higher count worker : string) (rest : list string) :
  inbox w = msg :: rest ->
  (String.length msg <= 1024)%nat ->
  split_comma msg = [lower; higher; count; worker] ->
  (forall fuel s, dict_contains worker (busy_workers (problem_of s)) = false ->
      recv_loop (S fuel) msg s = (Raise AssertionError, s)) /\
  (dict_contains worker (busy_workers (Manager_problem m)) = false ->
      Manager_recv_results (m, w)
      = (Return tt, (m, print (UnexpectedException AssertionError) (set_inbox rest w)))) /\
  dict_contains worker
    (busy_workers (problem_of (snd (Manager_recv_results (m, w))))) = false /\
  (sock_timeout w <> None -> fst (Manager_recv_results (m, w)) = Return tt).
Proof.
  intros Hin Hlen Hsplit.
  assert (Hloop : forall fuel s, dict_contains worker (busy_workers (problem_of s)) = false ->
            recv_loop (S fuel) msg s = (Raise AssertionError, s)).
  { intros fuel s Hb. cbn [recv_loop].
    rewrite (split_comma_four_nonempty _ _ _ _ _ Hsplit).
    unfold bind. now rewrite (record_result_unknown _ _ _ _ _ _ Hsplit Hb). }
  split; [exact Hloop|]. split; [|split].
  - intros Hb. unfold Manager_recv_results, try_except2, bind at 1, in_env, sock_recv.
    cbn [fst snd]. rewrite Hin, (string_take_all _ _ Hlen).
    rewrite Hloop by exact Hb. reflexivity.
  - unfold problem_of. rewrite recv_results_manager.
    unfold bind, in_env, sock_recv. cbn [fst snd]. rewrite Hin, (string_take_all _ _ Hlen).
    apply (recv_loop_clears _ _ _ _ _ _ _ Hsplit).
  - apply recv_results_returns.
Qed.

Lemma unknown_worker_report_ends_drain_witness :
  Manager_recv_results
    (manager_with orphan_pending,
     world_of_inbox still_clock ["0,1000,1000,5002"; "1000,2000,1000,5003"])
  = (Return tt,
     (manager_with orphan_pending,
      print (UnexpectedException AssertionError)
        (set_inbox ["1000,2000,1000,5003"]
           (world_of_inbox still_clock ["0,1000,1000,5002"; "1000,2000,1000,5003"])))).
Proof.
  destruct (unknown_worker_report_ends_drain
              (manager_with orphan_pending)
              (world_of_inbox still_clock ["0,1000,1000,5002"; "1000,2000,1000,5003"])
              "0,1000,1000,5002" "0" "1000" "1000" "5002" ["1000,2000,1000,5003"])
    as (_ & H & _).
  - reflexivity.
  - apply Nat.leb_le. reflexivity.
  - reflexivity.
  - apply H. reflexivity.
Defined.

(** C4 as stated fails: worker 5002 reports range [0,1000), which is
    pending, but is not recorded busy. The claim wants the report
    counted as the spec's drain does and the next report drained too
    ([finished] 2000, nothing pending); the code counts nothing and
    leaves the second datagram in the queue. *)
Lemma unknown_worker_report_counterexample :
  let reports := [(0, 1000, 1000, "5002"); (1000, 2000, 1000, "5003")] in
  let s0 := (manager_with orphan_pending,
             world_of_inbox still_clock (map report_text reports)) in
  let s1 := snd (Manager_recv_results s0) in
  dict_contains "5002" (busy_workers (problem_of s0)) = false /\
  finished (spec_drain reports (problem_of s0)) = 2000 /\
  pending (spec_drain reports (problem_of s0)) = [] /\
  finished (problem_of s1) = 0 /\
  pending (problem_of s1) = pending orphan_pending /\
  inbox (snd s1) = ["1000,2000,1000,5003"] /\
  problem_of s1 <> spec_drain reports (problem_of s0).
Proof.
  cbv zeta. repeat split; try reflexivity.
  intros H. apply (f_equal finished) in H. vm_compute in H. discriminate H.
Qed.

(** Once a range is out of [pending], further reports of it change
    neither [finished] nor [pending], whoever sends them. *)
Lemma recv_loop_duplicates (lo hi c : Z) (ws : list string) :
  forall (fuel : nat) (wk : string) (s : MState),
    inbox (snd s) = map (result_text lo hi c) ws ->
    Forall (fun x => no_comma x = true /\
                     (String.length (result_text lo hi c x) <= 1024)%nat) (wk :: ws) ->
    dict_contains (assignment_text (lo, hi)) (pending (problem_of s)) = false ->
    counts (problem_of (snd (recv_loop fuel (result_text lo hi c wk) s)))
    = counts (problem_of s).
Proof.
  induction ws as [|x ws IH]; intros fuel wk s Hin Hall Hp;
    inversion Hall as [|? ? [Hwk _] Hws]; subst;
    destruct fuel as [|fuel]; cbn [recv_loop];
    destruct (0 <? String.length (result_text lo hi c wk))%nat; try reflexivity;
    unfold bind at 1; rewrite record_result_eq, (split_comma_result _ _ _ _ Hwk);
    cbv zeta; rewrite assignment_key, Hp;
    destruct (dict_contains wk (busy_workers (problem_of s))); try reflexivity;
    destruct s as [m w]; unfold bind, in_env, sock_recv, with_problem;
    cbn [fst snd] in *; rewrite Hin; cbn [map].
  - destruct (sock_timeout w) as [t|]; [destruct (PrimFloat.eqb t 0)|]; reflexivity.
  - inversion Hws as [|? ? [Hx Hlen] Hws']; subst.
    rewrite (string_take_all _ _ Hlen).
    etransitivity; [apply IH; [reflexivity|assumption|exact Hp]|reflexivity].
Qed.

Lemma duplicate_reports_counts
    (m : Manager) (w : World) (lo hi c : Z) (w1 : string) (ws : list string) :
  inbox w = map (result_text lo hi c) (w1 :: ws) ->
  Forall (fun x => no_comma x = true /\
                   (String.length (result_text lo hi c x) <= 1024)%nat) (w1 :: ws) ->
  dict_contains (assignment_text (lo, hi)) (pending (Manager_problem m)) = true ->
  dict_contains w1 (busy_workers (Manager_problem m)) = true ->
  counts (problem_of (snd (Manager_recv_results (m, w))))
  = (finished (Manager_problem m) + c,
     dict_del (assignment_text (lo, hi)) (pending (Manager_problem m))).
Proof.
  intros Hin Hall Hp Hb. unfold problem_of. rewrite recv_results_manager.
  inversion Hall as [|? ? [Hw1 Hlen1] Hws]; subst.
  unfold bind at 1, in_env, sock_recv. cbn [fst snd]. rewrite Hin. cbn [map].
  rewrite (string_take_all _ _ Hlen1). cbn [recv_loop].
  rewrite (split_comma_four_nonempty _ _ _ _ _ (split_comma_result lo hi c w1 Hw1)).
  unfold bind at 1. rewrite record_result_eq, (split_comma_result _ _ _ _ Hw1).
  cbv zeta. rewrite assignment_key. unfold problem_of at 1 2. cbn [fst snd].
  rewrite Hb, Hp, py_int_py_str.
  unfold bind, in_env, sock_recv, with_problem. cbn [fst snd inbox set_inbox].
  destruct ws as [|x ws].
  - cbn [map]. unfold set_inbox. cbn [sock_timeout].
    destruct (sock_timeout w) as [t|]; [destruct (PrimFloat.eqb t 0)|]; reflexivity.
  - cbn [map]. inversion Hws as [|? ? [Hx Hlen] Hws']; subst.
    rewrite (string_take_all _ _ Hlen).
    etransitivity; [apply (recv_loop_duplicates lo hi c ws); [reflexivity|exact Hws|]|reflexivity].
    apply dict_contains_del_same.
Qed.

(** C5, as amended: provided the worker of the first report is recorded
    busy when the report is drained (the drain asserts it), a queue of
    reports of one range that is pending, all with the same count,
    raises [finished] by that count once and takes the range out of
    [pending]; the reports after the first, whoever sends them and
    however many there are, change neither. *)
Theorem duplicate_reports_counted_once
    (m : Manager) (w : World) (lo hi c : Z) (w1 : string) (ws : list string) :
  inbox w = map (result_text lo hi c) (w1 :: ws) ->
  Forall (fun x => no_comma x = true /\
                   (String.length (result_text lo hi c x) <= 1024)%nat) (w1 :: ws) ->
  dict_contains (assignment_text (lo, hi)) (pending (Manager_problem m)) = true ->
  dict_contains w1 (busy_workers (Manager_problem m)) = true ->
  finished (problem_of (snd (Manager_recv_results (m, w))))
    = finished (Manager_problem m) + c /\
  pending (problem_of (snd (Manager_recv_results (m, w))))
    = dict_del (assignment_text (lo, hi)) (pending (Manager_problem m)).
Proof.
  intros Hin Hall Hp Hb.
  pose proof (duplicate_reports_counts m w lo hi c w1 ws Hin Hall Hp Hb) as H.
  unfold counts in H. inversion H as [[Hf Hq]]. split; reflexivity.
Qed.

Lemma duplicate_reports_counted_once_witness :
  finished (problem_of (snd (Manager_recv_results
     (manager_with two_pending,
      world_of_inbox still_clock (map (result_text 0 1000 1000) ["5002"; "5004"; "5002"])))))
  = 0 + 1000.
Proof.
  apply (duplicate_reports_counted_once
           (manager_with two_pending)
           (world_of_inbox still_clock (map (result_text 0 1000 1000) ["5002"; "5004"; "5002"]))
           0 1000 1000 "5002" ["5004"; "5002"]).
  - reflexivity.
  - repeat constructor; apply Nat.leb_le; reflexivity.
  - reflexivity.
  - reflexivity.
Defined.

(** C5 as stated fails: range [0,1000) is pending and two reports of it
    are drained, from workers that are not recorded busy. Each report
    fails the assertion of its drain, so after both drains the queue is
    empty, [finished] has not moved and the range is still pending: the
    reported count was added zero times, not once. *)
Lemma duplicate_reports_counterexample :
  let msgs := map (result_text 0 1000 1000) ["5002"; "5004"] in
  let s0 := (manager_with orphan_pending, world_of_inbox still_clock msgs) in
  let s1 := snd (Manager_recv_results s0) in
  let s2 := snd (Manager_recv_results s1) in
  dict_contains (assignment_text (0, 1000)) (pending (problem_of s0)) = true /\
  inbox (snd s1) = ["0,1000,1000,5004"] /\
  inbox (snd s2) = [] /\
  finished (problem_of s2) <> finished (problem_of s0) + 1000 /\
  finished (problem_of s2) = finished (problem_of s0) /\
  dict_contains (assignment_text (0, 1000)) (pending (problem_of s2)) = true.
Proof.
  cbv zeta. repeat split; try reflexivity.
  vm_compute. discriminate.
Qed.

(** ** One pass over the free workers *)

Lemma dict_set_in {V : Type} (k k' : string) (v v' : V) (d : dict V) :
  In (k', v') (dict_set k v d) ->
  (k' = k /\ v' = v) \/ (k' <> k /\ In (k', v') d).
Proof.
  unfold dict_set. destruct (dict_contains k d) eqn:Hc.
  - intros H. apply in_map_iff in H as ([k0 v0] & Heq & Hin). simpl in Heq.
    destruct (String.eqb k0 k) eqn:E.
    + inversion Heq; subst. left. split; reflexivity.
    + inversion Heq; subst. right. split; [|assumption].
      now apply String.eqb_neq.
  - intros H. apply in_app_or in H as [Hin|[Heq|[]]].
    + right. split; [|assumption]. intros ->.
      unfold dict_contains in Hc.
      assert (Ht : existsb (fun kv => String.eqb (fst kv) k) d = true).
      { apply existsb_exists. exists (k, v'). split; [assumption|]. apply String.eqb_refl. }
      congruence.
    + inversion Heq; subst. left. split; reflexivity.
Qed.


(** The scan in general: it returns a key of an entry that was stalled
    at the reading made for it, or nothing; it only reads the clock. *)
Lemma first_stalled_spec (wait : float) (items : list (string * float)) (s : MState) :
  exists r w',
    first_stalled wait items s = (Return r, (fst s, w')) /\
    outbox w' = outbox (snd s) /\ clock w' = clock (snd s) /\
    (ticks (snd s) <= ticks w')%nat /\
    match r with
    | Some k => exists ts j, In (k, ts) items /\
                  (ticks (snd s) <= j < ticks w')%nat /\
                  (ts + wait <? clock (snd s) j)%float = true
    | None => True
    end.
Proof.
  revert s. induction items as [|[k ts] items IH]; intros [m w].
  - exists None, w. repeat split; reflexivity || lia.
  - cbn [first_stalled]. unfold bind at 1, now, in_env, time_time. cbn [fst snd].
    destruct (ts + wait <? clock w (ticks w))%float eqn:Hst.
    + exists (Some k), (set_ticks (S (ticks w)) w). unfold ret. cbn.
      repeat split; try lia. exists ts, (ticks w). repeat split; try lia; [now left|assumption].
    + destruct (IH (m, set_ticks (S (ticks w)) w)) as (r & w' & Heq & Ho & Hc & Ht & Hr).
      cbn [fst snd] in *. exists r, w'. rewrite Heq. cbn in Ho, Hc, Ht.
      repeat split; try assumption; try lia.
      destruct r as [k'|]; [|exact I].
      destruct Hr as (ts' & j & Hin & Hj & Hs). cbn in Hj, Hs.
      exists ts', j. repeat split; try lia; [now right|assumption].
Qed.

(** [_get_assignment] on a record with canonical keys: it returns, and
    what it returns is a pending range stalled at one of its readings,
    or the new range. *)
Lemma get_assignment_cases (s : MState) :
  canonical (pending (problem_of s)) ->
  exists a w',
    Manager_get_assignment s = (Return a, (fst s, w')) /\
    outbox w' = outbox (snd s) /\ clock w' = clock (snd s) /\
    (ticks (snd s) <= ticks w')%nat /\
    ((exists ts j, In (assignment_text a, ts) (pending (problem_of s)) /\
                   (ticks (snd s) <= j < ticks w')%nat /\
                   (ts + Manager_resp_wait_time (fst s) <? clock (snd s) j)%float = true)
     \/ a = (next (problem_of s),
             next (problem_of s) + Manager_assignment_range (fst s))).
Proof.
  intros Hcan. unfold Manager_get_assignment, bind at 1, get.
  destruct (first_stalled_spec (Manager_resp_wait_time (fst s)) (pending (problem_of s)) s)
    as (r & w' & Heq & Ho & Hc & Ht & Hr).
  unfold bind at 1. rewrite Heq.
  destruct r as [k|].
  - destruct Hr as (ts & j & Hin & Hj & Hs).
    destruct (Hcan k ts Hin) as [[lo hi] ->].
    exists (lo, hi), w'. rewrite split_comma_assignment.
    unfold bind, lift, item, ret. cbn [nth_error fst snd].
    rewrite !py_int_py_str.
    repeat split; try assumption. left. exists ts, j. repeat split; try assumption; lia.
  - eexists _, w'. unfold ret. repeat split; try assumption. right. reflexivity.
Qed.

(** What [_send_assignment] does, case by case. *)
Lemma send_assignment_eq (a : Z * Z) (worker : string) (m : Manager) (w : World) :
  Manager_send_assignment a worker (m, w) =
  match py_int worker with
  | Raise e => (Raise e, (m, w))
  | Return port =>
      if (port <? 0) || (65535 <? port) then (Raise OverflowError, (m, w))
      else
        let w1 := set_outbox (outbox w ++ [(assignment_text a, port)]) w in
        let finish pb :=
          (Return tt,
           (set_problem
              (set_busy_workers (dict_set worker (assignment_text a) (busy_workers pb))
                 (set_pending (dict_set (assignment_text a) (clock w (ticks w)) (pending pb))
                              pb)) m,
            set_ticks (S (ticks w)) w1)) in
        if snd a >? next (Manager_problem m) then
          if fst a =? next (Manager_problem m)
          then finish (set_next (snd a) (Manager_problem m))
          else (Raise AssertionError, (m, w1))
        else finish (Manager_problem m)
  end.
Proof.
  unfold Manager_send_assignment, bind at 1, lift. cbn [fst snd].
  destruct (py_int worker) as [port|e]; [|reflexivity].
  unfold bind at 1, in_env, sock_sendto. cbn [fst snd].
  destruct ((port <? 0) || (65535 <? port)); [reflexivity|].
  unfold bind at 1, get_problem, problem_of. cbn [fst snd]. cbv zeta.
  destruct (snd a >? next (Manager_problem m)).
  - destruct (fst a =? next (Manager_problem m)); reflexivity.
  - reflexivity.
Qed.










(** ** What the drain leaves alone *)

(** The drain touches the world only by taking datagrams off the queue
    and by printing. *)
Lemma recv_loop_world_inv (P : World -> Prop) :
  (forall w msgs, P w -> P (set_inbox msgs w)) ->
  forall (fuel : nat) (msg : string),
    hoare (fun s => P (snd s)) (recv_loop fuel msg) (fun _ s => P (snd s)).
Proof.
  intros Hin. induction fuel as [|fuel IH]; intros msg s Hs;
    cbn [recv_loop]; destruct (0 <? String.length msg)%nat; try exact Hs.
  unfold bind at 1. destruct (record_result_frame msg s) as [Hw _].
  destruct (record_result msg s) as [[[]|e] [m1 w1]]; cbn [fst snd] in *; subst w1;
    [|exact Hs].
  unfold bind, in_env, sock_recv. cbn [fst snd].
  destruct (inbox (snd s)) as [|msg' rest].
  - destruct (sock_timeout (snd s)) as [t|]; [destruct (PrimFloat.eqb t 0)|]; exact Hs.
  - apply IH. cbn [snd]. apply Hin, Hs.
Qed.

Lemma recv_results_world_inv (P : World -> Prop) :
  (forall w msgs, P w -> P (set_inbox msgs w)) ->
  (forall w ev, P w -> P (print ev w)) ->
  forall s, P (snd s) -> P (snd (snd (Manager_recv_results s))).
Proof.
  intros Hin Hpr [m w] Hs. unfold Manager_recv_results, try_except2. cbn [snd] in *.
  assert (Hbody : P (snd (snd ((msg <- in_env (sock_recv 1024) ;;
                    recv_loop (S (List.length (inbox w))) msg)%monad (m, w))))).
  { unfold bind, in_env, sock_recv. cbn [fst snd].
    destruct (inbox w) as [|msg rest].
    - destruct (sock_timeout w) as [t|]; [destruct (PrimFloat.eqb t 0)|]; exact Hs.
    - apply (recv_loop_world_inv P Hin). cbn [snd]. apply Hin, Hs. }
  destruct ((msg <- in_env (sock_recv 1024) ;;
             recv_loop (S (List.length (inbox w))) msg)%monad (m, w)) as [[[]|e] [m1 w1]];
    cbn [fst snd] in *; [exact Hbody|].
  destruct (is_socket_error e).
  - destruct (match errno_of e with Some n => negb (n =? 35) | None => true end);
      [apply Hpr|]; exact Hbody.
  - destruct (is_Exception e); [apply Hpr|]; exact Hbody.
Qed.

Lemma recv_results_script (s : MState) :
  script (snd (snd (Manager_recv_results s))) = script (snd s).
Proof.
  apply (recv_results_world_inv (fun w => script w = script (snd s))); auto.
Qed.

(** ** Role.active_players and its callers *)

(** A role read answered by a status other than 200 raises
    [RegistryError], and [active_players] returns [None]. *)
Lemma active_players_read_fails
    (who : issuer) (self : Role) (w : World) (status : Z) (body : Payload)
    (rest : list Response) :
  script w = HttpResponse status body :: rest -> status <> 200 ->
  fst (active_players who self w) = Return None.
Proof.
  intros Hs Hne. unfold active_players, RegistryClient_read_role, http. rewrite Hs.
  apply Z.eqb_neq in Hne. rewrite Hne. reflexivity.
Qed.

(** The test of the work loops only reads the clock. *)
Lemma keep_working_frame (role : Role) (t_end : float) (w : World) :
  exists n, snd (keep_working role t_end w) = set_ticks n w.
Proof.
  unfold keep_working, is_holding, time_time.
  destruct (0.5 <=? t_end - clock w (ticks w))%float.
  - cbn [clock ticks set_ticks].
    destruct (int_of_float _); eexists; reflexivity.
  - eexists; reflexivity.
Qed.

Lemma keep_working_clock (role : Role) (t_end : float) (w w' : World) :
  clock w' = clock w -> ticks w' = ticks w ->
  fst (keep_working role t_end w') = fst (keep_working role t_end w).
Proof.
  intros Hc Ht. unfold keep_working, is_holding, time_time. rewrite Hc, Ht.
  destruct (0.5 <=? t_end - clock w (ticks w))%float; [|reflexivity].
  cbn [clock ticks set_ticks]. rewrite ?Hc, ?Ht.
  destruct (int_of_float _); reflexivity.
Qed.

(** [load] takes one response off the script and reads no clock. *)
Lemma load_frame (fos : string -> option float) (pb : ProblemState) (w : World) :
  script (snd (snd (ProblemState_load fos pb w))) = tl (script w) /\
  clock (snd (snd (ProblemState_load fos pb w))) = clock w /\
  ticks (snd (snd (ProblemState_load fos pb w))) = ticks w.
Proof.
  unfold ProblemState_load, RegistryClient_read_data, http.
  destruct (script w) as [|[status body|] rest]; cbn [fst snd].
  - repeat split.
  - destruct (status =? 200); [|repeat split].
    destruct body; cbn [content_type content];
      try (destruct (String.eqb _ "application/json"); [|repeat split]);
      try (destruct (json_loads fos _); [|repeat split]);
      try (destruct (load_fields _ pb)); repeat split.
  - repeat split.
Qed.

Lemma assignment_text_nonempty (a : Z * Z) :
  (0 <? String.length (assignment_text a))%nat = true.
Proof.
  pose proof (split_comma_assignment a) as H.
  destruct (assignment_text a); [discriminate H|reflexivity].
Qed.

(** One iteration of the manager when the read of the worker role fails. *)
Lemma manager_iteration_TypeError
    (fr : float -> string) (fos : string -> option float) (s : MState) (assigned : Z)
    (status : Z) (body : Payload) (rest : list Response) :
  sock_timeout (snd s) <> None ->
  script (snd s) = HttpResponse status body :: rest -> status <> 200 ->
  fst (manager_iteration fr fos assigned s) = Raise TypeError.
Proof.
  intros Hto Hs Hne. unfold manager_iteration. unfold bind at 1.
  assert (Hret : fst (Manager_recv_results s) = Return tt)
    by (destruct s; now apply recv_results_returns).
  pose proof (recv_results_script s) as Hscript.
  destruct (Manager_recv_results s) as [rd [m4 w4]]. cbn [fst snd] in *. subst rd.
  unfold bind at 1, get. unfold bind at 1, in_env at 1. cbn [fst snd].
  assert (Hnone : fst (active_players Caller (Manager_workers m4) w4) = Return None).
  { apply (active_players_read_fails _ _ _ status body rest); [|assumption].
    rewrite Hscript. exact Hs. }
  destruct (active_players Caller (Manager_workers m4) w4) as [rp w5].
  cbn [fst] in Hnone. subst rp. reflexivity.
Qed.

(** [Manager.do_work] when the read of the worker role fails. *)
Lemma manager_do_work_TypeError
    (fr : float -> string) (fos : string -> option float)
    (m : Manager) (w : World) (fuel : nat) (t_end : float)
    (r0 : Response) (status : Z) (body : Payload) (rest : list Response) :
  script w = r0 :: HttpResponse status body :: rest -> status <> 200 ->
  fst (ProblemState_load fos (Manager_problem m) w) = Return tt ->
  fst (keep_working (Manager_role m) t_end w) = Return true ->
  fst (Manager_do_work fr fos (S fuel) t_end (m, w)) = Raise TypeError.
Proof.
  intros Hs Hne Hload Hgo. unfold Manager_do_work, bind at 1.
  unfold problem_of. cbn [fst snd].
  destruct (load_frame fos (Manager_problem m) w) as (Hsc & Hck & Htk).
  destruct (ProblemState_load fos (Manager_problem m) w) as [r [pb w1]].
  cbn [fst snd] in *. subst r. rewrite Hs in Hsc. cbn [tl] in Hsc.
  unfold bind at 1, in_env at 1. cbn [fst snd].
  cbn [manager_loop]. unfold bind at 1, get. unfold bind at 1, in_env at 1.
  cbn [fst snd set_problem Manager_role].
  assert (Hgo2 : fst (keep_working (Manager_role m) t_end (sock_setblocking false w1))
                 = Return true).
  { rewrite <- Hgo. apply keep_working_clock; assumption. }
  destruct (keep_working_frame (Manager_role m) t_end (sock_setblocking false w1)) as [n Hw3].
  destruct (keep_working (Manager_role m) t_end (sock_setblocking false w1)) as [go w3].
  cbn [fst snd] in *. subst go w3.
  unfold bind at 1.
  pose proof (manager_iteration_TypeError fr fos
                (set_problem pb m, set_ticks n (sock_setblocking false w1)) 0
                status body rest) as Hit.
  destruct (manager_iteration fr fos 0 _) as [ri si]. cbn [fst] in Hit.
  rewrite Hit; [reflexivity|discriminate|exact Hsc|exact Hne].
Qed.

(** [Worker.do_work] when the read of the manager role fails after an
    assignment was received. *)
Lemma worker_do_work_TypeError
    (self : Worker) (w : World) (fuel : nat) (t_end : float)
    (lo hi : Z) (more : list string) (status : Z) (body : Payload) (rest : list Response) :
  inbox w = assignment_text (lo, hi) :: more ->
  (String.length (assignment_text (lo, hi)) <= 1024)%nat ->
  script w = HttpResponse status body :: rest -> status <> 200 ->
  fst (keep_working (Worker_role self) t_end w) = Return true ->
  fst (Worker_do_work (S fuel) self t_end w) = Raise TypeError.
Proof.
  intros Hin Hlen Hs Hne Hgo. unfold Worker_do_work. cbn [worker_loop].
  unfold bind at 1.
  destruct (keep_working_frame (Worker_role self) t_end w) as [n Hw1].
  destruct (keep_working (Worker_role self) t_end w) as [go w1].
  cbn [fst snd] in *. subst go w1.
  unfold bind at 1, modify. unfold bind at 1, try_except, worker_attempt.
  unfold bind at 1, sock_recv, sock_settimeout. cbn [inbox set_sock_timeout set_ticks].
  rewrite Hin, (string_take_all _ _ Hlen), assignment_text_nonempty.
  rewrite split_comma_assignment. cbn [fst snd].
  unfold bind at 1, lift at 1, item at 1. cbn [nth_error].
  unfold bind at 1, lift at 1. rewrite py_int_py_str.
  unfold bind at 1, lift at 1, item at 1. cbn [nth_error].
  unfold bind at 1, lift at 1. rewrite py_int_py_str.
  unfold bind at 1.
  match goal with
  | |- context [active_players Caller ?r ?w2] =>
      assert (Hnone : fst (active_players Caller r w2) = Return None)
        by (apply (active_players_read_fails _ _ _ status body rest); [exact Hs|assumption]);
      destruct (active_players Caller r w2) as [rp w5]
  end.
  cbn [fst] in Hnone. subst rp. reflexivity.
Qed.

(** C10: when the read of a role is answered by a status other than
    200, [active_players] returns [None]; [Manager.do_work], whose loop
    is entered, then raises [TypeError] at the subtraction of the busy
    workers, and [Worker.do_work], which has received an assignment,
    raises [TypeError] at the length of the holders: neither catches it. *)
Theorem active_players_failure_is_uncaught (status : Z) (body : Payload) :
  status <> 200 ->
  (forall who self w rest,
      script w = HttpResponse status body :: rest ->
      fst (active_players who self w) = Return None) /\
  (forall fr fos m w fuel t_end r0 rest,
      script w = r0 :: HttpResponse status body :: rest ->
      fst (ProblemState_load fos (Manager_problem m) w) = Return tt ->
      fst (keep_working (Manager_role m) t_end w) = Return true ->
      fst (Manager_do_work fr fos (S fuel) t_end (m, w)) = Raise TypeError) /\
  (forall self w fuel t_end lo hi more rest,
      inbox w = assignment_text (lo, hi) :: more ->
      (String.length (assignment_text (lo, hi)) <= 1024)%nat ->
      script w = HttpResponse status body :: rest ->
      fst (keep_working (Worker_role self) t_end w) = Return true ->
      fst (Worker_do_work (S fuel) self t_end w) = Raise TypeError).
Proof.
  intros Hne. split; [|split].
  - intros who self w rest Hs. now apply (active_players_read_fails _ _ _ status body rest).
  - intros fr fos m w fuel t_end r0 rest Hs Hl Hg.
    now apply (manager_do_work_TypeError fr fos m w fuel t_end r0 status body rest).
  - intros self w fuel t_end lo hi more rest Hin Hlen Hs Hg.
    now apply (worker_do_work_TypeError self w fuel t_end lo hi more status body rest).
Qed.

Lemma active_players_failure_is_uncaught_witness :
  fst (Manager_do_work no_float_repr no_float_of_string 1 1010%float
         (manager_5001, world_at_1000 [HttpResponse 404 NoJson; unavailable] []))
    = Raise TypeError /\
  fst (Worker_do_work 1 worker_5002 1010%float
         (world_at_1000 [unavailable] ["0,1000"]))
    = Raise TypeError.
Proof.
  destruct (active_players_failure_is_uncaught 503 NoJson) as (_ & Hm & Hw); [discriminate|].
  split.
  - apply (Hm no_float_repr no_float_of_string manager_5001
              (world_at_1000 [HttpResponse 404 NoJson; unavailable] []) O 1010%float
              (HttpResponse 404 NoJson) []); reflexivity.
  - apply (Hw worker_5002 (world_at_1000 [unavailable] ["0,1000"]) O 1010%float
              0 1000 [] []); try reflexivity.
    apply Nat.leb_le. reflexivity.
Defined.

(** ** json: strings *)

Lemma string_app_assoc (a b c : string) : ((a ++ b) ++ c = a ++ (b ++ c))%string.
Proof. induction a as [|x a IH]; simpl; [reflexivity|now rewrite IH]. Qed.

Lemma string_length_app (a b : string) :
  String.length (a ++ b) = (String.length a + String.length b)%nat.
Proof. induction a as [|x a IH]; simpl; [reflexivity|now rewrite IH]. Qed.

(** An escaped character is read back as the character. *)
Lemma scanstring_escape_char (c : ascii) (tail : string) :
  scanstring (escape_char c ++ tail) = cons_char c (scanstring tail).
Proof.
  destruct c as [[] [] [] [] [] [] [] []]; reflexivity.
Qed.

(** [json.loads(json.dumps(s)) = s] for a string, up to its closing quote. *)
Lemma scanstring_escape (s rest : string) :
  scanstring (escape s ++ String dquote rest) = Some (s, rest).
Proof.
  induction s as [|c s IH]; [reflexivity|].
  cbn [escape]. rewrite string_app_assoc, scanstring_escape_char, IH. reflexivity.
Qed.

(** ** json: numbers *)

Lemma delimited_head (rest : string) :
  delimited rest ->
  exists c r, rest = String c r /\ is_digit c = false /\ is_ws c = false /\
              (c = ","%char \/ c = "}"%char).
Proof.
  intros [r [->| ->]]; eexists _, r; repeat split; auto.
Qed.

Lemma span_digits_delimited (ds rest : string) :
  string_forall is_digit ds = true -> delimited rest ->
  span is_digit (ds ++ rest) = (ds, rest).
Proof.
  intros Hds Hr. induction ds as [|c ds IH]; cbn [append span].
  - destruct (delimited_head rest Hr) as (c & r & -> & Hc & _).
    cbn [span]. now rewrite Hc.
  - cbn [string_forall] in Hds. apply andb_true_iff in Hds as [Hc Hds].
    rewrite Hc, (IH Hds). reflexivity.
Qed.

Lemma skip_ws_delimited (rest : string) : delimited rest -> skip_ws rest = rest.
Proof.
  intros Hr. destruct (delimited_head rest Hr) as (c & r & -> & _ & Hc & _).
  cbn [skip_ws]. now rewrite Hc.
Qed.

Lemma scan_fraction_delimited (rest : string) :
  delimited rest -> scan_fraction rest = (EmptyString, rest).
Proof. intros [r [->| ->]]; reflexivity. Qed.

Lemma scan_exponent_delimited (rest : string) :
  delimited rest -> scan_exponent rest = (EmptyString, rest).
Proof. intros [r [->| ->]]; reflexivity. Qed.

(** The digits of a number start with a zero only when the number is 0,
    and then the zero is all there is. *)
Lemma digits_of_head_nz (fuel : nat) (n : Z) (acc : string) :
  0 <= n < 2 ^ Z.of_nat (S fuel) ->
  exists d rest,
    digits_of (S fuel) n acc = String (digit_char d) rest /\ 0 <= d < 10 /\
    (d = 0 -> n = 0 /\ rest = acc).
Proof.
  revert n acc. induction fuel as [|fuel IH]; intros n acc Hn.
  - assert (Hq : n / 10 = 0) by (apply Z.div_small; simpl in Hn; lia).
    cbn [digits_of]. rewrite Hq. cbn [Z.eqb].
    exists (n mod 10), acc. split; [reflexivity|]. split; [apply Z.mod_pos_bound; lia|].
    intros Hd. pose proof (Z.div_mod n 10). split; [lia|reflexivity].
  - change (digits_of (S (S fuel)) n acc)
      with (let acc' := String (digit_char (n mod 10)) acc in
            if n / 10 =? 0 then acc' else digits_of (S fuel) (n / 10) acc').
    cbv zeta. destruct (n / 10 =? 0) eqn:Hq.
    + apply Z.eqb_eq in Hq.
      exists (n mod 10), acc. split; [reflexivity|]. split; [apply Z.mod_pos_bound; lia|].
      intros Hd. pose proof (Z.div_mod n 10). split; [lia|reflexivity].
    + apply Z.eqb_neq in Hq.
      assert (Hb : 0 <= n / 10 < 2 ^ Z.of_nat (S fuel)).
      { split; [apply Z.div_pos; lia|].
        apply Z.div_lt_upper_bound; [lia|].
        rewrite Nat2Z.inj_succ, Z.pow_succ_r in Hn by lia.
        assert (0 < 2 ^ Z.of_nat (S fuel)) by (apply Z.pow_pos_nonneg; lia).
        lia. }
      destruct (IH (n / 10) (String (digit_char (n mod 10)) acc) Hb)
        as (d & rest & Heq & Hd & Hz).
      exists d, rest. split; [assumption|]. split; [assumption|].
      intros Hd0. destruct (Hz Hd0) as [Hzero _]. contradiction.
Qed.

Lemma py_str_neg (z : Z) : z < 0 -> py_str z = String "-"%char (py_str (- z)).
Proof.
  intros Hz. unfold py_str.
  assert (H1 : (z <? 0) = true) by (apply Z.ltb_lt; lia).
  assert (H2 : (- z <? 0) = false) by (apply Z.ltb_ge; lia).
  now rewrite H1, H2.
Qed.

(** The text of a number that is not negative: digits, of which the
    first is zero only when it is the only one. *)
Lemma py_str_nonneg_shape (z : Z) :
  0 <= z ->
  exists d more,
    py_str z = String (digit_char d) more /\ 0 <= d < 10 /\
    string_forall is_digit more = true /\ (d = 0 -> more = EmptyString).
Proof.
  intros Hz. unfold py_str.
  assert (H1 : (z <? 0) = false) by (apply Z.ltb_ge; lia). rewrite H1.
  destruct (digits_of_head_nz (Z.to_nat (Z.log2 z)) z EmptyString (log2_fuel z Hz))
    as (d & more & Heq & Hd & Hzero).
  exists d, more. split; [assumption|]. split; [assumption|]. split.
  - pose proof (digits_of_all_digits (S (Z.to_nat (Z.log2 z))) z EmptyString eq_refl) as Hall.
    rewrite Heq in Hall. cbn [string_forall] in Hall.
    now apply andb_true_iff in Hall as [_ Hall].
  - intros Hd0. now destruct (Hzero Hd0).
Qed.

Lemma split_sign_digit (d : Z) (tail : string) :
  0 <= d < 10 ->
  split_sign (String (digit_char d) tail) = (EmptyString, String (digit_char d) tail).
Proof. intros H. each_digit d H; reflexivity. Qed.

Lemma split_sign_minus (tail : string) :
  split_sign (String "-"%char tail) = ("-"%string, tail).
Proof. reflexivity. Qed.

Lemma digit_char_zero (d : Z) :
  0 <= d < 10 -> Ascii.eqb (digit_char d) "0"%char = (d =? 0).
Proof. intros H. each_digit d H; reflexivity. Qed.

(** The scanner reads the digits of a number that is not negative, with
    or without a minus in front of them. *)
Lemma scan_unsigned_digits
    (fos : string -> option float) (z : Z) (sign rest : string) :
  0 <= z -> delimited rest ->
  scan_unsigned fos sign (py_str z ++ rest)
  = match py_int (sign ++ py_str z) with
    | Return v => Some (JInt v, rest)
    | Raise _ => None
    end.
Proof.
  intros Hz Hr. unfold scan_unsigned.
  destruct (py_str_nonneg_shape z Hz) as (d & more & Heq & Hd & Hall & Hzero).
  rewrite span_digits_delimited; [|rewrite Heq; cbn [string_forall];
    rewrite is_digit_digit_char by assumption; exact Hall|assumption].
  rewrite Heq. rewrite digit_char_zero by assumption.
  assert (Hlead : (d =? 0) && negb (String.eqb more EmptyString) = false).
  { destruct (d =? 0) eqn:E; [|reflexivity]. apply Z.eqb_eq in E.
    rewrite (Hzero E). reflexivity. }
  rewrite Hlead, (scan_fraction_delimited _ Hr), (scan_exponent_delimited _ Hr).
  reflexivity.
Qed.

(** [json.loads] reads an integer written by [json.dumps], up to the
    delimiter behind it. *)
Lemma scan_number_int (fos : string -> option float) (z : Z) (rest : string) :
  delimited rest -> scan_number fos (py_str z ++ rest) = Some (JInt z, rest).
Proof.
  intros Hr. unfold scan_number. destruct (Z.lt_ge_cases z 0) as [Hneg|Hpos].
  - rewrite (py_str_neg z Hneg). cbn [append].
    rewrite split_sign_minus. cbn [fst snd].
    rewrite (scan_unsigned_digits fos (- z) "-" rest) by (lia || assumption).
    change ("-" ++ py_str (- z))%string with (String "-"%char (py_str (- z))).
    rewrite <- (py_str_neg z Hneg), py_int_py_str. reflexivity.
  - destruct (py_str_nonneg_shape z Hpos) as (d & more & Heq & Hd & _).
    assert (Hsign : split_sign (py_str z ++ rest) = (EmptyString, (py_str z ++ rest)%string)).
    { rewrite Heq. cbn [append]. now apply split_sign_digit. }
    rewrite Hsign. cbn [fst snd].
    rewrite (scan_unsigned_digits fos z EmptyString rest) by assumption.
    cbn [append]. rewrite py_int_py_str. reflexivity.
Qed.

(** ** json: values *)

Lemma plain_head (c : ascii) :
  plain c = true ->
  Ascii.eqb c dquote = false /\ Ascii.eqb c "{"%char = false /\
  Ascii.eqb c "["%char = false /\ Ascii.eqb "n"%char c = false /\
  Ascii.eqb "t"%char c = false /\ Ascii.eqb "f"%char c = false /\
  is_ws c = false.
Proof.
  destruct c as [[] [] [] [] [] [] [] []]; intros H;
    try (vm_compute in H; discriminate H); repeat split; reflexivity.
Qed.

Lemma py_str_head (z : Z) :
  exists c tail, py_str z = String c tail /\ plain c = true.
Proof.
  pose proof (py_str_plain z) as Hp.
  destruct (py_str z) as [|c tail] eqn:E.
  - pose proof (py_int_py_str z) as H. rewrite E in H. discriminate H.
  - exists c, tail. split; [reflexivity|].
    cbn [string_forall] in Hp. now apply andb_true_iff in Hp as [Hc _].
Qed.

(** A text that starts like a number is scanned as a number. *)
Lemma scan_value_plain
    (fos : string -> option float) (n : nat) (c : ascii) (tail : string)
    (vr : json * string) :
  plain c = true ->
  scan_number fos (String c tail) = Some vr ->
  scan fos (S n) Value (String c tail) = Some vr.
Proof.
  intros Hp Hn. destruct (plain_head c Hp) as (H1 & H2 & H3 & H4 & H5 & H6 & _).
  cbn [scan starts_with]. rewrite H1, H2, H3, H4, H5, H6, Hn. reflexivity.
Qed.

(** ** json: numbers with a fraction or an exponent *)

Lemma string_app_nil_r (s : string) : (s ++ EmptyString)%string = s.
Proof. induction s as [|c s IH]; simpl; [reflexivity|now rewrite IH]. Qed.


Lemma split_sign_cat (s : string) :
  (fst (split_sign s) ++ snd (split_sign s))%string = s.
Proof.
  destruct s as [|c r]; [reflexivity|].
  unfold split_sign. destruct (Ascii.eqb c "-") eqn:E; [|reflexivity].
  apply Ascii.eqb_eq in E. now subst c.
Qed.

Lemma span_cat (f : ascii -> bool) (s : string) :
  (fst (span f s) ++ snd (span f s))%string = s.
Proof.
  induction s as [|c r IH]; [reflexivity|].
  cbn [span]. destruct (f c); [|reflexivity].
  destruct (span f r) as [a b]. cbn [fst snd append] in *. now rewrite IH.
Qed.

Lemma scan_fraction_cat (s : string) :
  (fst (scan_fraction s) ++ snd (scan_fraction s))%string = s.
Proof.
  destruct s as [|c r]; [reflexivity|].
  unfold scan_fraction. destruct (Ascii.eqb c ".") eqn:E; [|reflexivity].
  apply Ascii.eqb_eq in E. subst c.
  destruct (String.eqb (fst (span is_digit r)) EmptyString); [reflexivity|].
  cbn [fst snd append]. now rewrite span_cat.
Qed.

Lemma exponent_sign_cat (s : string) :
  (fst (exponent_sign s) ++ snd (exponent_sign s))%string = s.
Proof.
  destruct s as [|c r]; [reflexivity|].
  unfold exponent_sign. destruct (Ascii.eqb c "+") eqn:E.
  - apply Ascii.eqb_eq in E. now subst c.
  - destruct (Ascii.eqb c "-") eqn:E'; [|reflexivity].
    apply Ascii.eqb_eq in E'. now subst c.
Qed.

Lemma scan_exponent_cat (s : string) :
  (fst (scan_exponent s) ++ snd (scan_exponent s))%string = s.
Proof.
  destruct s as [|e r]; [reflexivity|].
  unfold scan_exponent.
  destruct (Ascii.eqb e "e" || Ascii.eqb e "E"); [|reflexivity].
  cbv zeta.
  destruct (String.eqb (fst (span is_digit (snd (exponent_sign r)))) EmptyString);
    [reflexivity|].
  cbn [fst snd append]. rewrite string_app_assoc, span_cat, exponent_sign_cat.
  reflexivity.
Qed.

(** A delimiter behind a text changes nothing in what each part of the
    number pattern takes from the text. *)
Lemma split_sign_app (s rest : string) :
  delimited rest ->
  split_sign (s ++ rest) = (fst (split_sign s), (snd (split_sign s) ++ rest)%string).
Proof.
  intros Hr. destruct s as [|c r].
  - destruct Hr as [r [->| ->]]; reflexivity.
  - cbn [append]. unfold split_sign. now destruct (Ascii.eqb c "-").
Qed.

Lemma span_digits_app (s rest : string) :
  delimited rest ->
  span is_digit (s ++ rest)
  = (fst (span is_digit s), (snd (span is_digit s) ++ rest)%string).
Proof.
  intros Hr. induction s as [|c r IH].
  - destruct Hr as [r [->| ->]]; reflexivity.
  - cbn [append span]. destruct (is_digit c); [|reflexivity].
    rewrite IH. now destruct (span is_digit r).
Qed.

Lemma scan_fraction_app (s rest : string) :
  delimited rest ->
  scan_fraction (s ++ rest)
  = (fst (scan_fraction s), (snd (scan_fraction s) ++ rest)%string).
Proof.
  intros Hr. destruct s as [|c r].
  - destruct Hr as [r [->| ->]]; reflexivity.
  - cbn [append]. unfold scan_fraction.
    destruct (Ascii.eqb c "."); [|reflexivity].
    rewrite (span_digits_app r rest Hr). cbn [fst snd].
    now destruct (String.eqb (fst (span is_digit r)) EmptyString).
Qed.

Lemma exponent_sign_app (s rest : string) :
  delimited rest ->
  exponent_sign (s ++ rest)
  = (fst (exponent_sign s), (snd (exponent_sign s) ++ rest)%string).
Proof.
  intros Hr. destruct s as [|c r].
  - destruct Hr as [r [->| ->]]; reflexivity.
  - cbn [append]. unfold exponent_sign.
    destruct (Ascii.eqb c "+"); [reflexivity|].
    now destruct (Ascii.eqb c "-").
Qed.

Lemma scan_exponent_app (s rest : string) :
  delimited rest ->
  scan_exponent (s ++ rest)
  = (fst (scan_exponent s), (snd (scan_exponent s) ++ rest)%string).
Proof.
  intros Hr. destruct s as [|e r].
  - destruct Hr as [r [->| ->]]; reflexivity.
  - cbn [append]. unfold scan_exponent.
    destruct (Ascii.eqb e "e" || Ascii.eqb e "E"); [|reflexivity].
    cbv zeta. rewrite (exponent_sign_app r rest Hr). cbn [fst snd].
    rewrite (span_digits_app _ rest Hr). cbn [fst snd].
    now destruct (String.eqb (fst (span is_digit (snd (exponent_sign r)))) EmptyString).
Qed.

(** The scanner hands a float literal, whole, to [float]. *)
Lemma scan_number_float
    (fos : string -> option float) (t rest : string) :
  float_literal t = true -> delimited rest ->
  scan_number fos (t ++ rest)
  = match fos t with
    | Some f => Some (JFloat f, rest)
    | None => None
    end.
Proof.
  intros Hl Hr. unfold scan_number, scan_unsigned.
  rewrite (split_sign_app t rest Hr). cbn [fst snd].
  rewrite (span_digits_app _ rest Hr). cbv beta iota.
  rewrite (scan_fraction_app _ rest Hr). cbv beta iota.
  rewrite (scan_exponent_app _ rest Hr). cbv beta iota.
  unfold float_literal in Hl. cbv zeta in Hl.
  pose proof (split_sign_cat t) as C1.
  pose proof (span_cat is_digit (snd (split_sign t))) as C2.
  pose proof (scan_fraction_cat (snd (span is_digit (snd (split_sign t))))) as C3.
  pose proof (scan_exponent_cat
                (snd (scan_fraction (snd (span is_digit (snd (split_sign t))))))) as C4.
  destruct (fst (span is_digit (snd (split_sign t)))) as [|d more]; [discriminate Hl|].
  apply andb_true_iff in Hl as [Hl Hend]. apply andb_true_iff in Hl as [Hzero Hfloat].
  apply negb_true_iff in Hzero. apply negb_true_iff in Hfloat.
  apply String.eqb_eq in Hend.
  rewrite Hzero, Hfloat, Hend. rewrite Hend, string_app_nil_r in C4.
  cbn [append] in *.
  rewrite C4, C3, C2, C1. reflexivity.
Qed.

(** A float literal starts with a digit or a minus. *)
Lemma float_literal_head (t : string) :
  float_literal t = true -> exists c tail, t = String c tail /\ plain c = true.
Proof.
  intros Hl. destruct t as [|c tail]; [discriminate Hl|].
  exists c, tail. split; [reflexivity|].
  unfold float_literal, split_sign in Hl. unfold plain.
  destruct (Ascii.eqb c "-"); [apply orb_true_r|].
  cbn [snd span] in Hl. destruct (is_digit c); [reflexivity|discriminate Hl].
Qed.

(** The float that fails [o == o] is NaN, and the floats equal to an
    infinity are the infinities. *)
Lemma SFeqb_same (x : spec_float) : SFeqb x x = false -> x = S754_nan.
Proof.
  destruct x as [s|s| |s m e]; unfold SFeqb, SFcompare; try reflexivity.
  - intros H. discriminate H.
  - destruct s; intros H; discriminate H.
  - rewrite Z.compare_refl, Pos.compare_cont_refl.
    destruct s; cbn; intros H; discriminate H.
Qed.

Lemma is_nan_nan (f : float) : PrimFloat.is_nan f = true -> f = PrimFloat.nan.
Proof.
  unfold PrimFloat.is_nan. rewrite FloatAxioms.eqb_spec. intros H.
  apply negb_true_iff, SFeqb_same in H. now apply Prim2SF_inj.
Qed.

Lemma eqb_infinity (f : float) (s : bool) :
  SFeqb (Prim2SF f) (S754_infinity s) = true -> Prim2SF f = S754_infinity s.
Proof.
  destruct (Prim2SF f) as [s'|s'| |s' m e]; unfold SFeqb, SFcompare;
    destruct s; try destruct s'; cbn; intros H; try discriminate H; reflexivity.
Qed.

Lemma reads_back_NaN (fos : string -> option float) :
  reads_back fos 1 "NaN" (JFloat PrimFloat.nan).
Proof.
  intros rest fuel [r [->| ->]] Hfuel; (destruct fuel as [|n]; [lia|reflexivity]).
Qed.

Lemma reads_back_Infinity (fos : string -> option float) :
  reads_back fos 1 "Infinity" (JFloat PrimFloat.infinity).
Proof.
  intros rest fuel [r [->| ->]] Hfuel; (destruct fuel as [|n]; [lia|reflexivity]).
Qed.

Lemma reads_back_neg_Infinity (fos : string -> option float) :
  reads_back fos 1 "-Infinity" (JFloat PrimFloat.neg_infinity).
Proof.
  intros rest fuel [r [->| ->]] Hfuel; (destruct fuel as [|n]; [lia|reflexivity]).
Qed.

(** A float is read back with one round of fuel: NaN and the infinities
    from their names, a finite float when its text is a float literal
    that [float] reads as the float. *)
Lemma reads_back_float
    (fr : float -> string) (fos : string -> option float) (f : float) :
  float_round_trips fr fos f -> reads_back fos 1 (dumps_float fr f) (JFloat f).
Proof.
  intros Hrt. unfold float_round_trips, finite_float in Hrt. unfold dumps_float.
  destruct (PrimFloat.is_nan f) eqn:Hnan.
  { rewrite (is_nan_nan f Hnan). apply reads_back_NaN. }
  destruct (PrimFloat.eqb f PrimFloat.infinity) eqn:Hinf.
  { rewrite FloatAxioms.eqb_spec in Hinf. apply eqb_infinity in Hinf.
    rewrite (Prim2SF_inj f PrimFloat.infinity Hinf). apply reads_back_Infinity. }
  destruct (PrimFloat.eqb f PrimFloat.neg_infinity) eqn:Hninf.
  { rewrite FloatAxioms.eqb_spec in Hninf. apply eqb_infinity in Hninf.
    rewrite (Prim2SF_inj f PrimFloat.neg_infinity Hninf). apply reads_back_neg_Infinity. }
  destruct (Hrt eq_refl) as [Hl Hf].
  intros rest fuel Hr Hfuel. destruct fuel as [|n]; [lia|].
  pose proof (scan_number_float fos _ rest Hl Hr) as Hn. rewrite Hf in Hn.
  destruct (float_literal_head _ Hl) as (c & tail & Heq & Hp).
  rewrite Heq in *. cbn [append] in *.
  destruct (plain_head c Hp) as (_ & _ & _ & _ & _ & _ & Hws).
  cbn [skip_ws]. rewrite Hws. now apply scan_value_plain.
Qed.

(** An integer is read back with one round of fuel. *)
Lemma reads_back_int (fos : string -> option float) (z : Z) :
  reads_back fos 1 (py_str z) (JInt z).
Proof.
  intros rest fuel Hr Hf. destruct fuel as [|n]; [lia|].
  pose proof (scan_number_int fos z rest Hr) as Hn.
  destruct (py_str_head z) as (c & tail & Heq & Hp).
  rewrite Heq in *. cbn [append] in *.
  destruct (plain_head c Hp) as (_ & _ & _ & _ & _ & _ & Hws).
  cbn [skip_ws]. rewrite Hws. now apply scan_value_plain.
Qed.

(** A string is read back with one round of fuel. *)
Lemma reads_back_str (fos : string -> option float) (s : string) :
  reads_back fos 1 (dumps_str s) (JStr s).
Proof.
  intros rest fuel Hr Hf. destruct fuel as [|n]; [lia|].
  unfold dumps_str, quoted. cbn [append skip_ws scan].
  change (is_ws dquote) with false. cbn iota.
  change (Ascii.eqb dquote dquote) with true. cbn iota.
  rewrite string_app_assoc. cbn [append].
  rewrite scanstring_escape. reflexivity.
Qed.

(** ** json: objects *)

Lemma skip_ws_app_ws (a b : string) :
  string_forall is_ws a = true -> skip_ws (a ++ b) = skip_ws b.
Proof.
  induction a as [|c a IH]; cbn [append string_forall skip_ws]; [reflexivity|].
  intros H. apply andb_true_iff in H as [Hc Ha]. rewrite Hc. auto.
Qed.

Lemma members_text_shape
    (colon comma k t : string) (v : json) (ms : list (string * string * json))
    (rest : string) :
  (members_text colon comma ((k, t, v) :: ms) ++ String "}"%char rest)%string
  = String dquote
      (escape k ++ String dquote (colon ++ t ++ member_tail colon comma ms rest))%string.
Proof.
  unfold member_tail. destruct ms as [|m ms].
  - cbn [members_text]. unfold dumps_str, quoted. cbn [append].
    now rewrite !string_app_assoc.
  - change (members_text colon comma ((k, t, v) :: m :: ms))
      with (dumps_str k ++ colon ++ t ++ comma ++ members_text colon comma (m :: ms))%string.
    unfold dumps_str, quoted. cbn [append].
    now rewrite !string_app_assoc.
Qed.

Lemma member_tail_delimited
    (colon mw : string) (ms : list (string * string * json)) (rest : string) :
  delimited (member_tail colon (String ","%char mw) ms rest).
Proof.
  unfold member_tail. destruct ms as [|m ms].
  - exists rest. now right.
  - eexists. left. reflexivity.
Qed.

Lemma members_text_quote
    (colon comma : string) (m : string * string * json)
    (ms : list (string * string * json)) (rest : string) :
  skip_ws (members_text colon comma (m :: ms) ++ String "}"%char rest)
  = (members_text colon comma (m :: ms) ++ String "}"%char rest)%string.
Proof.
  destruct m as [[k t] v]. rewrite members_text_shape. reflexivity.
Qed.

(** The members of an object are read back, given fuel for the longest
    chain of calls: one round per member and [N] for a value. *)
Lemma scan_members
    (fos : string -> option float) (cw mw : string) (N : nat) :
  string_forall is_ws cw = true -> string_forall is_ws mw = true ->
  forall (ms : list (string * string * json)) (pairs : list (string * json))
         (rest : string) (fuel : nat),
    ms <> [] ->
    Forall (fun m => reads_back fos N (snd (fst m)) (snd m)) ms ->
    (List.length ms + N <= fuel)%nat ->
    scan fos fuel (Members pairs)
      (members_text (String ":"%char cw) (String ","%char mw) ms ++ String "}"%char rest)
    = Some (JDict (dict_of_pairs (pairs ++ map member_pair ms)), rest).
Proof.
  intros Hcw Hmw. induction ms as [|[[k t] v] ms IH]; intros pairs rest fuel Hne Hall Hfuel;
    [contradiction|].
  destruct fuel as [|fuel]; [simpl in Hfuel; lia|].
  inversion Hall as [|? ? Hm Hms]; subst. cbn [fst snd] in Hm.
  rewrite members_text_shape. cbn [scan].
  change (Ascii.eqb dquote dquote) with true. cbn iota.
  rewrite scanstring_escape. cbn [append skip_ws].
  change (is_ws ":"%char) with false. cbn iota.
  rewrite skip_ws_app_ws by assumption.
  pose proof (member_tail_delimited (String ":"%char cw) mw ms rest) as Hd.
  rewrite (Hm _ fuel Hd) by (simpl in Hfuel; lia).
  rewrite (skip_ws_delimited _ Hd).
  unfold member_tail. destruct ms as [|m ms].
  - reflexivity.
  - cbn [append]. rewrite skip_ws_app_ws by assumption.
    rewrite members_text_quote.
    rewrite IH; [|discriminate|assumption|simpl in *; lia].
    cbn [map]. now rewrite <- app_assoc.
Qed.

(** An object is read back with one round more than its members need,
    whatever follows it. *)
Lemma scan_object
    (fos : string -> option float) (cw mw : string) (N : nat)
    (ms : list (string * string * json)) (rest : string) (fuel : nat) :
  string_forall is_ws cw = true -> string_forall is_ws mw = true ->
  Forall (fun m => reads_back fos N (snd (fst m)) (snd m)) ms ->
  (S (List.length ms + N) <= fuel)%nat ->
  scan fos fuel Value
    (skip_ws (("{" ++ members_text (String ":"%char cw) (String ","%char mw) ms ++ "}")
              ++ rest))%string
  = Some (JDict (dict_of_pairs (map member_pair ms)), rest).
Proof.
  intros Hcw Hmw Hall Hfuel.
  destruct fuel as [|fuel]; [lia|].
  rewrite !string_app_assoc. cbn [append skip_ws].
  change (is_ws "{"%char) with false. cbn iota.
  cbn [scan]. change (Ascii.eqb "{"%char dquote) with false.
  change (Ascii.eqb "{"%char "{"%char) with true. cbn iota.
  destruct ms as [|[[k t] v] ms].
  - reflexivity.
  - rewrite members_text_quote.
    assert (Hopen : starts_with "}"
              (members_text (String ":"%char cw) (String ","%char mw) ((k, t, v) :: ms)
                 ++ String "}"%char rest) = None)
      by (rewrite members_text_shape; reflexivity).
    rewrite Hopen.
    apply (scan_members fos cw mw N Hcw Hmw ((k, t, v) :: ms) [] rest fuel);
      [discriminate|assumption|lia].
Qed.

Lemma reads_back_object
    (fos : string -> option float) (cw mw : string) (N : nat)
    (ms : list (string * string * json)) :
  string_forall is_ws cw = true -> string_forall is_ws mw = true ->
  Forall (fun m => reads_back fos N (snd (fst m)) (snd m)) ms ->
  reads_back fos (S (List.length ms + N))
    ("{" ++ members_text (String ":"%char cw) (String ","%char mw) ms ++ "}")%string
    (JDict (dict_of_pairs (map member_pair ms))).
Proof.
  intros Hcw Hmw Hall rest fuel _ Hfuel. now apply (scan_object fos cw mw N).
Qed.

Lemma reads_back_more (fos : string -> option float) (n n' : nat) (t : string) (v : json) :
  (n <= n')%nat -> reads_back fos n t v -> reads_back fos n' t v.
Proof. intros Hn H rest fuel Hd Hf. apply H; [assumption|lia]. Qed.

(** [dict(pairs)] of pairs with distinct keys keeps the pairs. *)
Lemma dict_of_pairs_nodup_acc {V : Type} (l acc : list (string * V)) :
  NoDup (map fst (acc ++ l)) ->
  fold_left (fun d kv => dict_set (fst kv) (snd kv) d) l acc = acc ++ l.
Proof.
  revert acc. induction l as [|[k v] l IH]; intros acc Hnd; cbn [fold_left].
  - now rewrite app_nil_r.
  - assert (Hc : dict_contains k acc = false).
    { unfold dict_contains. apply not_true_is_false. intros H.
      apply existsb_exists in H as ([k' v'] & Hin & Heq). cbn [fst] in Heq.
      apply String.eqb_eq in Heq. subst k'.
      rewrite map_app in Hnd. cbn [map fst] in Hnd.
      apply NoDup_remove_2 in Hnd. apply Hnd. apply in_or_app. left.
      now apply (in_map fst) in Hin. }
    cbn [fst snd]. unfold dict_set. rewrite Hc.
    rewrite IH; [now rewrite <- app_assoc|]. now rewrite <- app_assoc.
Qed.

Lemma dict_of_pairs_nodup {V : Type} (l : list (string * V)) :
  NoDup (map fst l) -> dict_of_pairs l = l.
Proof. intros H. unfold dict_of_pairs. now rewrite dict_of_pairs_nodup_acc. Qed.

Lemma dumps_members_text {V : Type} (dumps_value : V -> string) (inj : V -> json)
    (d : dict V) :
  dumps_members dumps_value d = members_text ": " ", " (dict_members dumps_value inj d).
Proof.
  induction d as [|kv d IH]; [reflexivity|].
  destruct d as [|kv' d]; [reflexivity|].
  change (dumps_members dumps_value (kv :: kv' :: d))
    with (dumps_str (fst kv) ++ ": " ++ dumps_value (snd kv) ++ ", "
            ++ dumps_members dumps_value (kv' :: d))%string.
  rewrite IH. reflexivity.
Qed.

(** A dictionary with distinct keys whose values are read back is read
    back as a dictionary. *)
Lemma reads_back_dict {V : Type}
    (fos : string -> option float) (dumps_value : V -> string) (inj : V -> json)
    (d : dict V) :
  NoDup (dict_keys d) ->
  Forall (fun kv => reads_back fos 1 (dumps_value (snd kv)) (inj (snd kv))) d ->
  reads_back fos (S (S (List.length d)))
    (dumps_dict dumps_value d) (JDict (map (fun kv => (fst kv, inj (snd kv))) d)).
Proof.
  intros Hnd Hall. unfold dumps_dict.
  rewrite (dumps_members_text dumps_value inj).
  assert (Hpairs : map member_pair (dict_members dumps_value inj d)
                   = map (fun kv => (fst kv, inj (snd kv))) d).
  { unfold dict_members. rewrite map_map. reflexivity. }
  rewrite <- (dict_of_pairs_nodup (map (fun kv => (fst kv, inj (snd kv))) d))
    by (rewrite map_map; exact Hnd).
  rewrite <- Hpairs.
  apply (reads_back_more fos (S (List.length (dict_members dumps_value inj d) + 1))).
  - unfold dict_members. rewrite length_map. lia.
  - apply (reads_back_object fos " " " " 1); try reflexivity.
    unfold dict_members. apply Forall_map.
    eapply Forall_impl; [|exact Hall]. intros kv H. exact H.
Qed.

(** ** The durable text of a progress record *)

Lemma durable_json_members (fr : float -> string) (pb : ProblemState) :
  durable_json fr pb = ("{" ++ members_text ":" "," (record_members fr pb) ++ "}")%string.
Proof.
  unfold durable_json, record_members. cbn [members_text].
  rewrite !string_app_assoc. reflexivity.
Qed.

Lemma dumps_members_length {V : Type} (dumps_value : V -> string) (d : dict V) :
  (List.length d <= String.length (dumps_members dumps_value d))%nat.
Proof.
  induction d as [|kv d IH]; [simpl; lia|].
  destruct d as [|kv' d].
  - cbn [dumps_members]. unfold dumps_str, quoted. cbn [append String.length List.length]. lia.
  - change (dumps_members dumps_value (kv :: kv' :: d))
      with (dumps_str (fst kv) ++ ": " ++ dumps_value (snd kv) ++ ", "
              ++ dumps_members dumps_value (kv' :: d))%string.
    unfold dumps_str, quoted. rewrite !string_length_app.
    cbn [append String.length List.length] in *. lia.
Qed.

Lemma durable_json_length (fr : float -> string) (pb : ProblemState) :
  (6 + List.length (pending pb) + List.length (busy_workers pb)
   <= String.length (durable_json fr pb))%nat.
Proof.
  unfold durable_json, dumps_dict. rewrite !string_length_app.
  pose proof (dumps_members_length (dumps_float fr) (pending pb)).
  pose proof (dumps_members_length dumps_str (busy_workers pb)).
  unfold quoted. cbn [append String.length]. lia.
Qed.

(** [json.loads] of the durable text gives the object of the four
    fields, provided the dictionaries have distinct keys and the time
    stamps are read back. *)
Lemma json_loads_durable_json
    (fr : float -> string) (fos : string -> option float) (pb : ProblemState) :
  NoDup (dict_keys (pending pb)) -> NoDup (dict_keys (busy_workers pb)) ->
  Forall (fun kv => reads_back fos 1 (dumps_float fr (snd kv)) (JFloat (snd kv)))
         (pending pb) ->
  json_loads fos (durable_json fr pb)
  = Return (JDict [("next", JInt (next pb));
                   ("pending", json_of_dict JFloat (pending pb));
                   ("busy_workers", json_of_dict JStr (busy_workers pb));
                   ("finished", JInt (finished pb))]).
Proof.
  intros Hp Hb Hf. unfold json_loads.
  pose proof (durable_json_length fr pb) as Hlen.
  set (N := S (S (Nat.max (List.length (pending pb)) (List.length (busy_workers pb))))).
  assert (Hscan : scan fos (S (String.length (durable_json fr pb))) Value
                    (skip_ws (durable_json fr pb))
                  = Some (JDict (dict_of_pairs (map member_pair (record_members fr pb))),
                          EmptyString)).
  { rewrite <- (string_app_nil_r (durable_json fr pb)) at 2.
    rewrite durable_json_members.
    apply (scan_object fos EmptyString EmptyString N); try reflexivity.
    - unfold record_members. repeat constructor; cbn [fst snd].
      + apply (reads_back_more fos 1); [unfold N; lia|apply reads_back_int].
      + apply (reads_back_more fos (S (S (List.length (pending pb))))); [unfold N; lia|].
        now apply reads_back_dict.
      + apply (reads_back_more fos (S (S (List.length (busy_workers pb))))); [unfold N; lia|].
        apply reads_back_dict; [assumption|].
        apply Forall_forall. intros kv _. apply reads_back_str.
      + apply (reads_back_more fos 1); [unfold N; lia|apply reads_back_int].
    - rewrite <- durable_json_members. unfold record_members, N.
      cbn [List.length]. lia. }
  rewrite Hscan. reflexivity.
Qed.

(** ** save, then load *)

Lemma to_dict_map {V : Type} (inj : V -> json) (to_value : json -> result V) (d : dict V) :
  (forall x, to_value (inj x) = Return x) ->
  to_dict to_value (map (fun kv => (fst kv, inj (snd kv))) d) = Return d.
Proof.
  intros Hinv. induction d as [|[k v] d IH]; [reflexivity|].
  cbn [map to_dict fst snd]. now rewrite Hinv, IH.
Qed.

(** The four assignments of [load] from the object of a record. *)
Lemma load_fields_record (pb pb0 : ProblemState) :
  load_fields (JDict [("next", JInt (next pb));
                      ("pending", json_of_dict JFloat (pending pb));
                      ("busy_workers", json_of_dict JStr (busy_workers pb));
                      ("finished", JInt (finished pb))]) pb0
  = (Return tt,
     mkProblemState (next pb) (pending pb) (busy_workers pb) (finished pb)
                    (_saving_path pb0)).
Proof.
  unfold load_fields, bind, lift, modify, getitem, dict_get. cbn [find fst snd String.eqb
    Ascii.eqb Bool.eqb option_map to_int].
  cbn. unfold json_of_dict, to_float_dict, to_str_dict.
  rewrite (to_dict_map JFloat) by reflexivity.
  rewrite (to_dict_map JStr) by reflexivity.
  reflexivity.
Qed.

(** What [save] can do: return [True]; print the refusal of the store
    and return [False]; or let through the failure of the request or of
    the reading of the answer. The request is sent in every case. *)
Lemma save_cases (fr : float -> string) (fos : string -> option float)
    (pb : ProblemState) (w : World) :
  let w' := set_exchange (tl (script w))
              (requests w ++ [(Caller, PutData (_saving_path pb) (durable_json fr pb)
                                         "application/json")]) w in
  ProblemState_save fr fos pb w = (Return true, w') \/
  (exists status, ProblemState_save fr fos pb w
                  = (Return false, print (StoreError "store" (RegistryError status)) w')) \/
  ProblemState_save fr fos pb w = (Raise ConnectionError, w') \/
  ProblemState_save fr fos pb w = (Raise (AttributeError "get"), w').
Proof.
  unfold ProblemState_save, RegistryClient_write_data, http.
  destruct (script w) as [|[status body|] rest]; cbn [fst snd tl is_RegistryError].
  - right. right. left. reflexivity.
  - destruct ((status =? 200) || (status =? 201)).
    + destruct (extract_json fos body) as [[| | | | | |]|];
        (left; reflexivity) || (right; right; right; reflexivity).
    + right. left. exists status. reflexivity.
  - right. right. left. reflexivity.
Qed.

Lemma save_requests (fr : float -> string) (fos : string -> option float)
    (pb : ProblemState) (w : World) :
  requests (snd (ProblemState_save fr fos pb w))
  = requests w ++ [(Caller, PutData (_saving_path pb) (durable_json fr pb) "application/json")].
Proof.
  destruct (save_cases fr fos pb w) as [H|[[status H]|[H|H]]]; rewrite H; reflexivity.
Qed.

(** C9: for every progress record (any [next], [pending],
    [busy_workers] and [finished]; the two dictionaries with distinct
    keys, as dictionaries have), with [float.__repr__] writing each
    finite time stamp as a float literal that [float] reads as the same
    float, a successful [save] followed by [load] on a fresh record of
    the same path, the store answering the read with what was written,
    returns and leaves the fresh record with the [next], [pending],
    [busy_workers] and [finished] of the saved one. *)
Theorem save_load_round_trip
    (fr : float -> string) (fos : string -> option float)
    (pb : ProblemState) (w : World) :
  NoDup (dict_keys (pending pb)) -> NoDup (dict_keys (busy_workers pb)) ->
  Forall (fun kv => float_round_trips fr fos (snd kv)) (pending pb) ->
  fst (ProblemState_save fr fos pb w) = Return true ->
  answers_last_write (snd (ProblemState_save fr fos pb w)) ->
  let loaded := ProblemState_load fos (ProblemState_init (_saving_path pb))
                  (snd (ProblemState_save fr fos pb w)) in
  fst loaded = Return tt /\
  next (fst (snd loaded)) = next pb /\
  pending (fst (snd loaded)) = pending pb /\
  busy_workers (fst (snd loaded)) = busy_workers pb /\
  finished (fst (snd loaded)) = finished pb.
Proof.
  intros Hp Hb Hf Hsaved Hstore. cbv zeta.
  unfold answers_last_write in Hstore. rewrite save_requests, last_last in Hstore.
  destruct Hstore as [rest Hscript].
  unfold ProblemState_load, RegistryClient_read_data, http. rewrite Hscript.
  cbn [fst snd content_type content ProblemState_init _saving_path].
  change (200 =? 200) with true. cbn iota.
  cbn [content_type content]. rewrite String.eqb_refl.
  assert (Hback : Forall (fun kv => reads_back fos 1 (dumps_float fr (snd kv))
                                       (JFloat (snd kv))) (pending pb)).
  { eapply Forall_impl; [|exact Hf]. intros kv. apply reads_back_float. }
  rewrite (json_loads_durable_json fr fos pb Hp Hb Hback), load_fields_record.
  repeat split.
Qed.

(** The texts of the two time stamps of [two_pending] are float literals
    that are read as the stamps. *)
Lemma stamps_round_trip :
  Forall (fun kv => float_round_trips repr_of_stamps float_of_stamps (snd kv))
         (pending two_pending).
Proof.
  repeat (apply Forall_cons; [intros _; split; reflexivity|]). apply Forall_nil.
Qed.

Lemma save_load_round_trip_witness :
  let loaded := ProblemState_load float_of_stamps
                  (ProblemState_init (_saving_path two_pending))
                  (snd (ProblemState_save repr_of_stamps float_of_stamps two_pending
                          store_keeps_two_pending)) in
  fst loaded = Return tt /\
  next (fst (snd loaded)) = next two_pending /\
  pending (fst (snd loaded)) = pending two_pending /\
  busy_workers (fst (snd loaded)) = busy_workers two_pending /\
  finished (fst (snd loaded)) = finished two_pending.
Proof.
  apply (save_load_round_trip repr_of_stamps float_of_stamps two_pending
           store_keeps_two_pending).
  - repeat constructor; simpl; intuition discriminate.
  - repeat constructor; simpl; intuition discriminate.
  - exact stamps_round_trip.
  - reflexivity.
  - vm_compute. eexists. reflexivity.
Defined.

(** * Further properties of the code *)

(** ** Role.take *)

(** [take], case by case on what the client call does. *)
Lemma take_eq (p : Process) :
  take p =
  let w' := snd (http Caller (take_request (handle p)) (world p)) in
  match fst (RegistryClient_take_role Caller (role_path (handle p)) (name (handle p))
               (playtime_secs (handle p)) (max_players (handle p)) (world p)) with
  | Return resp => (Return true, take_recorded resp (set_world w' p))
  | Raise e =>
      if is_RegistryError e then (Return false, set_world w' p)
      else (Raise e, set_world w' p)
  end.
Proof.
  destruct p as [[nm path mx secs ex flag th] ts n [[|[st body|] rest] rq ck tk so ib ob ea out]];
    unfold take, take_request, bind, modify, try_except, in_world, RegistryClient_take_role,
      http, lift, ret; cbn [fst snd handle world script requests role_path name
      playtime_secs max_players set_exchange set_world];
    try reflexivity.
  - destruct (st =? 200); [|destruct (st =? 201)]; try (destruct body); reflexivity.
Qed.

Lemma http_eq (who : issuer) (rq : Request) (w : World) :
  requests (snd (http who rq w)) = requests w ++ [(who, rq)] /\
  script (snd (http who rq w)) = tl (script w) /\
  clock (snd (http who rq w)) = clock w /\ ticks (snd (http who rq w)) = ticks w /\
  inbox (snd (http who rq w)) = inbox w /\ outbox (snd (http who rq w)) = outbox w /\
  stdout (snd (http who rq w)) = stdout w /\
  sock_timeout (snd (http who rq w)) = sock_timeout w /\
  eagain (snd (http who rq w)) = eagain w.
Proof. unfold http. destruct (script w); repeat split; reflexivity. Qed.

Lemma take_role_refused
    (who : issuer) (path nm : string) (secs mx status : Z) (body : Payload)
    (rest : list Response) (w : World) :
  script w = HttpResponse status body :: rest ->
  status <> 200 -> status <> 201 ->
  fst (RegistryClient_take_role who path nm secs mx w) = Raise (RegistryError status).
Proof.
  intros Hs H200 H201. unfold RegistryClient_take_role, http. rewrite Hs.
  apply Z.eqb_neq in H200, H201. now rewrite H200, H201.
Qed.

(** X1: when the service answers the request of [take] with a status
    other than 200 and 201, [take] returns [False] and leaves the handle,
    its renewal threads and the thread count as they were; the one
    request sent is the PUT of the role with the name, the playtime and
    the player limit of the handle. *)
Theorem take_refused_changes_nothing
    (p : Process) (status : Z) (body : Payload) (rest : list Response) :
  script (world p) = HttpResponse status body :: rest ->
  status <> 200 -> status <> 201 ->
  fst (take p) = Return false /\
  handle (snd (take p)) = handle p /\
  threads (snd (take p)) = threads p /\
  started (snd (take p)) = started p /\
  script (world (snd (take p))) = rest /\
  requests (world (snd (take p)))
  = requests (world p) ++ [(Caller, take_request (handle p))].
Proof.
  intros Hs H200 H201. rewrite take_eq. cbv zeta.
  rewrite (take_role_refused _ _ _ _ _ status body rest _ Hs H200 H201).
  cbn [is_RegistryError fst snd set_world handle threads started world].
  destruct (http_eq Caller (take_request (handle p)) (world p)) as (Hr & Hsc & _).
  rewrite Hr, Hsc, Hs. repeat split.
Qed.

Lemma take_refused_changes_nothing_witness :
  fst (take (new_process manager_role_5001 (world_of_script [HttpResponse 409 NoJson])))
  = Return false /\
  handle (snd (take (new_process manager_role_5001
                       (world_of_script [HttpResponse 409 NoJson]))))
  = manager_role_5001.
Proof.
  destruct (take_refused_changes_nothing
              (new_process manager_role_5001 (world_of_script [HttpResponse 409 NoJson]))
              409 NoJson []) as (H1 & H2 & _).
  - reflexivity.
  - discriminate.
  - discriminate.
  - split; [exact H1|exact H2].
Defined.

(** X2: [take] returns [False] for a [RegistryError] only. Any other
    failure of the client call (no answer from the host, a success
    status with a body that is no JSON) leaves [take] as the exception
    it is, with the handle and its threads as they were. *)
Theorem take_propagates_other_failures (p : Process) (e : exn) :
  fst (RegistryClient_take_role Caller (role_path (handle p)) (name (handle p))
         (playtime_secs (handle p)) (max_players (handle p)) (world p)) = Raise e ->
  is_RegistryError e = false ->
  fst (take p) = Raise e /\
  handle (snd (take p)) = handle p /\
  threads (snd (take p)) = threads p.
Proof.
  intros He Hne. rewrite take_eq. cbv zeta. rewrite He, Hne. repeat split.
Qed.

Lemma take_propagates_other_failures_witness :
  fst (take (new_process manager_role_5001 (world_of_script []))) = Raise ConnectionError /\
  handle (snd (take (new_process manager_role_5001 (world_of_script []))))
  = manager_role_5001 /\
  threads (snd (take (new_process manager_role_5001 (world_of_script [])))) = [].
Proof.
  apply (take_propagates_other_failures
           (new_process manager_role_5001 (world_of_script [])) ConnectionError);
    reflexivity.
Defined.

(** ** The recorded expiration *)

Lemma take_recorded_expiration (resp : TakeRoleResult) (p : Process) :
  expiration_time_msecs (handle (take_recorded resp p))
  = Z.max (expiration_time_msecs (handle p)) (client_expiration_time_in_msecs resp).
Proof.
  unfold take_recorded.
  destruct (client_expiration_time_in_msecs resp >? expiration_time_msecs (handle p)) eqn:E;
    destruct (_maintenance_thread _); cbn;
    rewrite Z.gtb_ltb in E; [apply Z.ltb_lt in E|apply Z.ltb_lt in E
                             |apply Z.ltb_ge in E|apply Z.ltb_ge in E]; lia.
Qed.

Lemma take_expiration (p : Process) :
  expiration_time_msecs (handle p) <= expiration_time_msecs (handle (snd (take p))).
Proof.
  rewrite take_eq. cbv zeta.
  destruct (fst (RegistryClient_take_role _ _ _ _ _ _)) as [resp|e].
  - cbn [snd]. rewrite take_recorded_expiration. cbn. lia.
  - destruct (is_RegistryError e); cbn; lia.
Qed.

Lemma step_expiration (a : action) (p : Process) :
  expiration_time_msecs (handle p) <= expiration_time_msecs (handle (step a p)).
Proof.
  destruct a as [| |tid]; cbn [step].
  - apply take_expiration.
  - rewrite release_expiration. lia.
  - destruct (thread_step_frame tid p) as (-> & _). lia.
Qed.

(** X3: along every execution of a process, whatever the owner calls
    and however the renewal threads are scheduled, the expiration the
    handle records never moves back: neither a [take] answered with an
    earlier time nor [release] lowers it. *)
Theorem expiration_never_decreases (acts : list action) (p : Process) :
  expiration_time_msecs (handle p) <= expiration_time_msecs (handle (run acts p)).
Proof.
  revert p. induction acts as [|a acts IH]; intros p; [cbn; lia|].
  unfold run in *. cbn [fold_left].
  pose proof (step_expiration a p). pose proof (IH (step a p)). lia.
Qed.

(** What [is_holding] answers grows with the recorded expiration. *)
Lemma is_holding_later (self self' : Role) (num_secs : float) (w : World) :
  expiration_time_msecs self <= expiration_time_msecs self' ->
  fst (is_holding self num_secs w) = Return true ->
  fst (is_holding self' num_secs w) = Return true.
Proof.
  unfold is_holding. intros Hle.
  destruct (time_time w) as [t w'].
  destruct (int_of_float ((t + num_secs) * 1000)) as [target|e]; cbn [fst]; [|trivial].
  intros H. injection H as H. apply Z.ltb_lt in H.
  f_equal. apply Z.ltb_lt. lia.
Qed.

(** X4: no call ends what [is_holding] reports. If [is_holding]
    answers [True] for a reading of the clock, it answers [True] for the
    same reading after any execution of the process, [release] included:
    the handle goes on reporting the role as held until the clock passes
    the recorded expiration. *)
Theorem holding_survives_every_call
    (acts : list action) (p : Process) (num_secs : float) (w : World) :
  fst (is_holding (handle p) num_secs w) = Return true ->
  fst (is_holding (handle (run acts p)) num_secs w) = Return true.
Proof.
  revert p. induction acts as [|a acts IH]; intros p H; [exact H|].
  unfold run in *. cbn [fold_left]. apply IH.
  apply (is_holding_later (handle p)); [apply step_expiration|exact H].
Qed.

Lemma holding_survives_every_call_witness :
  fst (is_holding
         (handle (run [CallRelease] (new_process held_manager_role (world_of_script []))))
         0.5%float (world_at_1000 [] []))
  = Return true.
Proof.
  apply (holding_survives_every_call [CallRelease]
           (new_process held_manager_role (world_of_script [])) 0.5%float
           (world_at_1000 [] [])).
  reflexivity.
Defined.

(** ** The renewal threads of a handle *)

(** What a step of a renewal thread does to the list of threads. *)
Lemma thread_step_threads (tid : nat) (p : Process) :
  threads (thread_step tid p) =
  match pc_of tid (threads p) with
  | None => threads p
  | Some InitialSleep | Some Sleep =>
      if retake_interval (handle p) <? 0 then end_thread tid (threads p)
      else set_pc tid LoopTest (threads p)
  | Some LoopTest =>
      if _to_maintain_role (handle p) then set_pc tid WaitLock (threads p)
      else end_thread tid (threads p)
  | Some WaitLock => set_pc tid Sleep (threads p)
  end.
Proof.
  unfold thread_step, thread_step_with, time_sleep.
  destruct (pc_of tid (threads p)) as [[| | |]|]; try reflexivity.
  - destruct (retake_interval (handle p) <? 0); reflexivity.
  - destruct (_to_maintain_role (handle p)); reflexivity.
  - fold (maintain_locked tid). rewrite maintain_locked_frame. reflexivity.
  - destruct (retake_interval (handle p) <? 0); reflexivity.
Qed.

Lemma set_pc_length (tid : nat) (at_pc : pc) (ts : list (nat * pc)) :
  List.length (set_pc tid at_pc ts) = List.length ts.
Proof. apply length_map. Qed.

Lemma end_thread_length (tid : nat) (ts : list (nat * pc)) :
  (List.length (end_thread tid ts) <= List.length ts)%nat.
Proof. apply filter_length_le. Qed.

Lemma thread_step_length (tid : nat) (p : Process) :
  (List.length (threads (thread_step tid p)) <= List.length (threads p))%nat.
Proof.
  rewrite thread_step_threads.
  destruct (pc_of tid (threads p)) as [[| | |]|];
    try destruct (retake_interval (handle p) <? 0);
    try destruct (_to_maintain_role (handle p));
    rewrite ?set_pc_length; try apply end_thread_length; lia.
Qed.

Lemma take_recorded_tidy (resp : TakeRoleResult) (p : Process) :
  tidy p -> tidy (take_recorded resp p).
Proof.
  unfold tidy, take_recorded. intros [Hlen Hth].
  destruct (client_expiration_time_in_msecs resp >? expiration_time_msecs (handle p));
    cbn [_maintenance_thread set_to_maintain_role set_expiration_time_msecs];
    destruct (_maintenance_thread (handle p)) eqn:E; cbn; rewrite ?E, ?length_app; cbn; lia.
Qed.

Lemma step_tidy (a : action) (p : Process) :
  is_release a = false -> tidy p -> tidy (step a p).
Proof.
  intros Ha Ht. destruct a as [| |tid]; [|discriminate Ha|]; cbn [step].
  - rewrite take_eq. cbv zeta.
    destruct (fst (RegistryClient_take_role _ _ _ _ _ _)) as [resp|e].
    + cbn [snd]. apply take_recorded_tidy. exact Ht.
    + destruct (is_RegistryError e); exact Ht.
  - destruct Ht as [Hlen Hth]. destruct (thread_step_frame tid p) as (Hh & _ & Hs).
    pose proof (thread_step_length tid p). unfold tidy. rewrite Hh, Hs. split; [lia|exact Hth].
Qed.

Lemma run_tidy (acts : list action) (p : Process) :
  forallb (fun a => negb (is_release a)) acts = true -> tidy p -> tidy (run acts p).
Proof.
  revert p. induction acts as [|a acts IH]; intros p Hacts Ht; [exact Ht|].
  cbn [forallb] in Hacts. apply andb_true_iff in Hacts as [Ha Hacts].
  apply negb_true_iff in Ha. unfold run in *. cbn [fold_left].
  apply IH; [exact Hacts|]. now apply step_tidy.
Qed.

(** X5: as long as [release] is not called, a handle never has more
    than one renewal thread: for every execution of a fresh handle made
    of [take] calls, answered as the service likes, and of steps of the
    renewal threads, at most one thread was started and at most one is
    running. *)
Theorem one_renewal_thread_without_release
    (nm path : string) (mx secs : Z) (w : World) (acts : list action) :
  forallb (fun a => negb (is_release a)) acts = true ->
  let p := run acts (new_process (Role_init nm path mx secs) w) in
  (List.length (threads p) <= 1)%nat /\ (started p <= 1)%nat.
Proof.
  intros Hacts p.
  assert (Ht : tidy p).
  { apply run_tidy; [exact Hacts|]. split; cbn; [lia|reflexivity]. }
  destruct Ht as [Hlen Hth].
  destruct (_maintenance_thread (handle p)); lia.
Qed.

Lemma one_renewal_thread_without_release_witness :
  (List.length
     (threads (run [CallTake; CallTake; Tick 0; CallTake]
                 (new_process (Role_init "5001" "/manager_workers/run/manager" 1 10)
                    (world_of_script [renewed 1000; unavailable; renewed 2000]))))
   <= 1)%nat.
Proof.
  apply (one_renewal_thread_without_release "5001" "/manager_workers/run/manager" 1 10
           (world_of_script [renewed 1000; unavailable; renewed 2000])
           [CallTake; CallTake; Tick 0; CallTake]).
  reflexivity.
Defined.

Lemma pc_of_set_pc (tid tid' : nat) (at_pc : pc) (ts : list (nat * pc)) :
  pc_of tid (set_pc tid' at_pc ts)
  = if Nat.eqb tid tid'
    then match pc_of tid ts with Some _ => Some at_pc | None => None end
    else pc_of tid ts.
Proof.
  unfold pc_of, set_pc. induction ts as [|[t c] ts IH]; cbn [map find fst snd].
  - now destruct (Nat.eqb tid tid').
  - destruct (Nat.eqb t tid') eqn:Et; cbn [fst].
    + apply Nat.eqb_eq in Et. subst t.
      rewrite (Nat.eqb_sym tid' tid). destruct (Nat.eqb tid tid'); [reflexivity|exact IH].
    + destruct (Nat.eqb t tid) eqn:Ett.
      * apply Nat.eqb_eq in Ett. subst t. rewrite Et. reflexivity.
      * exact IH.
Qed.

Lemma pc_of_end_thread (tid tid' : nat) (ts : list (nat * pc)) :
  pc_of tid (end_thread tid' ts) = if Nat.eqb tid tid' then None else pc_of tid ts.
Proof.
  unfold pc_of, end_thread. induction ts as [|[t c] ts IH]; cbn [filter find fst snd].
  - now destruct (Nat.eqb tid tid').
  - destruct (Nat.eqb t tid') eqn:Et; cbn [negb find fst].
    + apply Nat.eqb_eq in Et. subst t. rewrite IH.
      rewrite (Nat.eqb_sym tid' tid). now destruct (Nat.eqb tid tid').
    + destruct (Nat.eqb t tid) eqn:Ett.
      * apply Nat.eqb_eq in Ett. subst t. rewrite Et. reflexivity.
      * exact IH.
Qed.

(** A step of one thread leaves the other threads where they stand. *)
Lemma thread_step_other (tid tid' : nat) (p : Process) :
  tid <> tid' ->
  pc_of tid (threads (thread_step tid' p)) = pc_of tid (threads p).
Proof.
  intros Hne. apply Nat.eqb_neq in Hne. rewrite thread_step_threads.
  destruct (pc_of tid' (threads p)) as [[| | |]|];
    try destruct (retake_interval (handle p) <? 0);
    try destruct (_to_maintain_role (handle p));
    rewrite ?pc_of_set_pc, ?pc_of_end_thread, ?Hne; reflexivity.
Qed.

(** With the flag down, a step of a thread brings it one step nearer
    to its end. *)
Lemma thread_step_nearer (tid : nat) (p : Process) :
  _to_maintain_role (handle p) = false ->
  (steps_to_end (pc_of tid (threads (thread_step tid p)))
   <= Nat.pred (steps_to_end (pc_of tid (threads p))))%nat.
Proof.
  intros Hflag. rewrite thread_step_threads, Hflag.
  destruct (pc_of tid (threads p)) as [[| | |]|] eqn:E;
    try destruct (retake_interval (handle p) <? 0);
    rewrite ?pc_of_set_pc, ?pc_of_end_thread, ?Nat.eqb_refl, ?E; cbn; lia.
Qed.

Lemma run_ticks_nearer (tid : nat) (tids : list nat) (p : Process) :
  _to_maintain_role (handle p) = false ->
  (steps_to_end (pc_of tid (threads (run (map Tick tids) p)))
   <= steps_to_end (pc_of tid (threads p)) - count_occ Nat.eq_dec tids tid)%nat.
Proof.
  revert p. induction tids as [|t tids IH]; intros p Hflag; [cbn; lia|].
  unfold run in *. cbn [map fold_left step count_occ].
  assert (Hflag' : _to_maintain_role (handle (thread_step t p)) = false).
  { destruct (thread_step_frame t p) as (-> & _). exact Hflag. }
  pose proof (IH (thread_step t p) Hflag') as H.
  destruct (Nat.eq_dec t tid) as [->|Hne].
  - pose proof (thread_step_nearer tid p Hflag). lia.
  - rewrite (thread_step_other tid t p) in H by congruence. exact H.
Qed.

Lemma steps_to_end_bound (at_pc : option pc) : (steps_to_end at_pc <= 3)%nat.
Proof. destruct at_pc as [[| | |]|]; cbn; lia. Qed.

Lemma steps_to_end_zero (at_pc : option pc) : steps_to_end at_pc = O -> at_pc = None.
Proof. destruct at_pc as [[| | |]|]; cbn; intros H; try discriminate H; reflexivity. Qed.

(** X6: [release] leaks no renewal thread. With the flag down, as
    [release] leaves it, a renewal thread is gone by its third step,
    wherever it stood and however the steps of the threads of the handle
    are interleaved. *)
Theorem renewal_thread_ends_after_release (p : Process) (tid : nat) (tids : list nat) :
  (3 <= count_occ Nat.eq_dec tids tid)%nat ->
  pc_of tid (threads (run (map Tick tids) (snd (release p)))) = None.
Proof.
  intros Hcount. apply steps_to_end_zero.
  pose proof (run_ticks_nearer tid tids (snd (release p)) (proj1 (release_clears p))) as H.
  pose proof (steps_to_end_bound (pc_of tid (threads (snd (release p))))). lia.
Qed.

Lemma renewal_thread_ends_after_release_witness :
  pc_of 0 (threads (run (map Tick [0; 0; 0])%nat
                      (snd (release (snd (take
                         (new_process manager_role_5001
                            (world_of_script [renewed 1000; HttpResponse 200 NoJson])))))))) 
  = None.
Proof.
  apply (renewal_thread_ends_after_release
           (snd (take (new_process manager_role_5001
                         (world_of_script [renewed 1000; HttpResponse 200 NoJson]))))
           0%nat [0; 0; 0]%nat).
  cbn. lia.
Defined.

(** A handle that holds a thread object starts no thread: with no
    thread running, none appears until [release] is called. *)
Lemma no_thread_stays (acts : list action) (p : Process) :
  forallb (fun a => negb (is_release a)) acts = true ->
  _maintenance_thread (handle p) <> None -> threads p = [] ->
  threads (run acts p) = [].
Proof.
  revert p. induction acts as [|a acts IH]; intros p Hacts Hth Hts; [exact Hts|].
  cbn [forallb] in Hacts. apply andb_true_iff in Hacts as [Ha Hacts].
  apply negb_true_iff in Ha. unfold run in *. cbn [fold_left].
  destruct a as [| |tid]; [|discriminate Ha|]; cbn [step].
  - rewrite take_eq. cbv zeta.
    destruct (fst (RegistryClient_take_role _ _ _ _ _ _)) as [resp|e].
    + cbn [snd]. apply IH; [exact Hacts| |].
      * unfold take_recorded.
        destruct (client_expiration_time_in_msecs resp >? _);
          cbn [_maintenance_thread set_to_maintain_role set_expiration_time_msecs
               set_world handle];
          destruct (_maintenance_thread (handle p)) eqn:E; try contradiction;
          cbn; rewrite ?E; discriminate.
      * unfold take_recorded.
        destruct (client_expiration_time_in_msecs resp >? _);
          cbn [_maintenance_thread set_to_maintain_role set_expiration_time_msecs
               set_world handle];
          destruct (_maintenance_thread (handle p)) eqn:E; try contradiction;
          cbn; exact Hts.
    + destruct (is_RegistryError e); cbn [snd]; apply IH; assumption.
  - apply IH; [exact Hacts| |].
    + destruct (thread_step_frame tid p) as (-> & _). exact Hth.
    + rewrite thread_step_threads, Hts. reflexivity.
Qed.

(** X7: with a playtime under two seconds the renewal thread does not
    survive its first step: the interval it sleeps, the playtime less
    two, is negative, and [time.sleep] raises. After a [take] on a fresh
    handle that the service grants, the first step of the thread ends
    it, while the handle keeps the flag up and the thread object; and
    until [release] is called no [take] starts another. *)
Theorem short_playtime_ends_renewal_thread
    (nm path : string) (mx secs status t : Z) (w : World) (rest : list Response)
    (acts : list action) :
  secs < 2 -> status = 200 \/ status = 201 ->
  script w = HttpResponse status (JsonExpiration t) :: rest ->
  forallb (fun a => negb (is_release a)) acts = true ->
  let p1 := run [CallTake; Tick 0] (new_process (Role_init nm path mx secs) w) in
  threads p1 = [] /\
  _to_maintain_role (handle p1) = true /\
  _maintenance_thread (handle p1) = Some 0%nat /\
  threads (run acts p1) = [].
Proof.
  intros Hsecs Hst Hs Hacts p1.
  assert (Hp1 : threads p1 = [] /\ _to_maintain_role (handle p1) = true /\
                _maintenance_thread (handle p1) = Some 0%nat).
  { subst p1. destruct w as [sc rq ck tk so ib ob ea out]. cbn in Hs. subst sc.
    assert (Hlt : (secs - 1 - 1 <? 0) = true) by (apply Z.ltb_lt; lia).
    unfold run. cbn [fold_left step]. rewrite thread_step_threads.
    destruct (thread_step_frame 0
                (snd (take (new_process (Role_init nm path mx secs)
                              (mkWorld (HttpResponse status (JsonExpiration t) :: rest)
                                       rq ck tk so ib ob ea out))))) as (-> & _).
    destruct Hst as [-> | ->];
      unfold take, bind, modify, try_except, in_world, RegistryClient_take_role, http,
        take_recorded, lift, ret, new_process, Role_init; cbn;
      destruct (t >? 0); cbn; unfold retake_interval, num_retries; cbn;
      rewrite Hlt; repeat split; reflexivity. }
  destruct Hp1 as (H1 & H2 & H3). repeat split; try assumption.
  apply no_thread_stays; [exact Hacts| |exact H1]. rewrite H3. discriminate.
Qed.

Lemma short_playtime_ends_renewal_thread_witness :
  threads (run [CallTake; Tick 0] (new_process brief_role (world_of_script [renewed 1000])))
  = [] /\
  _to_maintain_role
    (handle (run [CallTake; Tick 0]
               (new_process brief_role (world_of_script [renewed 1000])))) = true.
Proof.
  destruct (short_playtime_ends_renewal_thread "5001" "/manager_workers/run/manager" 1 1
              200 1000 (world_of_script [renewed 1000]) [] []) as (H1 & H2 & _).
  - lia.
  - left. reflexivity.
  - reflexivity.
  - reflexivity.
  - split; [exact H1|exact H2].
Defined.

(** ** Role.active_players *)

(** X8: answered with status 200 and the players of the role,
    [active_players] returns the set of the players whose remaining time
    is positive: a player whose time is zero or negative is left out,
    and no other is. The one request sent is the read of the role of
    the handle. *)
Theorem active_players_lists_unexpired
    (who : issuer) (self : Role) (w : World) (ps : list (string * Z))
    (rest : list Response) :
  script w = HttpResponse 200 (JsonPlayers ps) :: rest ->
  exists names,
    fst (active_players who self w) = Return (Some names) /\
    names = map fst (filter (fun kv => 0 <? snd kv) ps) /\
    (forall n, In n names <-> exists t, In (n, t) ps /\ 0 < t) /\
    requests (snd (active_players who self w))
    = requests w ++ [(who, GetRole (role_path self))].
Proof.
  intros Hs. exists (map fst (filter (fun kv => 0 <? snd kv) ps)).
  unfold active_players, RegistryClient_read_role, http. rewrite Hs. cbn.
  assert (Hf : filter (fun kv : string * Z => snd kv >? 0) ps
               = filter (fun kv => 0 <? snd kv) ps).
  { apply filter_ext. intros kv. apply Z.gtb_ltb. }
  rewrite Hf. repeat split.
  - intros Hin. apply in_map_iff in Hin as ([n' t] & Hn & Hin). cbn in Hn. subst n'.
    apply filter_In in Hin as [Hin Ht]. exists t. split; [exact Hin|].
    now apply Z.ltb_lt.
  - intros (t & Hin & Ht). apply in_map_iff. exists (n, t). split; [reflexivity|].
    apply filter_In. split; [exact Hin|]. now apply Z.ltb_lt.
Qed.

Lemma active_players_lists_unexpired_witness :
  fst (active_players Caller worker_role_5001
         (world_of_script [HttpResponse 200 (JsonPlayers [("5002", 4000); ("5003", 0)])]))
  = Return (Some ["5002"]).
Proof.
  destruct (active_players_lists_unexpired Caller worker_role_5001
              (world_of_script [HttpResponse 200 (JsonPlayers [("5002", 4000); ("5003", 0)])])
              [("5002", 4000); ("5003", 0)] [] eq_refl) as (names & H1 & H2 & _).
  rewrite H1, H2. reflexivity.
Defined.

(** ** Dictionaries *)

Lemma dict_contains_get {V : Type} (k : string) (d : dict V) :
  dict_contains k d = true <-> exists v, dict_get k d = Some v.
Proof.
  unfold dict_contains, dict_get. induction d as [|[k' v'] d IH]; cbn [existsb find fst].
  - split; [discriminate|intros [v H]; discriminate H].
  - destruct (String.eqb k' k); cbn.
    + split; [intros _; now exists v'|reflexivity].
    + exact IH.
Qed.

Lemma dict_get_set_same {V : Type} (k : string) (v : V) (d : dict V) :
  dict_get k (dict_set k v d) = Some v.
Proof.
  unfold dict_set. destruct (dict_contains k d) eqn:Hc.
  - unfold dict_get, dict_contains in *.
    induction d as [|[k' v'] d IH]; cbn [existsb map find fst] in *; [discriminate Hc|].
    destruct (String.eqb k' k) eqn:E; cbn [fst].
    + rewrite String.eqb_refl. reflexivity.
    + rewrite E. apply IH. exact Hc.
  - unfold dict_get, dict_contains in *.
    induction d as [|[k' v'] d IH]; cbn [existsb app find fst] in *.
    + rewrite String.eqb_refl. reflexivity.
    + destruct (String.eqb k' k); [discriminate Hc|]. apply IH. exact Hc.
Qed.

Lemma dict_get_set_other {V : Type} (k k' : string) (v : V) (d : dict V) :
  k' <> k -> dict_get k' (dict_set k v d) = dict_get k' d.
Proof.
  intros Hne. unfold dict_set, dict_get.
  destruct (dict_contains k d).
  - induction d as [|[k0 v0] d IH]; cbn [map find fst]; [reflexivity|].
    destruct (String.eqb k0 k) eqn:E; cbn [fst].
    + apply String.eqb_eq in E. subst k0.
      apply String.eqb_neq in Hne. rewrite String.eqb_sym in Hne. rewrite Hne.
      cbn in IH |- *. exact IH.
    + destruct (String.eqb k0 k'); [reflexivity|exact IH].
  - induction d as [|[k0 v0] d IH]; cbn [app find fst].
    + apply String.eqb_neq in Hne. rewrite String.eqb_sym in Hne. now rewrite Hne.
    + destruct (String.eqb k0 k'); [reflexivity|exact IH].
Qed.

Lemma dict_contains_set {V : Type} (k k' : string) (v : V) (d : dict V) :
  dict_contains k' (dict_set k v d) = String.eqb k' k || dict_contains k' d.
Proof.
  destruct (String.eqb k' k) eqn:E.
  - apply String.eqb_eq in E. subst k'. cbn.
    apply dict_contains_get. exists v. apply dict_get_set_same.
  - cbn. apply String.eqb_neq in E.
    destruct (dict_contains k' d) eqn:Hc.
    + apply dict_contains_get in Hc as [v0 Hv]. apply dict_contains_get. exists v0.
      now rewrite dict_get_set_other.
    + destruct (dict_contains k' (dict_set k v d)) eqn:Hc'; [|reflexivity].
      apply dict_contains_get in Hc' as [v0 Hv]. rewrite dict_get_set_other in Hv by exact E.
      assert (Ht : dict_contains k' d = true) by (apply dict_contains_get; now exists v0).
      congruence.
Qed.

(** ** Manager._send_assignment *)

Lemma set_next_same (pb : ProblemState) : set_next (next pb) pb = pb.
Proof. now destruct pb. Qed.

(** The state [_send_assignment] returns in. *)
Lemma send_assignment_returned (a : Z * Z) (worker : string) (m : Manager) (w : World) :
  fst (Manager_send_assignment a worker (m, w)) = Return tt ->
  exists port,
    py_int worker = Return port /\ 0 <= port <= 65535 /\
    snd (Manager_send_assignment a worker (m, w))
    = (let pb := set_next (Z.max (next (Manager_problem m)) (snd a)) (Manager_problem m) in
       set_problem
         (set_busy_workers (dict_set worker (assignment_text a) (busy_workers pb))
            (set_pending (dict_set (assignment_text a) (clock w (ticks w)) (pending pb)) pb))
         m,
       set_ticks (S (ticks w)) (set_outbox (outbox w ++ [(assignment_text a, port)]) w)).
Proof.
  rewrite send_assignment_eq. cbv zeta.
  destruct (py_int worker) as [port|e]; [|discriminate].
  destruct ((port <? 0) || (65535 <? port)) eqn:Hport; [discriminate|].
  apply orb_false_iff in Hport as [Hlo Hhi]. apply Z.ltb_ge in Hlo, Hhi.
  destruct (snd a >? next (Manager_problem m)) eqn:Hgt;
    rewrite Z.gtb_ltb in Hgt; [apply Z.ltb_lt in Hgt|apply Z.ltb_ge in Hgt].
  - destruct (fst a =? next (Manager_problem m)); [|discriminate].
    intros _. exists port. rewrite Z.max_r by lia. repeat split; lia.
  - intros _. exists port. rewrite Z.max_l by lia. rewrite set_next_same.
    repeat split; lia.
Qed.

(** X9: what [_send_assignment] leaves behind when it returns. The
    datagram with the text of the range went to the port the worker is
    named after; the range is in [pending] under that text with the time
    read at the sending; the worker is in [busy_workers] with the text;
    [next] is the larger of what it was and the end of the range; and
    [finished] is as it was. So a range that was sent is tracked. *)
Theorem send_assignment_tracks (a : Z * Z) (worker : string) (s : MState) :
  fst (Manager_send_assignment a worker s) = Return tt ->
  let s' := snd (Manager_send_assignment a worker s) in
  exists port,
    py_int worker = Return port /\ 0 <= port <= 65535 /\
    outbox (snd s') = outbox (snd s) ++ [(assignment_text a, port)] /\
    dict_get (assignment_text a) (pending (problem_of s'))
    = Some (clock (snd s) (ticks (snd s))) /\
    dict_get worker (busy_workers (problem_of s')) = Some (assignment_text a) /\
    next (problem_of s') = Z.max (next (problem_of s)) (snd a) /\
    finished (problem_of s') = finished (problem_of s).
Proof.
  destruct s as [m w]. intros Hret. cbv zeta.
  destruct (send_assignment_returned a worker m w Hret) as (port & Hport & Hrange & ->).
  exists port. unfold problem_of.
  cbn [fst snd set_problem Manager_problem pending busy_workers next finished
       set_pending set_busy_workers set_next outbox set_ticks set_outbox].
  rewrite !dict_get_set_same. repeat split; try assumption; lia.
Qed.

Lemma send_assignment_tracks_witness :
  exists port,
    py_int "5002" = Return port /\ 0 <= port <= 65535 /\
    outbox (snd (snd (Manager_send_assignment (0, 1000) "5002"
                        (fresh_manager, world_of_inbox brisk_clock []))))
    = outbox (world_of_inbox brisk_clock []) ++ [(assignment_text (0, 1000), port)].
Proof.
  destruct (send_assignment_tracks (0, 1000) "5002"
              (fresh_manager, world_of_inbox brisk_clock []) eq_refl)
    as (port & H1 & H2 & H3 & _).
  exists port. repeat split; try assumption; apply H2.
Defined.

(** ** One pass over the free workers: what is sent is tracked *)

(** [_get_assignment] changes nothing but the count of clock readings,
    whether it returns or raises. *)
Lemma get_assignment_frame (s : MState) :
  exists w',
    snd (Manager_get_assignment s) = (fst s, w') /\
    outbox w' = outbox (snd s) /\ clock w' = clock (snd s) /\
    (ticks (snd s) <= ticks w')%nat.
Proof.
  unfold Manager_get_assignment, bind at 1, get.
  destruct (first_stalled_spec (Manager_resp_wait_time (fst s)) (pending (problem_of s)) s)
    as (r & w' & Heq & Ho & Hc & Ht & _).
  unfold bind at 1. rewrite Heq. exists w'.
  destruct r as [k|]; [|repeat split; assumption].
  unfold bind, lift, ret.
  destruct (item (split_comma k) 0) as [r0|]; [|repeat split; assumption].
  destruct (py_int r0); [|repeat split; assumption].
  destruct (item (split_comma k) 1) as [r1|]; [|repeat split; assumption].
  destruct (py_int r1); repeat split; assumption.
Qed.

(** [_send_assignment] removes no key from [pending] or [busy_workers],
    however it ends. *)
Lemma send_assignment_keeps (a : Z * Z) (worker k : string) (s : MState) :
  (dict_contains k (pending (problem_of s)) = true ->
   dict_contains k (pending (problem_of (snd (Manager_send_assignment a worker s)))) = true) /\
  (dict_contains k (busy_workers (problem_of s)) = true ->
   dict_contains k (busy_workers (problem_of (snd (Manager_send_assignment a worker s))))
   = true).
Proof.
  destruct s as [m w]. rewrite send_assignment_eq. cbv zeta. unfold problem_of.
  destruct (py_int worker) as [port|e]; [|split; trivial].
  destruct ((port <? 0) || (65535 <? port)); [split; trivial|].
  destruct (snd a >? next (Manager_problem m)).
  - destruct (fst a =? next (Manager_problem m)); [|split; trivial].
    cbn [fst snd Manager_problem set_problem pending busy_workers set_pending
         set_busy_workers set_next].
    rewrite !dict_contains_set. split; intros ->; apply orb_true_r.
  - cbn [fst snd Manager_problem set_problem pending busy_workers set_pending
         set_busy_workers set_next].
    rewrite !dict_contains_set. split; intros ->; apply orb_true_r.
Qed.

Lemma assign_all_cons (worker : string) (rest : list string) (assigned : Z) (s : MState) :
  assign_all (worker :: rest) assigned s =
  match Manager_get_assignment s with
  | (Return a, s1) =>
      match Manager_send_assignment a worker s1 with
      | (Return _, s2) => assign_all rest (assigned + 1) s2
      | (Raise e, s2) => (Raise e, s2)
      end
  | (Raise e, s1) => (Raise e, s1)
  end.
Proof. reflexivity. Qed.

Lemma assign_all_keeps (free_workers : list string) (k : string) :
  forall (assigned : Z) (s : MState),
    (dict_contains k (pending (problem_of s)) = true ->
     dict_contains k (pending (problem_of (snd (assign_all free_workers assigned s)))) = true) /\
    (dict_contains k (busy_workers (problem_of s)) = true ->
     dict_contains k (busy_workers (problem_of (snd (assign_all free_workers assigned s))))
     = true).
Proof.
  induction free_workers as [|worker rest IH]; intros assigned s; [split; trivial|].
  rewrite assign_all_cons.
  destruct (get_assignment_frame s) as (w1 & Hs1 & _).
  destruct (Manager_get_assignment s) as [[a|e] s1]; cbn [snd] in Hs1; subst s1;
    [|split; trivial].
  pose proof (send_assignment_keeps a worker k (fst s, w1)) as [Hp Hb].
  destruct (Manager_send_assignment a worker (fst s, w1)) as [[[]|e] s2]; cbn [snd] in *.
  - destruct (IH (assigned + 1) s2) as [Hp' Hb'].
    split; intros H; [apply Hp', Hp|apply Hb', Hb]; exact H.
  - split; intros H; [apply Hp|apply Hb]; exact H.
Qed.

(** X10: a pass over the free workers that returns has sent one
    datagram to each of them, in order, to the port the worker is named
    after, and counts them; and at the end of the pass every text sent
    is a key of [pending] and every one of the workers a key of
    [busy_workers]: what was handed out is on record before the record
    is saved. *)
Theorem pass_tracks_what_it_sends
    (free_workers : list string) (assigned n : Z) (s : MState) :
  fst (assign_all free_workers assigned s) = Return n ->
  let s' := snd (assign_all free_workers assigned s) in
  n = assigned + Z.of_nat (List.length free_workers) /\
  exists sent,
    outbox (snd s') = outbox (snd s) ++ sent /\
    Forall2 (fun worker e => py_int worker = Return (snd e)) free_workers sent /\
    Forall (fun e => dict_contains (fst e) (pending (problem_of s')) = true) sent /\
    Forall (fun worker => dict_contains worker (busy_workers (problem_of s')) = true)
           free_workers.
Proof.
  revert assigned s. induction free_workers as [|worker rest IH]; intros assigned s.
  - cbn. intros H. injection H as <-. split; [lia|].
    exists []. rewrite app_nil_r. repeat split; constructor.
  - rewrite assign_all_cons.
    destruct (get_assignment_frame s) as (w1 & Hs1 & Ho1 & _).
    destruct (Manager_get_assignment s) as [[a|e] s1]; cbn [snd] in Hs1; subst s1;
      [|discriminate].
    pose proof (send_assignment_returned a worker (fst s) w1) as Hsend.
    destruct (Manager_send_assignment a worker (fst s, w1)) as [[[]|e] s2]; [|discriminate].
    cbn [fst snd] in Hsend. destruct (Hsend eq_refl) as (port & Hport & _ & Hs2).
    assert (Hout : outbox (snd s2) = outbox w1 ++ [(assignment_text a, port)])
      by (rewrite Hs2; reflexivity).
    assert (Hpend : dict_contains (assignment_text a) (pending (problem_of s2)) = true).
    { rewrite Hs2. unfold problem_of.
      cbn [fst snd set_problem Manager_problem pending set_pending set_busy_workers].
      rewrite dict_contains_set, String.eqb_refl. reflexivity. }
    assert (Hbusy : dict_contains worker (busy_workers (problem_of s2)) = true).
    { rewrite Hs2. unfold problem_of.
      cbn [fst snd set_problem Manager_problem busy_workers set_busy_workers].
      rewrite dict_contains_set, String.eqb_refl. reflexivity. }
    intros Hrest. destruct (IH (assigned + 1) s2 Hrest) as (Hn & sent & Hout' & Hports & Hp & Hb).
    split; [rewrite Hn; cbn [List.length]; lia|].
    exists ((assignment_text a, port) :: sent). repeat split.
    + rewrite Hout', Hout, Ho1, <- app_assoc. reflexivity.
    + constructor; [exact Hport|exact Hports].
    + constructor; [|exact Hp]. cbn [fst].
      apply (proj1 (assign_all_keeps rest (assignment_text a) (assigned + 1) s2)).
      exact Hpend.
    + constructor; [|exact Hb].
      apply (proj2 (assign_all_keeps rest worker (assigned + 1) s2)).
      exact Hbusy.
Qed.

Lemma pass_tracks_what_it_sends_witness :
  exists sent,
    outbox (snd (snd (assign_all ["5002"; "5003"] 0
                        (fresh_manager, world_of_inbox brisk_clock []))))
    = outbox (world_of_inbox brisk_clock []) ++ sent /\
    Forall2 (fun worker e => py_int worker = Return (snd e)) ["5002"; "5003"] sent.
Proof.
  destruct (pass_tracks_what_it_sends ["5002"; "5003"] 0 2
              (fresh_manager, world_of_inbox brisk_clock []) eq_refl)
    as (_ & sent & H1 & H2 & _).
  exists sent. split; [exact H1|exact H2].
Defined.

(** ** The drain changes the record by three updates only *)

Lemma set_problem_same (m : Manager) : set_problem (Manager_problem m) m = m.
Proof. now destruct m. Qed.

Lemma drained_trans (a b c : ProblemState) : drained a b -> drained b c -> drained a c.
Proof.
  intros Hab Hbc. induction Hbc as [|b b1 b2 _ IH Hstep]; [exact Hab|].
  eapply drained_step; [apply IH; exact Hab|exact Hstep].
Qed.

Lemma record_result_drains (msg : string) (s : MState) :
  exists pb',
    snd (record_result msg s) = (set_problem pb' (fst s), snd s) /\
    drained (problem_of s) pb'.
Proof.
  rewrite record_result_eq. destruct s as [m w]. unfold problem_of, with_problem. cbn [fst snd].
  assert (Hsame : exists pb', (m, w) = (set_problem pb' m, w) /\ drained (Manager_problem m) pb').
  { exists (Manager_problem m). rewrite set_problem_same. split; [reflexivity|constructor]. }
  destruct (split_comma msg) as [|lower [|higher [|count [|worker [|x l]]]]]; try exact Hsame.
  cbv zeta. destruct (dict_contains worker _); [|exact Hsame].
  set (pb1 := set_busy_workers (dict_del worker (busy_workers (Manager_problem m)))
                (Manager_problem m)).
  assert (H1 : drained (Manager_problem m) pb1).
  { eapply drained_step; [constructor|constructor]. }
  destruct (dict_contains _ (pending _)).
  - destruct (py_int count) as [c|e]; cbn [snd].
    + eexists. split; [reflexivity|].
      eapply drained_step; [eapply drained_step; [exact H1|apply (add_count pb1 c)]|].
      apply (forget_range (set_finished (finished pb1 + c) pb1)).
    + exists pb1. split; [reflexivity|exact H1].
  - exists pb1. split; [reflexivity|exact H1].
Qed.

Lemma recv_loop_drains (fuel : nat) (msg : string) (s : MState) :
  exists pb',
    fst (snd (recv_loop fuel msg s)) = set_problem pb' (fst s) /\
    drained (problem_of s) pb'.
Proof.
  revert msg s. induction fuel as [|fuel IH]; intros msg s.
  - cbn [recv_loop]. exists (problem_of s). unfold problem_of.
    destruct (0 <? String.length msg)%nat; cbn; rewrite set_problem_same;
      split; try reflexivity; constructor.
  - cbn [recv_loop]. destruct (0 <? String.length msg)%nat.
    2:{ exists (problem_of s). unfold problem_of. cbn. rewrite set_problem_same.
        split; [reflexivity|constructor]. }
    unfold bind at 1.
    destruct (record_result_drains msg s) as (pb1 & Hs1 & Hd1).
    destruct (record_result msg s) as [[[]|e] s1]; cbn [snd] in Hs1; subst s1.
    2:{ exists pb1. split; [reflexivity|exact Hd1]. }
    unfold bind, in_env, sock_recv. cbn [fst snd].
    destruct (inbox (snd s)) as [|msg' rest].
    + exists pb1. split; [|exact Hd1].
      destruct (sock_timeout (snd s)) as [t|]; [destruct (PrimFloat.eqb t 0)|]; reflexivity.
    + destruct (IH (string_take 1024 msg') (set_problem pb1 (fst s), set_inbox rest (snd s)))
        as (pb2 & Hs2 & Hd2).
      exists pb2. rewrite Hs2. cbn [fst]. split.
      * now destruct (fst s).
      * eapply drained_trans; [exact Hd1|]. unfold problem_of in Hd2. cbn [fst] in Hd2.
        now destruct (fst s).
Qed.

(** [_recv_results] leaves the manager as it was but for the record,
    and the record changed by updates of the drain only. *)
Lemma recv_results_drains (s : MState) :
  exists pb',
    fst (snd (Manager_recv_results s)) = set_problem pb' (fst s) /\
    drained (problem_of s) pb'.
Proof.
  rewrite recv_results_manager. unfold bind, in_env, sock_recv. cbn [fst snd].
  destruct (inbox (snd s)) as [|msg rest].
  - exists (problem_of s). unfold problem_of. rewrite set_problem_same.
    split; [|constructor].
    destruct (sock_timeout (snd s)) as [t|]; [destruct (PrimFloat.eqb t 0)|]; reflexivity.
  - destruct (recv_loop_drains (S (List.length (msg :: rest))) (string_take 1024 msg)
                (fst s, set_inbox rest (snd s))) as (pb' & H1 & H2).
    exists pb'. split; [exact H1|exact H2].
Qed.

(** The drain is never ended by an [AssertionError]: the one the report
    of an unknown worker raises is caught and printed. *)
Lemma recv_results_no_AssertionError (s : MState) (e : exn) :
  fst (Manager_recv_results s) = Raise e -> e <> AssertionError.
Proof.
  unfold Manager_recv_results, try_except2.
  destruct ((msg <- in_env (sock_recv 1024) ;;
             recv_loop (S (List.length (inbox (snd s)))) msg)%monad s) as [[[]|e0] s1];
    [discriminate|].
  destruct (is_socket_error e0).
  - destruct (match errno_of e0 with Some n => negb (n =? 35) | None => true end); discriminate.
  - destruct (is_Exception e0) eqn:E; [discriminate|].
    cbn [fst]. intros H. injection H as <-. intros ->. discriminate E.
Qed.

(** ** No number is skipped *)

Lemma covered_canonical (pb : ProblemState) : covered pb -> canonical (pending pb).
Proof. intros H k ts Hin. destruct (H k ts Hin) as (a & Ha & _). now exists a. Qed.

Lemma dict_del_in {V : Type} (k k' : string) (v : V) (d : dict V) :
  In (k', v) (dict_del k d) -> In (k', v) d.
Proof. unfold dict_del. intros H. now apply filter_In in H as [H _]. Qed.

Lemma drain_step_covered (pb pb' : ProblemState) :
  drain_step pb pb' -> covered pb -> covered pb' /\ next pb' = next pb.
Proof.
  intros [pb0 worker|pb0 c|pb0 a] Hc; (split; [|reflexivity]); intros k ts Hin;
    cbn in Hin |- *; try exact (Hc k ts Hin).
  apply dict_del_in in Hin. exact (Hc k ts Hin).
Qed.

Lemma drained_covered (pb pb' : ProblemState) :
  drained pb pb' -> covered pb -> covered pb' /\ next pb' = next pb.
Proof.
  intros Hd Hc. induction Hd as [|pb pb1 pb2 _ IH Hstep]; [split; [exact Hc|reflexivity]|].
  destruct (IH Hc) as [Hc1 Hn1].
  destruct (drain_step_covered pb1 pb2 Hstep Hc1) as [Hc2 Hn2].
  split; [exact Hc2|congruence].
Qed.

(** [_send_assignment] on a range that [_get_assignment] chose from a
    covered record: the assertion holds, and the record stays covered. *)
Lemma send_assignment_covered (a : Z * Z) (worker : string) (m : Manager) (w : World) :
  covered (Manager_problem m) ->
  (exists ts, In (assignment_text a, ts) (pending (Manager_problem m)))
  \/ (fst a = next (Manager_problem m) /\ fst a <= snd a) ->
  let r := Manager_send_assignment a worker (m, w) in
  covered (problem_of (snd r)) /\
  next (Manager_problem m) <= next (problem_of (snd r)) /\
  Manager_assignment_range (fst (snd r)) = Manager_assignment_range m /\
  match fst r with
  | Return _ => True
  | Raise e => e = ValueError \/ e = OverflowError
  end.
Proof.
  intros Hc Ha. cbv zeta. rewrite send_assignment_eq. unfold problem_of.
  destruct (py_int worker) as [port|e] eqn:Hport.
  2:{ apply py_int_raises in Hport. subst e. cbn. repeat split; [exact Hc|lia|now left]. }
  destruct ((port <? 0) || (65535 <? port)).
  1:{ cbn. repeat split; [exact Hc|lia|now right]. }
  cbv zeta.
  assert (Hend : snd a <= Z.max (next (Manager_problem m)) (snd a)) by lia.
  assert (Hfinish : forall pb, pending pb = pending (Manager_problem m) ->
            next (Manager_problem m) <= next pb -> snd a <= next pb ->
            covered (set_busy_workers (dict_set worker (assignment_text a) (busy_workers pb))
                       (set_pending (dict_set (assignment_text a) (clock w (ticks w))
                                       (pending pb)) pb))).
  { intros pb Hp Hn Hle k ts Hin. cbn in Hin |- *.
    apply dict_set_in in Hin as [[-> _]|[_ Hin]].
    - exists a. split; [reflexivity|exact Hle].
    - rewrite Hp in Hin. destruct (Hc k ts Hin) as (a' & Hk & Hle').
      exists a'. split; [exact Hk|lia]. }
  destruct (snd a >? next (Manager_problem m)) eqn:Hgt.
  - rewrite Z.gtb_ltb in Hgt. apply Z.ltb_lt in Hgt.
    destruct Ha as [[ts Hin]|[Hfst _]].
    + destruct (Hc _ _ Hin) as (a' & Heq & Hle).
      apply assignment_text_inj in Heq. subst a'. lia.
    + rewrite Hfst, Z.eqb_refl. cbn [fst snd set_problem Manager_problem
        Manager_assignment_range].
      repeat split; [apply Hfinish; cbn; [reflexivity|lia|lia]|cbn; lia].
  - rewrite Z.gtb_ltb in Hgt. apply Z.ltb_ge in Hgt.
    cbn [fst snd set_problem Manager_problem Manager_assignment_range].
    repeat split; [apply Hfinish; [reflexivity|lia|lia]|cbn; lia].
Qed.

Lemma assign_all_covered (free_workers : list string) :
  forall (assigned : Z) (s : MState),
    covered (problem_of s) -> 0 <= Manager_assignment_range (fst s) ->
    let r := assign_all free_workers assigned s in
    covered (problem_of (snd r)) /\
    next (problem_of s) <= next (problem_of (snd r)) /\
    match fst r with
    | Return _ => True
    | Raise e => e = ValueError \/ e = OverflowError
    end.
Proof.
  induction free_workers as [|worker rest IH]; intros assigned s Hc Hrng; cbv zeta.
  - cbn. repeat split; [exact Hc|lia].
  - rewrite assign_all_cons.
    destruct (get_assignment_cases s (covered_canonical _ Hc))
      as (a & w1 & Heq & _ & _ & _ & Hcase).
    rewrite Heq.
    assert (Ha : (exists ts, In (assignment_text a, ts) (pending (Manager_problem (fst s))))
                 \/ (fst a = next (Manager_problem (fst s)) /\ fst a <= snd a)).
    { destruct Hcase as [(ts & j & Hin & _)| ->]; [left; now exists ts|right].
      unfold problem_of. cbn. split; [reflexivity|lia]. }
    pose proof (send_assignment_covered a worker (fst s) w1 Hc Ha) as Hsend.
    cbv zeta in Hsend.
    destruct (Manager_send_assignment a worker (fst s, w1)) as [[[]|e] s2];
      cbn [fst snd] in Hsend; destruct Hsend as (Hc2 & Hn2 & Hr2 & He2).
    + destruct (IH (assigned + 1) s2 Hc2) as (Hc3 & Hn3 & He3); [rewrite Hr2; exact Hrng|].
      repeat split; [exact Hc3| |exact He3]. unfold problem_of in *. lia.
    + cbn [fst snd]. repeat split; [exact Hc2|exact Hn2|exact He2].
Qed.

(** One iteration of the manager's loop, step by step. *)
Lemma manager_iteration_eq (fr : float -> string) (fos : string -> option float) (assigned : Z) (s : MState) :
  manager_iteration fr fos assigned s =
  match Manager_recv_results s with
  | (Raise e, s1) => (Raise e, s1)
  | (Return _, s1) =>
      match active_players Caller (Manager_workers (fst s1)) (snd s1) with
      | (Raise e, w2) => (Raise e, (fst s1, w2))
      | (Return players, w2) =>
          match free_workers_of players (Manager_problem (fst s1)) with
          | Raise e => (Raise e, (fst s1, w2))
          | Return free_workers =>
              match assign_all free_workers assigned (fst s1, w2) with
              | (Raise e, s3) => (Raise e, s3)
              | (Return n, s3) =>
                  match ProblemState_save fr fos (Manager_problem (fst s3)) (snd s3) with
                  | (Raise e, w4) => (Raise e, (fst s3, w4))
                  | (Return _, w4) => (Return n, (fst s3, w4))
                  end
              end
          end
      end
  end.
Proof.
  unfold manager_iteration. unfold bind at 1.
  destruct (Manager_recv_results s) as [[[]|e] [m1 w1]]; [|reflexivity].
  unfold bind at 1, get. unfold bind at 1, in_env at 1. cbn [fst snd].
  destruct (active_players Caller (Manager_workers m1) w1) as [[players|e] w2]; [|reflexivity].
  unfold bind at 1. unfold bind at 1, lift at 1, problem_of at 1. cbn [fst snd].
  destruct (free_workers_of players (Manager_problem m1)) as [fw|e]; [|reflexivity].
  unfold bind at 1.
  destruct (assign_all fw assigned (m1, w2)) as [[n|e] [m3 w3]]; [|reflexivity].
  unfold bind at 1. unfold bind at 1, in_env at 1, problem_of. cbn [fst snd].
  destruct (ProblemState_save fr fos (Manager_problem m3) w3) as [[b|e] w4]; reflexivity.
Qed.

Lemma active_players_no_AssertionError (who : issuer) (self : Role) (w : World) (e : exn) :
  fst (active_players who self w) = Raise e -> e <> AssertionError.
Proof.
  unfold active_players, RegistryClient_read_role, http.
  destruct (script w) as [|[status body|] rest]; cbn; try congruence.
  destruct (status =? 200); [destruct body|]; cbn; congruence.
Qed.

Lemma save_no_AssertionError (fr : float -> string) (fos : string -> option float) (pb : ProblemState) (w : World) (e : exn) :
  fst (ProblemState_save fr fos pb w) = Raise e -> e <> AssertionError.
Proof.
  destruct (save_cases fr fos pb w) as [H|[[status H]|[H|H]]]; rewrite H; cbn [fst];
    intros Heq; inversion Heq; discriminate.
Qed.

(** ** Worker.do_work *)

(** The body of the [try] of [Worker.do_work] on a queued datagram,
    step by step. *)
Lemma worker_attempt_eq (self : Worker) (solved : Z) (w : World) (msg : string)
    (more : list string) :
  inbox w = msg :: more ->
  worker_attempt self solved w =
  let w1 := set_inbox more w in
  let m := string_take 1024 msg in
  if (0 <? String.length m)%nat then
    match item (split_comma m) 0 with
    | Raise e => (Raise e, w1)
    | Return p0 =>
        match py_int p0 with
        | Raise e => (Raise e, w1)
        | Return lower =>
            match item (split_comma m) 1 with
            | Raise e => (Raise e, w1)
            | Return p1 =>
                match py_int p1 with
                | Raise e => (Raise e, w1)
                | Return higher =>
                    match active_players Caller (Worker_manager self) w1 with
                    | (Raise e, w2) => (Raise e, w2)
                    | (Return None, w2) => (Raise TypeError, w2)
                    | (Return (Some [player]), w2) =>
                        match py_int player with
                        | Raise e => (Raise e, w2)
                        | Return port =>
                            match sock_sendto
                                    (result_text lower higher (count_range lower higher)
                                       (Worker_name self)) port w2 with
                            | (Return _, w3) => (Return (solved + 1), w3)
                            | (Raise e, w3) => (Raise e, w3)
                            end
                        end
                    | (Return (Some _), w2) => (Return solved, w2)
                    end
                end
            end
        end
    end
  else (Return solved, w1).
Proof.
  intros Hin. unfold worker_attempt. unfold bind at 1, sock_recv. rewrite Hin. cbv zeta.
  destruct (0 <? String.length (string_take 1024 msg))%nat; [|reflexivity].
  unfold bind at 1, lift at 1.
  destruct (item (split_comma (string_take 1024 msg)) 0) as [p0|e]; [|reflexivity].
  unfold bind at 1, lift at 1. destruct (py_int p0) as [lower|e]; [|reflexivity].
  unfold bind at 1, lift at 1.
  destruct (item (split_comma (string_take 1024 msg)) 1) as [p1|e]; [|reflexivity].
  unfold bind at 1, lift at 1. destruct (py_int p1) as [higher|e]; [|reflexivity].
  unfold bind at 1.
  destruct (active_players Caller (Worker_manager self) (set_inbox more w))
    as [[[[|player [|p2 ps]]|]|e] w2]; reflexivity.
Qed.

Lemma active_players_answer (who : issuer) (self : Role) (w : World)
    (ps : list (string * Z)) (rest : list Response) :
  script w = HttpResponse 200 (JsonPlayers ps) :: rest ->
  active_players who self w
  = (Return (Some (unexpired ps)), snd (http who (GetRole (role_path self)) w)).
Proof.
  intros Hs. unfold active_players, RegistryClient_read_role, http. rewrite Hs. reflexivity.
Qed.

(** X12: a worker that has received the datagram of a range and finds
    exactly one player in the manager role sends that player, at the
    port it is named after, the report made of the two bounds, the count
    of the numbers from the lower bound up to but not including the
    higher one (none when the bounds are reversed) and its own name, and
    counts one assignment solved. *)
Theorem worker_reports_to_sole_manager
    (self : Worker) (solved lo hi port : Z) (w : World) (more : list string)
    (ps : list (string * Z)) (rest : list Response) (manager : string) :
  inbox w = assignment_text (lo, hi) :: more ->
  (String.length (assignment_text (lo, hi)) <= 1024)%nat ->
  script w = HttpResponse 200 (JsonPlayers ps) :: rest ->
  unexpired ps = [manager] ->
  py_int manager = Return port -> 0 <= port <= 65535 ->
  fst (worker_attempt self solved w) = Return (solved + 1) /\
  outbox (snd (worker_attempt self solved w))
  = outbox w ++ [(result_text lo hi (Z.max 0 (hi - lo)) (Worker_name self), port)] /\
  inbox (snd (worker_attempt self solved w)) = more.
Proof.
  intros Hin Hlen Hs Hone Hport Hrange.
  rewrite (worker_attempt_eq self solved w _ more Hin). cbv zeta.
  rewrite (string_take_all _ _ Hlen), assignment_text_nonempty, split_comma_assignment.
  cbn [item nth_error fst snd]. rewrite !py_int_py_str.
  rewrite (active_players_answer Caller (Worker_manager self) (set_inbox more w) ps rest)
    by exact Hs.
  rewrite Hone, Hport. unfold sock_sendto.
  assert (Hok : (port <? 0) || (65535 <? port) = false).
  { apply orb_false_iff. split; apply Z.ltb_ge; lia. }
  rewrite Hok. cbn [fst snd]. unfold count_range, set_outbox. cbn [outbox inbox].
  destruct (http_eq Caller (GetRole (role_path (Worker_manager self))) (set_inbox more w))
    as (_ & _ & _ & _ & Hi & Ho & _).
  rewrite Hi, Ho. repeat split.
Qed.

Lemma worker_reports_to_sole_manager_witness :
  outbox (snd (worker_attempt worker_5002 0
                 (world_at_1000 [HttpResponse 200 (JsonPlayers [("5001", 4000)])]
                                ["0,1000"])))
  = [("0,1000,1000,5002", 5001)].
Proof.
  destruct (worker_reports_to_sole_manager worker_5002 0 0 1000 5001
              (world_at_1000 [HttpResponse 200 (JsonPlayers [("5001", 4000)])] ["0,1000"])
              [] [("5001", 4000)] [] "5001") as (_ & H & _);
    [reflexivity|apply Nat.leb_le; reflexivity|reflexivity|reflexivity|reflexivity|lia|].
  exact H.
Defined.

(** X13: a worker that has worked on a range but does not find exactly
    one player in the manager role (none, or more than one) sends no
    report: the datagram is used up, nothing leaves the socket and the
    count of solved assignments stays, so the result is lost without a
    trace. *)
Theorem worker_drops_result_without_sole_manager
    (self : Worker) (solved lo hi : Z) (w : World) (more : list string)
    (ps : list (string * Z)) (rest : list Response) :
  inbox w = assignment_text (lo, hi) :: more ->
  (String.length (assignment_text (lo, hi)) <= 1024)%nat ->
  script w = HttpResponse 200 (JsonPlayers ps) :: rest ->
  List.length (unexpired ps) <> 1%nat ->
  fst (worker_attempt self solved w) = Return solved /\
  outbox (snd (worker_attempt self solved w)) = outbox w /\
  inbox (snd (worker_attempt self solved w)) = more.
Proof.
  intros Hin Hlen Hs Hmany.
  rewrite (worker_attempt_eq self solved w _ more Hin). cbv zeta.
  rewrite (string_take_all _ _ Hlen), assignment_text_nonempty, split_comma_assignment.
  cbn [item nth_error fst snd]. rewrite !py_int_py_str.
  rewrite (active_players_answer Caller (Worker_manager self) (set_inbox more w) ps rest)
    by exact Hs.
  destruct (http_eq Caller (GetRole (role_path (Worker_manager self))) (set_inbox more w))
    as (_ & _ & _ & _ & Hi & Ho & _).
  destruct (unexpired ps) as [|p1 [|p2 l]]; cbn [fst snd];
    try (now rewrite Hi, Ho); contradiction Hmany; reflexivity.
Qed.

Lemma worker_drops_result_without_sole_manager_witness :
  fst (worker_attempt worker_5002 0
         (world_at_1000 [HttpResponse 200 (JsonPlayers [("5001", 4000); ("5007", 9000)])]
                        ["0,1000"]))
  = Return 0 /\
  outbox (snd (worker_attempt worker_5002 0
         (world_at_1000 [HttpResponse 200 (JsonPlayers [("5001", 4000); ("5007", 9000)])]
                        ["0,1000"])))
  = [].
Proof.
  destruct (worker_drops_result_without_sole_manager worker_5002 0 0 1000
              (world_at_1000 [HttpResponse 200 (JsonPlayers [("5001", 4000); ("5007", 9000)])]
                             ["0,1000"])
              [] [("5001", 4000); ("5007", 9000)] []) as (H1 & H2 & _);
    [reflexivity|apply Nat.leb_le; reflexivity|reflexivity|discriminate|].
  split; [exact H1|exact H2].
Defined.

(** A datagram that does not name a range makes the body of the [try]
    raise [ValueError] or [IndexError] before anything is sent. *)
Lemma worker_attempt_malformed (self : Worker) (solved : Z) (w : World) (msg : string)
    (more : list string) :
  inbox w = msg :: more ->
  (0 < String.length msg <= 1024)%nat ->
  names_a_range msg = false ->
  fst (worker_attempt self solved w) = Raise ValueError \/
  fst (worker_attempt self solved w) = Raise IndexError.
Proof.
  intros Hin [Hpos Hlen] Hbad.
  rewrite (worker_attempt_eq self solved w _ more Hin). cbv zeta.
  rewrite (string_take_all _ _ Hlen).
  apply Nat.ltb_lt in Hpos. rewrite Hpos.
  unfold names_a_range in Hbad. unfold item.
  destruct (split_comma msg) as [|lower [|higher l]]; cbn [nth_error].
  - now right.
  - destruct (py_int lower) as [lo|e] eqn:E; [now right|].
    apply py_int_raises in E. subst e. now left.
  - destruct (py_int lower) as [lo|e] eqn:E.
    + destruct (py_int higher) as [hi|e] eqn:E'; [discriminate Hbad|].
      apply py_int_raises in E'. subst e. now left.
    + apply py_int_raises in E. subst e. now left.
Qed.

(** An exception of the body of the [try] other than [socket.timeout]
    leaves [Worker.do_work]. *)
Lemma worker_do_work_raises
    (self : Worker) (w : World) (fuel : nat) (t_end : float) (n : nat) (e : exn) :
  fst (keep_working (Worker_role self) t_end w) = Return true ->
  snd (keep_working (Worker_role self) t_end w) = set_ticks n w ->
  fst (worker_attempt self 0 (sock_settimeout 0.4 (set_ticks n w))) = Raise e ->
  e <> SocketTimeout ->
  fst (Worker_do_work (S fuel) self t_end w) = Raise e.
Proof.
  intros Hgo Hw1 He Hne. unfold Worker_do_work. cbn [worker_loop].
  unfold bind at 1.
  destruct (keep_working (Worker_role self) t_end w) as [go w1].
  cbn [fst snd] in *. subst go w1.
  unfold bind at 1, modify. unfold bind at 1, try_except.
  destruct (worker_attempt self 0 (sock_settimeout 0.4 (set_ticks n w))) as [r w2].
  cbn [fst] in He. subst r. destruct e; try reflexivity. contradiction Hne. reflexivity.
Qed.

(** X14: one datagram that does not name a range stops a worker. When
    [Worker.do_work] enters its loop and the datagram next in line is
    not empty and does not begin with two integers between commas,
    [do_work] raises [ValueError] or [IndexError]: the [try] of the loop
    catches [socket.timeout] only. *)
Theorem malformed_datagram_stops_worker
    (self : Worker) (w : World) (fuel : nat) (t_end : float) (msg : string)
    (more : list string) :
  inbox w = msg :: more ->
  (0 < String.length msg <= 1024)%nat ->
  names_a_range msg = false ->
  fst (keep_working (Worker_role self) t_end w) = Return true ->
  fst (Worker_do_work (S fuel) self t_end w) = Raise ValueError \/
  fst (Worker_do_work (S fuel) self t_end w) = Raise IndexError.
Proof.
  intros Hin Hlen Hbad Hgo.
  destruct (keep_working_frame (Worker_role self) t_end w) as [n Hw1].
  destruct (worker_attempt_malformed self 0 (sock_settimeout 0.4 (set_ticks n w)) msg more
              Hin Hlen Hbad) as [H|H]; [left|right];
    apply (worker_do_work_raises self w fuel t_end n); try assumption; discriminate.
Qed.

Lemma malformed_datagram_stops_worker_witness :
  fst (Worker_do_work 1 worker_5002 1010%float (world_at_1000 [] ["stop"]))
  = Raise ValueError \/
  fst (Worker_do_work 1 worker_5002 1010%float (world_at_1000 [] ["stop"]))
  = Raise IndexError.
Proof.
  apply (malformed_datagram_stops_worker worker_5002 (world_at_1000 [] ["stop"]) O
           1010%float "stop" []);
    [reflexivity|cbn; lia|reflexivity|reflexivity].
Defined.

(** ** From the assignment to the count *)

(** X15: the messages of the manager and of a worker fit together. When
    [_send_assignment] has sent a range to a worker (whose name holds no
    comma), the datagram sent is one the worker can work on, and the
    report the worker makes of it is one the manager's drain
    takes: [record_result] returns, frees the worker, takes the range
    off [pending] and adds to [finished] the count of the numbers of the
    range. *)
Theorem report_of_assignment_is_counted
    (s : MState) (lo hi : Z) (worker : string) :
  fst (Manager_send_assignment (lo, hi) worker s) = Return tt ->
  no_comma worker = true ->
  let s1 := snd (Manager_send_assignment (lo, hi) worker s) in
  let report := result_text lo hi (Z.max 0 (hi - lo)) worker in
  let s2 := snd (record_result report s1) in
  (exists port, outbox (snd s1) = outbox (snd s) ++ [(assignment_text (lo, hi), port)]) /\
  names_a_range (assignment_text (lo, hi)) = true /\
  fst (record_result report s1) = Return tt /\
  finished (problem_of s2) = finished (problem_of s) + Z.max 0 (hi - lo) /\
  dict_contains (assignment_text (lo, hi)) (pending (problem_of s2)) = false /\
  dict_contains worker (busy_workers (problem_of s2)) = false /\
  next (problem_of s2) = Z.max (next (problem_of s)) hi.
Proof.
  destruct s as [m w]. intros Hsent Hname. cbv zeta.
  destruct (send_assignment_returned (lo, hi) worker m w Hsent) as (port & _ & _ & ->).
  cbv zeta. split; [now exists port|]. split.
  { unfold names_a_range. rewrite split_comma_assignment. cbn [fst snd].
    now rewrite !py_int_py_str. }
  rewrite record_result_eq, split_comma_result by exact Hname. cbv zeta.
  unfold problem_of, with_problem.
  cbn [fst snd set_problem Manager_problem finished pending busy_workers next
       set_pending set_finished set_busy_workers set_next].
  rewrite assignment_key, !dict_contains_set, !String.eqb_refl, py_int_py_str.
  cbn [orb fst snd set_problem Manager_problem finished pending busy_workers next
       set_pending set_finished set_busy_workers set_next].
  repeat split; apply dict_contains_del_same.
Qed.

Lemma report_of_assignment_is_counted_witness :
  finished (problem_of (snd (record_result (result_text 0 1000 (Z.max 0 (1000 - 0)) "5002")
             (snd (Manager_send_assignment (0, 1000) "5002"
                     (fresh_manager, world_of_inbox brisk_clock []))))))
  = finished (problem_of (fresh_manager, world_of_inbox brisk_clock [])) + Z.max 0 (1000 - 0).
Proof.
  destruct (report_of_assignment_is_counted (fresh_manager, world_of_inbox brisk_clock [])
              0 1000 "5002" eq_refl eq_refl) as (_ & _ & _ & H & _).
  exact H.
Defined.

(** ** The drain on a socket that has run dry *)

(** X16: the errno the drain takes for an empty socket is 35, the
    EAGAIN of some platforms only. A drain of an empty non-blocking
    socket returns and leaves the manager as it was; it prints nothing
    when the errno of the would-block error is 35, and for any other
    errno it prints one line about an unexpected [socket.error]. *)
Theorem dry_drain_prints_unless_errno_35 (m : Manager) (w : World) (t : float) :
  inbox w = [] -> sock_timeout w = Some t -> PrimFloat.eqb t 0 = true ->
  Manager_recv_results (m, w)
  = (Return tt,
     (m, if eagain w =? 35 then w
         else print (UnexpectedSocketError (BlockingIOError (eagain w))) w)).
Proof.
  intros Hin Hto Ht. unfold Manager_recv_results, try_except2, bind, in_env, sock_recv.
  cbn [fst snd]. rewrite Hin, Hto, Ht. cbn [is_socket_error errno_of].
  destruct (eagain w =? 35); reflexivity.
Qed.

Lemma dry_drain_prints_unless_errno_35_witness :
  Manager_recv_results (fresh_manager, world_of_inbox brisk_clock [])
  = (Return tt, (fresh_manager, world_of_inbox brisk_clock [])).
Proof.
  apply (dry_drain_prints_unless_errno_35 fresh_manager (world_of_inbox brisk_clock [])
           0%float); reflexivity.
Defined.

(** ** ProblemState.load and ProblemState.save *)

(** X17: a read the service refuses leaves the record alone. When the
    read of the data item is answered by a status other than 200 (404
    where nothing was saved yet), [load] prints the error and returns,
    and the record it was called on is unchanged: a manager that finds
    no saved state works on from the record it has. *)
Theorem load_refused_keeps_record
    (fos : string -> option float) (pb : ProblemState) (w : World)
    (status : Z) (body : Payload) (rest : list Response) :
  script w = HttpResponse status body :: rest -> status <> 200 ->
  let r := ProblemState_load fos pb w in
  fst r = Return tt /\
  fst (snd r) = pb /\
  stdout (snd (snd r)) = stdout w ++ [StoreError "load" (RegistryError status)] /\
  requests (snd (snd r)) = requests w ++ [(Caller, GetData (_saving_path pb))].
Proof.
  intros Hs Hne. cbv zeta. unfold ProblemState_load, RegistryClient_read_data, http.
  rewrite Hs. apply Z.eqb_neq in Hne. rewrite Hne. cbn. repeat split.
Qed.

Lemma load_refused_keeps_record_witness :
  fst (snd (ProblemState_load no_float_of_string two_pending
              (world_of_script [HttpResponse 404 NoJson])))
  = two_pending.
Proof.
  destruct (load_refused_keeps_record no_float_of_string two_pending
              (world_of_script [HttpResponse 404 NoJson]) 404 NoJson [])
    as (_ & H & _); [reflexivity|discriminate|exact H].
Defined.

(** X18: [load] is not atomic. It assigns the four fields one after
    the other, so when the stored object has an integer [next] but no
    [pending], [load] raises [KeyError] with [next] already replaced and
    the other three fields as they were. *)
Theorem load_stops_half_way
    (fos : string -> option float) (pb : ProblemState) (w : World)
    (text : string) (items : list (string * json)) (n : Z) (rest : list Response) :
  script w = HttpResponse 200 (Blob "application/json" text) :: rest ->
  json_loads fos text = Return (JDict items) ->
  dict_get "next" items = Some (JInt n) ->
  dict_get "pending" items = None ->
  let r := ProblemState_load fos pb w in
  fst r = Raise (KeyError "pending") /\
  fst (snd r) = set_next n pb.
Proof.
  intros Hs Hjson Hnext Hpending. cbv zeta.
  unfold ProblemState_load, RegistryClient_read_data, http. rewrite Hs.
  cbn [fst snd content_type content]. change (200 =? 200) with true. cbn iota.
  cbn [content_type content]. rewrite String.eqb_refl, Hjson.
  unfold load_fields, bind, lift, modify, getitem. rewrite Hnext. cbn [to_int].
  rewrite Hpending. split; reflexivity.
Qed.

Lemma load_stops_half_way_witness :
  fst (snd (ProblemState_load no_float_of_string two_pending
              (world_of_script [HttpResponse 200 (Blob "application/json" only_next)])))
  = set_next 7 two_pending.
Proof.
  destruct (load_stops_half_way no_float_of_string two_pending
              (world_of_script [HttpResponse 200 (Blob "application/json" only_next)])
              only_next [("next", JInt 7)] 7 []) as (_ & H);
    [reflexivity|reflexivity|reflexivity|reflexivity|exact H].
Defined.

Lemma tagged_dict_inj {V : Type} (inj : V -> json) (a b : dict V) :
  (forall x y, inj x = inj y -> x = y) ->
  map (fun kv => (fst kv, inj (snd kv))) a = map (fun kv => (fst kv, inj (snd kv))) b ->
  a = b.
Proof.
  intros Hinj. revert b. induction a as [|[k v] a IH]; intros [|[k' v'] b] H; cbn in H;
    try discriminate H; [reflexivity|].
  injection H as Hk Hv Hrest. apply Hinj in Hv. subst. f_equal. now apply IH.
Qed.

(** X19: the durable text tells records apart. Two records whose
    dictionaries have distinct keys and whose finite time stamps are
    written as float literals that are read back have the same durable
    text only if they have the same [next], [pending], [busy_workers]
    and [finished]. *)
Theorem durable_json_tells_records_apart
    (fr : float -> string) (fos : string -> option float) (pb1 pb2 : ProblemState) :
  NoDup (dict_keys (pending pb1)) -> NoDup (dict_keys (busy_workers pb1)) ->
  NoDup (dict_keys (pending pb2)) -> NoDup (dict_keys (busy_workers pb2)) ->
  Forall (fun kv => float_round_trips fr fos (snd kv)) (pending pb1) ->
  Forall (fun kv => float_round_trips fr fos (snd kv)) (pending pb2) ->
  durable_json fr pb1 = durable_json fr pb2 ->
  next pb1 = next pb2 /\ pending pb1 = pending pb2 /\
  busy_workers pb1 = busy_workers pb2 /\ finished pb1 = finished pb2.
Proof.
  intros Hp1 Hb1 Hp2 Hb2 Hf1 Hf2 Heq.
  assert (Hback : forall pb, Forall (fun kv => float_round_trips fr fos (snd kv)) (pending pb) ->
            Forall (fun kv => reads_back fos 1 (dumps_float fr (snd kv)) (JFloat (snd kv)))
                   (pending pb)).
  { intros pb Hf. eapply Forall_impl; [|exact Hf]. intros kv. apply reads_back_float. }
  pose proof (json_loads_durable_json fr fos pb1 Hp1 Hb1 (Hback pb1 Hf1)) as H1.
  pose proof (json_loads_durable_json fr fos pb2 Hp2 Hb2 (Hback pb2 Hf2)) as H2.
  rewrite Heq, H2 in H1. injection H1 as Hn Hp Hb Hf.
  repeat split; try congruence.
  - symmetry. apply (tagged_dict_inj JFloat); [intros x y H; now injection H|exact Hp].
  - symmetry. apply (tagged_dict_inj JStr); [intros x y H; now injection H|exact Hb].
Qed.

Lemma durable_json_tells_records_apart_witness :
  next two_pending = next (copy_of_two_pending) /\
  pending two_pending = pending (copy_of_two_pending) /\
  busy_workers two_pending = busy_workers (copy_of_two_pending) /\
  finished two_pending = finished (copy_of_two_pending).
Proof.
  apply (durable_json_tells_records_apart repr_of_stamps float_of_stamps
           two_pending copy_of_two_pending);
    try (repeat constructor; simpl; intuition discriminate);
    try exact stamps_round_trip; reflexivity.
Defined.

(** ** Manager.do_work: the count it returns *)

Lemma recv_results_outbox (s : MState) :
  outbox (snd (snd (Manager_recv_results s))) = outbox (snd s).
Proof.
  apply (recv_results_world_inv (fun w => outbox w = outbox (snd s))); auto.
Qed.

Lemma active_players_outbox (who : issuer) (self : Role) (w : World) :
  outbox (snd (active_players who self w)) = outbox w.
Proof.
  unfold active_players, RegistryClient_read_role, http.
  destruct (script w) as [|[status body|] rest]; cbn; try reflexivity.
  destruct (status =? 200); [destruct body|]; reflexivity.
Qed.

Lemma save_outbox (fr : float -> string) (fos : string -> option float) (pb : ProblemState) (w : World) :
  outbox (snd (ProblemState_save fr fos pb w)) = outbox w.
Proof.
  destruct (save_cases fr fos pb w) as [H|[[status H]|[H|H]]]; rewrite H; reflexivity.
Qed.

Lemma load_outbox (fos : string -> option float) (pb : ProblemState) (w : World) :
  outbox (snd (snd (ProblemState_load fos pb w))) = outbox w.
Proof.
  unfold ProblemState_load, RegistryClient_read_data, http.
  destruct (script w) as [|[status body|] rest]; cbn [fst snd]; try reflexivity.
  destruct (status =? 200); [|reflexivity].
  destruct body as [|t|ps|ct c]; cbn [content_type content];
    try (destruct (String.eqb _ "application/json"); [|reflexivity]);
    try (destruct (json_loads fos _); [|reflexivity]);
    try (destruct (load_fields _ pb)); reflexivity.
Qed.

(** ** Every number [next] passes over is handed out *)

Lemma handed_out_later (n : Z) (s s' : MState) :
  (forall k, dict_contains k (pending (problem_of s)) = true ->
             dict_contains k (pending (problem_of s')) = true) ->
  (forall d, In d (outbox (snd s)) -> In d (outbox (snd s'))) ->
  handed_out n s -> handed_out n s'.
Proof.
  intros Hp Ho (a & port & Hin & Hout & Hn).
  exists a, port. repeat split; [now apply Hp|now apply Ho|lia|lia].
Qed.

(** However [_send_assignment] ends, what was handed out stays so, and
    [next] has moved only over the numbers of the range it sent. *)
Lemma send_assignment_hands_out (a : Z * Z) (worker : string) (m : Manager) (w : World) :
  let s' := snd (Manager_send_assignment a worker (m, w)) in
  (forall n, handed_out n (m, w) -> handed_out n s') /\
  (forall n, next (Manager_problem m) <= n < next (problem_of s') -> handed_out n s').
Proof.
  cbv zeta. rewrite send_assignment_eq.
  destruct (py_int worker) as [port|e]; cbn [snd]; [|split; [trivial|unfold problem_of; cbn; lia]].
  destruct ((port <? 0) || (65535 <? port)); cbn [snd];
    [split; [trivial|unfold problem_of; cbn; lia]|].
  cbv zeta.
  assert (Hkeep : forall pb n, pending pb = pending (Manager_problem m) ->
            handed_out n (m, w) ->
            handed_out n
              (set_problem
                 (set_busy_workers (dict_set worker (assignment_text a) (busy_workers pb))
                    (set_pending (dict_set (assignment_text a) (clock w (ticks w))
                                    (pending pb)) pb)) m,
               set_ticks (S (ticks w))
                 (set_outbox (outbox w ++ [(assignment_text a, port)]) w))).
  { intros pb n Hp. apply handed_out_later.
    - intros k Hk. unfold problem_of in *.
      cbn [fst snd Manager_problem set_problem pending set_pending set_busy_workers] in Hk |- *.
      rewrite dict_contains_set, Hp, Hk. apply orb_true_r.
    - intros d Hd. cbn. apply in_or_app. now left. }
  destruct (snd a >? next (Manager_problem m)) eqn:Hgt.
  - destruct (fst a =? next (Manager_problem m)) eqn:Hfst; cbn [snd].
    + apply Z.eqb_eq in Hfst. split; [intros n; now apply Hkeep|].
      intros n Hn. unfold problem_of in Hn. cbn in Hn.
      exists a, port. unfold problem_of.
      cbn [fst snd Manager_problem set_problem pending set_pending set_busy_workers set_next
           outbox set_ticks set_outbox].
      rewrite dict_contains_set, String.eqb_refl.
      repeat split; [apply in_or_app; right; now left|lia|lia].
    + split; [|unfold problem_of; cbn; lia].
      intros n. apply handed_out_later; [trivial|].
      intros d Hd. cbn. apply in_or_app. now left.
  - cbn [snd]. split; [intros n; now apply Hkeep|].
    unfold problem_of. cbn. lia.
Qed.

(** A pass over the free workers, however it ends: [next] has moved
    only over numbers it handed out. *)
Lemma assign_all_hands_out (free_workers : list string) :
  forall (assigned : Z) (s : MState),
    let s' := snd (assign_all free_workers assigned s) in
    (forall n, handed_out n s -> handed_out n s') /\
    (forall n, next (problem_of s) <= n < next (problem_of s') -> handed_out n s').
Proof.
  induction free_workers as [|worker rest IH]; intros assigned s; cbv zeta.
  - cbn. split; [trivial|lia].
  - rewrite assign_all_cons.
    destruct (get_assignment_frame s) as (w1 & Hs1 & Ho1 & _).
    assert (Hfirst : forall n, handed_out n s -> handed_out n (fst s, w1)).
    { intros n. apply handed_out_later; [trivial|]. cbn [snd]. now rewrite Ho1. }
    destruct (Manager_get_assignment s) as [[a|e] s1]; cbn [snd] in Hs1; subst s1.
    2:{ cbn [snd]. split; [exact Hfirst|]. unfold problem_of. cbn. lia. }
    destruct (send_assignment_hands_out a worker (fst s) w1) as [Hk2 Hn2].
    destruct (Manager_send_assignment a worker (fst s, w1)) as [[[]|e] s2];
      cbn [fst snd] in *.
    + destruct (IH (assigned + 1) s2) as [Hk3 Hn3]. split.
      * intros n Hn. apply Hk3, Hk2, Hfirst, Hn.
      * intros n Hn. destruct (Z.lt_ge_cases n (next (problem_of s2))) as [Hlt|Hge].
        -- apply Hk3, Hn2. unfold problem_of in *. lia.
        -- apply Hn3. lia.
    + split.
      * intros n Hn. apply Hk2, Hfirst, Hn.
      * intros n Hn. apply Hn2. unfold problem_of in *. lia.
Qed.

(** X11: no number is skipped. If every pending range of the record
    ends at or below [next] (as on a fresh record) and the chunk size is
    not negative, then an iteration of the manager's loop, however it
    ends, leaves the record so and never moves [next] back; every
    number [next] has passed over lies in a range that was sent in a
    datagram and is pending when the iteration ends; and the iteration
    never fails the assertion of [_send_assignment] that a new range
    begins at [next] (nor any other assertion). *)
Theorem iteration_skips_no_number
    (fr : float -> string) (fos : string -> option float) (assigned : Z) (s : MState) :
  covered (problem_of s) -> 0 <= Manager_assignment_range (fst s) ->
  let r := manager_iteration fr fos assigned s in
  covered (problem_of (snd r)) /\
  next (problem_of s) <= next (problem_of (snd r)) /\
  (forall n, next (problem_of s) <= n < next (problem_of (snd r)) -> handed_out n (snd r)) /\
  fst r <> Raise AssertionError.
Proof.
  intros Hc Hrng. cbv zeta. rewrite manager_iteration_eq.
  destruct (recv_results_drains s) as (pb1 & Hm1 & Hd1).
  destruct (drained_covered _ _ Hd1 Hc) as [Hc1 Hn1]. unfold problem_of in *.
  pose proof (recv_results_no_AssertionError s) as He1.
  destruct (Manager_recv_results s) as [[[]|e1] [m1 w1]]; cbn [fst snd] in *; subst m1.
  2:{ cbn. repeat split; [exact Hc1|lia|intros n Hn; exfalso; lia|].
      intros H. injection H as ->. now apply (He1 _ eq_refl). }
  pose proof (active_players_no_AssertionError Caller
                (Manager_workers (set_problem pb1 (fst s))) w1) as He2.
  destruct (active_players Caller _ w1) as [[players|e2] w2]; cbn [fst snd] in *.
  2:{ cbn. repeat split; [exact Hc1|lia|intros n Hn; exfalso; lia|].
      intros H. injection H as ->. now apply (He2 _ eq_refl). }
  destruct players as [names|]; cbn [free_workers_of].
  2:{ cbn. repeat split; [exact Hc1|lia|intros n Hn; exfalso; lia|discriminate]. }
  pose proof (assign_all_covered
                (filter (fun n => negb (dict_contains n
                   (busy_workers (Manager_problem (set_problem pb1 (fst s)))))) names)
                assigned (set_problem pb1 (fst s), w2)) as Hpass.
  pose proof (assign_all_hands_out
                (filter (fun n => negb (dict_contains n
                   (busy_workers (Manager_problem (set_problem pb1 (fst s)))))) names)
                assigned (set_problem pb1 (fst s), w2)) as Hout.
  cbv zeta in Hpass, Hout. unfold problem_of in Hpass, Hout. cbn [fst snd] in Hpass, Hout.
  destruct Hpass as (Hc3 & Hn3 & He3); [exact Hc1|now destruct (fst s)|].
  destruct Hout as [_ Hout].
  destruct (assign_all _ assigned (set_problem pb1 (fst s), w2)) as [[n|e3] [m3 w3]];
    cbn [fst snd] in *.
  2:{ cbn. repeat split; [exact Hc3|cbn in Hn3; lia| |].
      - intros k Hk. apply Hout. cbn. lia.
      - destruct He3 as [-> | ->]; discriminate. }
  pose proof (save_no_AssertionError fr fos (Manager_problem m3) w3) as He4.
  pose proof (save_outbox fr fos (Manager_problem m3) w3) as Ho4.
  assert (Hlast : forall k, next (Manager_problem (fst s)) <= k < next (Manager_problem m3) ->
                    forall w4, outbox w4 = outbox w3 -> handed_out k (m3, w4)).
  { intros k Hk w4 Hw4. apply (handed_out_later k (m3, w3)); [trivial| |].
    - cbn [snd]. now rewrite Hw4.
    - apply Hout. cbn. lia. }
  destruct (ProblemState_save fr fos (Manager_problem m3) w3) as [[b|e4] w4];
    cbn [fst snd] in *.
  - repeat split; [exact Hc3|cbn in Hn3; lia| |discriminate].
    intros k Hk. now apply Hlast.
  - repeat split; [exact Hc3|cbn in Hn3; lia| |].
    + intros k Hk. now apply Hlast.
    + intros H. injection H as ->. now apply (He4 _ eq_refl).
Qed.

Lemma iteration_skips_no_number_witness :
  let r := manager_iteration no_float_repr no_float_of_string 0
             (fresh_manager, world_of_a_pass) in
  (fst r = Return 2 /\ next (problem_of (snd r)) = 2000) /\
  covered (problem_of (snd r)) /\
  next (problem_of (fresh_manager, world_of_a_pass)) <= next (problem_of (snd r)) /\
  (forall n, next (problem_of (fresh_manager, world_of_a_pass)) <= n
               < next (problem_of (snd r)) -> handed_out n (snd r)) /\
  fst r <> Raise AssertionError.
Proof.
  split; [split; vm_compute; reflexivity|].
  apply (iteration_skips_no_number no_float_repr no_float_of_string 0
           (fresh_manager, world_of_a_pass)).
  - intros k ts [].
  - vm_compute. discriminate.
Defined.

(** A pass that returns has sent as many datagrams as it counts. *)
Lemma assign_all_count (free_workers : list string) :
  forall (assigned n : Z) (s : MState),
    fst (assign_all free_workers assigned s) = Return n ->
    Z.of_nat (List.length (outbox (snd (snd (assign_all free_workers assigned s))))) - n
    = Z.of_nat (List.length (outbox (snd s))) - assigned.
Proof.
  induction free_workers as [|worker rest IH]; intros assigned n s.
  - cbn. intros H. injection H as <-. reflexivity.
  - rewrite assign_all_cons.
    destruct (get_assignment_frame s) as (w1 & Hs1 & Ho1 & _).
    destruct (Manager_get_assignment s) as [[a|e] s1]; cbn [snd] in Hs1; subst s1;
      [|discriminate].
    pose proof (send_assignment_returned a worker (fst s) w1) as Hsend.
    destruct (Manager_send_assignment a worker (fst s, w1)) as [[[]|e] s2]; [|discriminate].
    cbn [fst snd] in Hsend. destruct (Hsend eq_refl) as (port & _ & _ & Hs2).
    intros Hrest. rewrite (IH (assigned + 1) n s2 Hrest).
    rewrite Hs2. cbn [snd outbox set_ticks set_outbox].
    rewrite length_app, Ho1. cbn [List.length]. lia.
Qed.

Lemma manager_iteration_count (fr : float -> string) (fos : string -> option float) (assigned n : Z) (s : MState) :
  fst (manager_iteration fr fos assigned s) = Return n ->
  Z.of_nat (List.length (outbox (snd (snd (manager_iteration fr fos assigned s))))) - n
  = Z.of_nat (List.length (outbox (snd s))) - assigned.
Proof.
  rewrite manager_iteration_eq.
  pose proof (recv_results_outbox s) as Ho1.
  destruct (Manager_recv_results s) as [[[]|e1] [m1 w1]]; [|discriminate].
  cbn [fst snd] in *.
  pose proof (active_players_outbox Caller (Manager_workers m1) w1) as Ho2.
  destruct (active_players Caller (Manager_workers m1) w1) as [[players|e2] w2];
    [|discriminate].
  cbn [snd] in Ho2.
  destruct (free_workers_of players (Manager_problem m1)) as [fw|e]; [|discriminate].
  pose proof (fun n => assign_all_count fw assigned n (m1, w2)) as Hpass.
  destruct (assign_all fw assigned (m1, w2)) as [[k|e3] [m3 w3]]; [|discriminate].
  cbn [fst snd] in *.
  pose proof (save_outbox fr fos (Manager_problem m3) w3) as Ho4.
  destruct (ProblemState_save fr fos (Manager_problem m3) w3) as [[b|e4] w4]; [|discriminate].
  cbn [fst snd] in *. intros H. injection H as <-.
  rewrite Ho4, (Hpass k eq_refl). cbn [snd]. rewrite Ho2, Ho1. reflexivity.
Qed.

Lemma manager_loop_eq (fr : float -> string) (fos : string -> option float) (fuel : nat) (t_end : float) (assigned : Z)
    (s : MState) :
  manager_loop fr fos fuel t_end assigned s =
  match keep_working (Manager_role (fst s)) t_end (snd s) with
  | (Raise e, w1) => (Raise e, (fst s, w1))
  | (Return false, w1) => (Return assigned, (fst s, w1))
  | (Return true, w1) =>
      match fuel with
      | O => (Raise OutOfFuel, (fst s, w1))
      | S fuel' =>
          match manager_iteration fr fos assigned (fst s, w1) with
          | (Return assigned', s2) => manager_loop fr fos fuel' t_end assigned' s2
          | (Raise e, s2) => (Raise e, s2)
          end
      end
  end.
Proof.
  destruct fuel as [|fuel]; cbn [manager_loop]; unfold bind at 1, get;
    unfold bind at 1, in_env at 1; cbn [fst snd];
    destruct (keep_working (Manager_role (fst s)) t_end (snd s)) as [[[|]|e] w1];
    reflexivity.
Qed.

Lemma manager_loop_count (fr : float -> string) (fos : string -> option float) (t_end : float) (fuel : nat) :
  forall (assigned n : Z) (s : MState),
    fst (manager_loop fr fos fuel t_end assigned s) = Return n ->
    Z.of_nat (List.length (outbox (snd (snd (manager_loop fr fos fuel t_end assigned s))))) - n
    = Z.of_nat (List.length (outbox (snd s))) - assigned.
Proof.
  induction fuel as [|fuel IH]; intros assigned n s; rewrite manager_loop_eq;
    destruct (keep_working_frame (Manager_role (fst s)) t_end (snd s)) as [k Hw1];
    destruct (keep_working (Manager_role (fst s)) t_end (snd s)) as [[[|]|e] w1];
    cbn [snd] in Hw1; subst w1; try discriminate;
    try (cbn; intros H; injection H as <-; reflexivity).
  pose proof (fun a => manager_iteration_count fr fos assigned a (fst s, set_ticks k (snd s)))
    as Hit.
  destruct (manager_iteration fr fos assigned (fst s, set_ticks k (snd s))) as [[a'|e] s2];
    [|discriminate].
  cbn [fst snd] in Hit. intros Hrest.
  rewrite (IH a' n s2 Hrest), (Hit a' eq_refl). reflexivity.
Qed.

Lemma Manager_do_work_eq
    (fr : float -> string) (fos : string -> option float)
    (fuel : nat) (t_end : float) (s : MState) :
  Manager_do_work fr fos fuel t_end s =
  match ProblemState_load fos (problem_of s) (snd s) with
  | (Return _, (pb, w)) =>
      manager_loop fr fos fuel t_end 0 (set_problem pb (fst s), sock_setblocking false w)
  | (Raise e, (pb, w)) => (Raise e, (set_problem pb (fst s), w))
  end.
Proof.
  unfold Manager_do_work. unfold bind at 1.
  destruct (ProblemState_load fos (problem_of s) (snd s)) as [[[]|e] [pb w]]; reflexivity.
Qed.

(** X20: the number [Manager.do_work] returns is the number of
    datagrams it has sent: whenever [do_work] returns, the socket has
    sent that many assignments more than before the call, over all the
    iterations of the loop. *)
Theorem do_work_counts_its_datagrams
    (fr : float -> string) (fos : string -> option float)
    (fuel : nat) (t_end : float) (s : MState) (n : Z) :
  fst (Manager_do_work fr fos fuel t_end s) = Return n ->
  Z.of_nat (List.length (outbox (snd (snd (Manager_do_work fr fos fuel t_end s)))))
  = Z.of_nat (List.length (outbox (snd s))) + n.
Proof.
  rewrite Manager_do_work_eq.
  pose proof (load_outbox fos (problem_of s) (snd s)) as Hload.
  destruct (ProblemState_load fos (problem_of s) (snd s)) as [[[]|e] [pb w1]];
    [|discriminate].
  cbn [snd] in Hload. intros Hloop.
  pose proof (manager_loop_count fr fos t_end fuel 0 n
                (set_problem pb (fst s), sock_setblocking false w1) Hloop) as H.
  cbn [snd] in H.
  assert (Hsb : outbox (sock_setblocking false w1) = outbox w1) by reflexivity.
  rewrite Hsb, Hload in H. lia.
Qed.

Lemma do_work_counts_its_datagrams_witness :
  Z.of_nat (List.length (outbox (snd (snd
     (Manager_do_work no_float_repr no_float_of_string 1 1010%float
        (manager_5001, world_of_one_iteration))))))
  = Z.of_nat (List.length (outbox world_of_one_iteration)) + 2.
Proof.
  apply (do_work_counts_its_datagrams no_float_repr no_float_of_string 1 1010%float
           (manager_5001, world_of_one_iteration) 2).
  vm_compute. reflexivity.
Defined.

(** ** registry_client.py: errors and results *)

(** [write_data] as [save] calls it and [write_data] on a response in
    full agree: on an answer with the same status, with the header of
    the org time in place and with the same JSON extracted from it,
    both return, or both raise the same. *)
Lemma write_data_agrees (fos : string -> option float)
    (status : Z) (body : Payload) (response : RegistryClient.Reply) (org_time : Z)
    (who : issuer) (path data ctype : string) (w : World) (rest : list Response) :
  RegistryClient.status_code response = status ->
  RegistryClient.header_int RegistryClient.X_DK_ORG_TIME response
  = RegistryClient.Returned org_time ->
  RegistryClient._extract_json_from_response response
  = match extract_json fos body with Some v => v | None => JNull end ->
  script w = HttpResponse status body :: rest ->
  match fst (RegistryClient_write_data fos who path data ctype w),
        RegistryClient.write_data response with
  | Return _, RegistryClient.Returned _ => True
  | Raise (RegistryError code), RegistryClient.Raised (RegistryClient.RegistryError code' _ _) =>
      code = code'
  | Raise e, RegistryClient.Raised (RegistryClient.Builtin e') => e = e'
  | _, _ => False
  end.
Proof.
  intros Hst Hot Hjs Hsc.
  unfold RegistryClient_write_data, http. rewrite Hsc. cbn [fst snd].
  unfold RegistryClient.write_data. rewrite Hst, Hot, Hjs.
  destruct (status =? 200); cbn [orb].
  - destruct (extract_json fos body) as [[| | | | | |]|]; cbn; trivial.
  - destruct (status =? 201).
    + destruct (extract_json fos body) as [[| | | | | |]|]; cbn; trivial.
    + reflexivity.
Qed.

Lemma and_then_registry_error {A B : Type}
    (o : RegistryClient.outcome A) (k : A -> RegistryClient.outcome B) :
  RegistryClient.registry_error o = None ->
  (forall a, RegistryClient.registry_error (k a) = None) ->
  RegistryClient.registry_error (RegistryClient.and_then o k) = None.
Proof. intros Ho Hk. destruct o as [a|e]; [apply Hk|exact Ho]. Qed.

Lemma header_int_registry_error (nm : string) (r : RegistryClient.Reply) :
  RegistryClient.registry_error (RegistryClient.header_int nm r) = None.
Proof.
  unfold RegistryClient.header_int.
  destruct (RegistryClient.header nm r) as [v|]; [destruct (py_int v)|]; reflexivity.
Qed.

Lemma get_registry_error (obj : json) (key : string) :
  RegistryClient.registry_error (RegistryClient.get obj key) = None.
Proof. destruct obj; reflexivity. Qed.

Lemma int_of_json_registry_error (v : json) :
  RegistryClient.registry_error (RegistryClient.int_of_json v) = None.
Proof.
  destruct v as [|b|z|f|s|l|d]; try reflexivity; cbn.
  - destruct (int_of_float f); reflexivity.
  - destruct (py_int s); reflexivity.
Qed.

Ltac no_registry_error :=
  repeat (apply and_then_registry_error;
          [first [apply header_int_registry_error | apply get_registry_error
                 | apply int_of_json_registry_error]
          |intros ?]);
  reflexivity.

(** X21: a method of [RegistryClient] raises [RegistryError] exactly
    when the status of the answer is not one it takes for success: 200
    for every method, and 201 as well for [take_role] and [write_data].
    The error then carries the status, the generic message of the status
    and the JSON of the body. An answer with a success status never
    gives a [RegistryError], whatever is missing from it: the failure
    is then an exception an [except RegistryError] does not catch. *)
Theorem RegistryError_exactly_when_refused
    (m : RegistryClient.method) (org_key : json) (r : RegistryClient.Reply) :
  RegistryClient.registry_error_of m org_key r
  = if RegistryClient.accepts m (RegistryClient.status_code r) then None
    else Some (RegistryClient.status_code r,
               RegistryClient.error_message (RegistryClient.status_code r),
               RegistryClient._extract_json_from_response r).
Proof.
  destruct m; unfold RegistryClient.registry_error_of, RegistryClient.accepts.
  - unfold RegistryClient.take_role.
    destruct (RegistryClient.status_code r =? 200); cbn [orb]; [no_registry_error|].
    destruct (RegistryClient.status_code r =? 201); [no_registry_error|reflexivity].
  - unfold RegistryClient.release_role.
    destruct (RegistryClient.status_code r =? 200); [no_registry_error|reflexivity].
  - unfold RegistryClient.read_role.
    destruct (RegistryClient.status_code r =? 200); [no_registry_error|reflexivity].
  - unfold RegistryClient.write_data.
    destruct (RegistryClient.status_code r =? 200); cbn [orb]; [no_registry_error|].
    destruct (RegistryClient.status_code r =? 201); [no_registry_error|reflexivity].
  - unfold RegistryClient.delete_data.
    destruct (RegistryClient.status_code r =? 200); [no_registry_error|reflexivity].
  - unfold RegistryClient.read_data.
    destruct (RegistryClient.status_code r =? 200); [no_registry_error|reflexivity].
  - unfold RegistryClient.list_items.
    destruct (RegistryClient.status_code r =? 200); [no_registry_error|reflexivity].
  - unfold RegistryClient.rotate_org_key.
    destruct (RegistryClient.status_code r =? 200); [|reflexivity].
    pose proof (get_registry_error (RegistryClient._extract_json_from_response r) "org_key")
      as Hget.
    destruct (RegistryClient.get _ "org_key") as [new_key|e]; cbn [fst]; [|exact Hget].
    no_registry_error.
  - unfold RegistryClient.describe_org.
    destruct (RegistryClient.status_code r =? 200); [no_registry_error|reflexivity].
Qed.

(** X22: [rotate_org_key] replaces the key of the client before it
    builds its result. On an answer with status 200 whose JSON is an
    object, the key of the client becomes the [org_key] of the object,
    [None] when the object has none, whether or not the call returns:
    when the header of the org time is missing the call raises
    [TypeError] and the key is replaced all the same. On any other
    status the key stays. *)
Theorem rotate_org_key_replaces_key_first
    (org_key : json) (r : RegistryClient.Reply) (items : list (string * json)) :
  RegistryClient._extract_json_from_response r = JDict items ->
  let new_key := match dict_get "org_key" items with Some v => v | None => JNull end in
  snd (RegistryClient.rotate_org_key org_key r)
  = (if RegistryClient.status_code r =? 200 then new_key else org_key) /\
  (RegistryClient.status_code r = 200 ->
   RegistryClient.header RegistryClient.X_DK_ORG_TIME r = None ->
   fst (RegistryClient.rotate_org_key org_key r)
   = RegistryClient.Raised (RegistryClient.Builtin TypeError)).
Proof.
  intros Hjson. cbv zeta. unfold RegistryClient.rotate_org_key. rewrite Hjson.
  cbn [RegistryClient.get]. split.
  - destruct (RegistryClient.status_code r =? 200); reflexivity.
  - intros -> Hheader. cbn [Z.eqb Pos.eqb fst]. unfold RegistryClient.header_int.
    rewrite Hheader. reflexivity.
Qed.

Lemma rotate_org_key_replaces_key_first_witness :
  snd (RegistryClient.rotate_org_key (JStr "randomAlphaNumericString") bare_answer) = JNull /\
  fst (RegistryClient.rotate_org_key (JStr "randomAlphaNumericString") bare_answer)
  = RegistryClient.Raised (RegistryClient.Builtin TypeError).
Proof.
  destruct (rotate_org_key_replaces_key_first (JStr "randomAlphaNumericString")
              bare_answer [] eq_refl) as [H1 H2].
  split; [exact H1|apply H2; reflexivity].
Defined.

(** X23: what a result of [take_role] vouches for. When [take_role]
    returns, the status was 200 or 201, and the result says the role is
    new exactly when it was 201; the header of the org time held the
    text of the integer in the result; and the body was a JSON object,
    whose [client_expiration_time_in_msecs] is in the result as it
    stood, [None] if the object had none: nothing checks that it is a
    number. *)
Theorem take_role_result_vouches
    (r : RegistryClient.Reply) (org_time : Z) (is_new : bool) (expiration : json) :
  RegistryClient.take_role r
  = RegistryClient.Returned (RegistryClient.mkTakeRoleResult org_time is_new expiration) ->
  (RegistryClient.status_code r = 200 \/ RegistryClient.status_code r = 201) /\
  is_new = (RegistryClient.status_code r =? 201) /\
  (exists text, RegistryClient.header RegistryClient.X_DK_ORG_TIME r = Some text /\
                py_int text = Return org_time) /\
  (exists items, RegistryClient._extract_json_from_response r = JDict items /\
                 expiration = match dict_get "client_expiration_time_in_msecs" items with
                              | Some v => v
                              | None => JNull
                              end).
Proof.
  unfold RegistryClient.take_role, RegistryClient.header_int, RegistryClient.refusal.
  destruct (RegistryClient.status_code r =? 200) eqn:E200;
    [|destruct (RegistryClient.status_code r =? 201) eqn:E201; [|discriminate]];
    (destruct (RegistryClient.header RegistryClient.X_DK_ORG_TIME r) as [text|];
       [|discriminate]);
    (destruct (py_int text) as [z|e] eqn:Hint; [|discriminate]);
    cbn [RegistryClient.and_then];
    (destruct (RegistryClient._extract_json_from_response r) as [|b|n|f|s|l|items];
       try discriminate);
    cbn [RegistryClient.get RegistryClient.and_then]; intros H; injection H as <- <- <-.
  - apply Z.eqb_eq in E200. rewrite E200. repeat split; [now left| |].
    + exists text. split; [reflexivity|exact Hint].
    + exists items. split; reflexivity.
  - apply Z.eqb_eq in E201. rewrite E201. repeat split; [now right| |].
    + exists text. split; [reflexivity|exact Hint].
    + exists items. split; reflexivity.
Qed.

Lemma take_role_result_vouches_witness :
  true = (RegistryClient.status_code created_answer =? 201).
Proof.
  destruct (take_role_result_vouches created_answer 41 true (JInt 1005000) eq_refl)
    as (_ & H & _).
  exact H.
Defined.

(** ** samples/leader.py *)

(** After lines that take turns, one more line fits if it is the
    turn of its kind. *)
Lemma takes_turns_snoc (leader : bool) (printed : list leader_print) (ev : leader_print) :
  takes_turns leader printed = true ->
  takes_turns leader (printed ++ [ev])
  = match ev with
    | BecomesLeader _ => negb (xorb leader (Nat.odd (List.length printed)))
    | LeadershipEnded _ => xorb leader (Nat.odd (List.length printed))
    end.
Proof.
  revert leader. induction printed as [|e printed IH]; intros leader H.
  - destruct ev, leader; reflexivity.
  - destruct e as [t|x]; cbn [app takes_turns List.length] in *;
      apply andb_true_iff in H as [Hl H];
      rewrite (IH _ H), Nat.odd_succ, <- Nat.negb_odd;
      destruct leader; try discriminate Hl;
      destruct ev, (Nat.odd (List.length printed)); reflexivity.
Qed.

(** What [elect_leader] keeps true from round to round: the lines
    printed take turns, and the chef is a leader when their number is
    odd. *)
Lemma elect_round_turns
    (took : RegistryClient.outcome RegistryClient.TakeRoleResult) (timestamp : result Z)
    (chef chef' : Chef) (printed printed' : list leader_print) :
  takes_turns false printed = true ->
  is_leader chef = Nat.odd (List.length printed) ->
  elect_round took timestamp (chef, printed) = Return (chef', printed') ->
  takes_turns false printed' = true /\
  is_leader chef' = Nat.odd (List.length printed').
Proof.
  intros Hturns Hodd. unfold elect_round.
  destruct took as [[org new expires]|[code msg extra|e]]; [| |discriminate].
  - destruct (is_leader chef) eqn:Hl.
    + intros H. injection H as <- <-. split; [exact Hturns|exact Hodd].
    + destruct timestamp as [t|e]; [|discriminate].
      intros H. injection H as <- <-.
      rewrite takes_turns_snoc by exact Hturns.
      rewrite length_app, Nat.add_1_r, Nat.odd_succ, <- Nat.negb_odd, <- Hodd.
      split; reflexivity.
  - destruct ((code =? 409) && is_leader chef) eqn:Hc.
    + apply andb_true_iff in Hc as [_ Hl].
      intros H. injection H as <- <-.
      rewrite takes_turns_snoc by exact Hturns.
      rewrite length_app, Nat.add_1_r, Nat.odd_succ, <- Nat.negb_odd, <- Hodd, Hl.
      split; reflexivity.
    + intros H. injection H as <- <-. split; [exact Hturns|exact Hodd].
Qed.

(** X24: what [elect_leader] prints makes sense as a history. However
    the service answers, round after round, the lines take turns,
    beginning with a beginning of leadership: no end of leadership is
    printed for a chef who is none, and no second beginning for a chef
    who is one; and the chef counts as leader at the end exactly when
    the last line printed is a beginning. *)
Theorem elect_leader_prints_take_turns
    (rounds : list (RegistryClient.outcome RegistryClient.TakeRoleResult * result Z))
    (chef : Chef) (printed : list leader_print) :
  elect_leader rounds = Return (chef, printed) ->
  takes_turns false printed = true /\
  is_leader chef = Nat.odd (List.length printed).
Proof.
  unfold elect_leader.
  assert (Hgen : forall c0 p0,
            takes_turns false p0 = true -> is_leader c0 = Nat.odd (List.length p0) ->
            elect_rounds rounds (c0, p0) = Return (chef, printed) ->
            takes_turns false printed = true /\
            is_leader chef = Nat.odd (List.length printed)).
  { induction rounds as [|[took timestamp] rounds IH]; intros c0 p0 Ht Ho.
    - cbn. intros H. injection H as <- <-. split; assumption.
    - cbn [elect_rounds].
      destruct (elect_round took timestamp (c0, p0)) as [[c1 p1]|e] eqn:Hround;
        [|discriminate].
      destruct (elect_round_turns took timestamp c0 c1 p0 p1 Ht Ho Hround) as [Ht1 Ho1].
      apply IH; assumption. }
  apply Hgen; reflexivity.
Qed.

Lemma elect_leader_prints_take_turns_witness :
  takes_turns false
    [BecomesLeader 1000000; LeadershipEnded (JInt 1005000)] = true.
Proof.
  apply (elect_leader_prints_take_turns
           [(RegistryClient.take_role created_answer, Return 1000000);
            (RegistryClient.Raised (RegistryClient.RegistryError 503 "Request collision" JNull),
             Return 1003000);
            (RegistryClient.Raised (RegistryClient.RegistryError 409 "Conflict" JNull),
             Return 1006000)]
           (mkChef false (JInt 1005000))
           [BecomesLeader 1000000; LeadershipEnded (JInt 1005000)]).
  reflexivity.
Defined.

(** ** Manager._get_assignment on a key that names no range *)

(** X25: [_get_assignment] trusts the keys of [pending]. When the first
    entry of [pending] is stalled and its key does not begin with two
    integers between commas (as a key loaded from the store may), the
    call raises [ValueError] or [IndexError] instead of handing out a
    range. *)
Theorem stalled_key_must_name_a_range
    (s : MState) (k : string) (ts : float) (more : list (string * float)) :
  pending (problem_of s) = (k, ts) :: more ->
  (ts + Manager_resp_wait_time (fst s) <? clock (snd s) (ticks (snd s)))%float = true ->
  names_a_range k = false ->
  fst (Manager_get_assignment s) = Raise ValueError \/
  fst (Manager_get_assignment s) = Raise IndexError.
Proof.
  intros Hp Hstalled Hbad.
  assert (Heq : Manager_get_assignment s
                = (r0 <- lift (item (split_comma k) 0) ;;
                   lower <- lift (py_int r0) ;;
                   r1 <- lift (item (split_comma k) 1) ;;
                   higher <- lift (py_int r1) ;;
                   ret (lower, higher))%monad (fst s, set_ticks (S (ticks (snd s))) (snd s))).
  { unfold Manager_get_assignment, bind at 1, get. rewrite Hp. cbn [first_stalled].
    unfold bind at 1. unfold bind at 1, now, in_env, time_time. cbn [fst snd].
    rewrite Hstalled. reflexivity. }
  rewrite Heq. unfold names_a_range in Hbad. unfold bind, lift, ret, item.
  destruct (split_comma k) as [|lower [|higher l]]; cbn [nth_error fst].
  - now right.
  - destruct (py_int lower) as [lo|e] eqn:E; cbn [fst]; [now right|].
    apply py_int_raises in E. subst e. now left.
  - destruct (py_int lower) as [lo|e] eqn:E; cbn [fst].
    + destruct (py_int higher) as [hi|e] eqn:E'; [discriminate Hbad|].
      apply py_int_raises in E'. subst e. now left.
    + apply py_int_raises in E. subst e. now left.
Qed.

Lemma stalled_key_must_name_a_range_witness :
  fst (Manager_get_assignment (manager_with foreign_pending, world_of_inbox brisk_clock []))
  = Raise ValueError \/
  fst (Manager_get_assignment (manager_with foreign_pending, world_of_inbox brisk_clock []))
  = Raise IndexError.
Proof.
  apply (stalled_key_must_name_a_range
           (manager_with foreign_pending, world_of_inbox brisk_clock [])
           "first thousand" 98%float []); reflexivity.
Defined.

(** ** The work loops never wait on the socket for good *)

Lemma first_stalled_world (wait : float) (items : list (string * float)) (m : Manager)
    (w : World) :
  exists n, snd (first_stalled wait items (m, w)) = (m, set_ticks n w).
Proof.
  revert w. induction items as [|[k ts] items IH]; intros w.
  - exists (ticks w). cbn. now destruct w.
  - cbn [first_stalled]. unfold bind at 1, now, in_env, time_time. cbn [fst snd].
    destruct (ts + wait <? clock w (ticks w))%float.
    + exists (S (ticks w)). reflexivity.
    + destruct (IH (set_ticks (S (ticks w)) w)) as [n Hn]. exists n. rewrite Hn. reflexivity.
Qed.

Lemma get_assignment_world (m : Manager) (w : World) :
  exists n, snd (Manager_get_assignment (m, w)) = (m, set_ticks n w).
Proof.
  unfold Manager_get_assignment, bind at 1, get. unfold bind at 1. cbn [fst snd].
  destruct (first_stalled_world (Manager_resp_wait_time m) (pending (problem_of (m, w))) m w)
    as [n Hn].
  destruct (first_stalled _ _ (m, w)) as [[found|e] s1]; cbn [snd] in Hn; subst s1;
    exists n; [|reflexivity].
  destruct found as [k|]; [|reflexivity].
  unfold bind, lift, ret.
  destruct (item (split_comma k) 0) as [r0|]; [|reflexivity].
  destruct (py_int r0); [|reflexivity].
  destruct (item (split_comma k) 1) as [r1|]; [|reflexivity].
  destruct (py_int r1); reflexivity.
Qed.

Lemma item_catchable {A : Type} (l : list A) (i : nat) (e : exn) :
  item l i = Raise e -> is_Exception e = true.
Proof. unfold item. destruct (nth_error l i); intros H; inversion H; reflexivity. Qed.

Lemma py_int_catchable (s : string) (e : exn) : py_int s = Raise e -> is_Exception e = true.
Proof. intros H. apply py_int_raises in H. now subst e. Qed.

Lemma get_assignment_catchable (s : MState) (e : exn) :
  fst (Manager_get_assignment s) = Raise e -> is_Exception e = true.
Proof.
  unfold Manager_get_assignment, bind at 1, get. unfold bind at 1.
  destruct (first_stalled_spec (Manager_resp_wait_time (fst s)) (pending (problem_of s)) s)
    as (r & w' & Heq & _).
  rewrite Heq. destruct r as [k|]; [|discriminate].
  unfold bind, lift, ret.
  destruct (item (split_comma k) 0) as [r0|e0] eqn:E0;
    [|intros H; injection H as <-; exact (item_catchable _ _ _ E0)].
  destruct (py_int r0) as [lo|e1] eqn:E1;
    [|intros H; injection H as <-; exact (py_int_catchable _ _ E1)].
  destruct (item (split_comma k) 1) as [r1|e2] eqn:E2;
    [|intros H; injection H as <-; exact (item_catchable _ _ _ E2)].
  destruct (py_int r1) as [hi|e3] eqn:E3;
    [discriminate|intros H; injection H as <-; exact (py_int_catchable _ _ E3)].
Qed.

Lemma send_assignment_world (a : Z * Z) (worker : string) (m : Manager) (w : World) :
  sock_timeout (snd (snd (Manager_send_assignment a worker (m, w)))) = sock_timeout w /\
  forall e, fst (Manager_send_assignment a worker (m, w)) = Raise e ->
            is_Exception e = true.
Proof.
  rewrite send_assignment_eq. cbv zeta.
  destruct (py_int worker) as [port|e0] eqn:E0.
  2:{ split; [reflexivity|]. intros e H. injection H as <-. exact (py_int_catchable _ _ E0). }
  destruct ((port <? 0) || (65535 <? port)).
  1:{ split; [reflexivity|]. intros e H. injection H as <-. reflexivity. }
  destruct (snd a >? next (Manager_problem m)).
  - destruct (fst a =? next (Manager_problem m)); (split; [reflexivity|]); intros e H;
      [discriminate H|injection H as <-; reflexivity].
  - split; [reflexivity|]. intros e H. discriminate H.
Qed.

Lemma assign_all_world (free_workers : list string) :
  forall (assigned : Z) (m : Manager) (w : World),
    sock_timeout (snd (snd (assign_all free_workers assigned (m, w)))) = sock_timeout w /\
    forall e, fst (assign_all free_workers assigned (m, w)) = Raise e ->
              is_Exception e = true.
Proof.
  induction free_workers as [|worker rest IH]; intros assigned m w.
  - split; [reflexivity|]. intros e H. discriminate H.
  - rewrite assign_all_cons.
    destruct (get_assignment_world m w) as [n Hn].
    pose proof (get_assignment_catchable (m, w)) as Hget.
    destruct (Manager_get_assignment (m, w)) as [[a|e0] s1]; cbn [fst snd] in *; subst s1.
    2:{ split; [reflexivity|]. intros e H. injection H as <-. now apply Hget. }
    destruct (send_assignment_world a worker m (set_ticks n w)) as [Hto Hsend].
    change (sock_timeout (set_ticks n w)) with (sock_timeout w) in Hto.
    destruct (Manager_send_assignment a worker (m, set_ticks n w)) as [[[]|e1] [m2 w2]];
      cbn [fst snd] in *.
    + destruct (IH (assigned + 1) m2 w2) as [Hto' Hrest].
      split; [now rewrite Hto', Hto|exact Hrest].
    + split; [exact Hto|]. intros e H. injection H as <-. now apply Hsend.
Qed.

Lemma active_players_world (who : issuer) (self : Role) (w : World) :
  sock_timeout (snd (active_players who self w)) = sock_timeout w /\
  forall e, fst (active_players who self w) = Raise e -> is_Exception e = true.
Proof.
  unfold active_players, RegistryClient_read_role, http.
  destruct (script w) as [|[status body|] rest]; cbn.
  - split; [reflexivity|]. intros e H. injection H as <-. reflexivity.
  - destruct (status =? 200); [destruct body|]; cbn; (split; [reflexivity|]);
      intros e H; try discriminate H; injection H as <-; reflexivity.
  - split; [reflexivity|]. intros e H. injection H as <-. reflexivity.
Qed.

Lemma save_world (fr : float -> string) (fos : string -> option float) (pb : ProblemState) (w : World) :
  sock_timeout (snd (ProblemState_save fr fos pb w)) = sock_timeout w /\
  forall e, fst (ProblemState_save fr fos pb w) = Raise e -> is_Exception e = true.
Proof.
  destruct (save_cases fr fos pb w) as [H|[[status H]|[H|H]]]; rewrite H;
    (split; [reflexivity|]); cbn [fst]; intros e Heq; inversion Heq; reflexivity.
Qed.

Lemma recv_results_sock_timeout (s : MState) :
  sock_timeout (snd (snd (Manager_recv_results s))) = sock_timeout (snd s).
Proof.
  apply (recv_results_world_inv (fun w => sock_timeout w = sock_timeout (snd s))); auto.
Qed.

Lemma int_of_float_catchable (f : float) (e : exn) :
  int_of_float f = Raise e -> is_Exception e = true.
Proof.
  unfold int_of_float. destruct (Prim2SF f); intros H; inversion H; reflexivity.
Qed.

Lemma keep_working_catchable (role : Role) (t_end : float) (w : World) (e : exn) :
  fst (keep_working role t_end w) = Raise e -> is_Exception e = true.
Proof.
  unfold keep_working, is_holding, time_time.
  destruct (0.5 <=? t_end - clock w (ticks w))%float; [|discriminate].
  cbn [clock ticks set_ticks].
  destruct (int_of_float _) as [z|e0] eqn:E; [discriminate|].
  intros H. injection H as <-. exact (int_of_float_catchable _ _ E).
Qed.

(** An iteration on a socket with a timeout keeps the timeout and does
    not wait for good. *)
Lemma manager_iteration_never_blocks (fr : float -> string) (fos : string -> option float) (assigned : Z) (s : MState) :
  sock_timeout (snd s) <> None ->
  sock_timeout (snd (snd (manager_iteration fr fos assigned s))) = sock_timeout (snd s) /\
  forall e, fst (manager_iteration fr fos assigned s) = Raise e -> e <> BlocksForever.
Proof.
  intros Hto. rewrite manager_iteration_eq.
  pose proof (recv_results_sock_timeout s) as H1.
  assert (Hret : fst (Manager_recv_results s) = Return tt)
    by (destruct s; now apply recv_results_returns).
  destruct (Manager_recv_results s) as [r1 [m1 w1]]. cbn [fst snd] in *. subst r1.
  destruct (active_players_world Caller (Manager_workers m1) w1) as [H2 He2].
  destruct (active_players Caller (Manager_workers m1) w1) as [[players|e2] w2];
    cbn [fst snd] in *.
  2:{ split; [now rewrite H2, H1|]. intros e H. injection H as <-.
      intros ->. specialize (He2 _ eq_refl). discriminate He2. }
  destruct players as [names|]; cbn [free_workers_of fst snd].
  2:{ split; [now rewrite H2, H1|]. intros e H. injection H as <-. discriminate. }
  destruct (assign_all_world
              (filter (fun n => negb (dict_contains n (busy_workers (Manager_problem m1))))
                      names) assigned m1 w2) as [H3 He3].
  destruct (assign_all _ assigned (m1, w2)) as [[n|e3] [m3 w3]]; cbn [fst snd] in *.
  2:{ split; [now rewrite H3, H2, H1|]. intros e H. injection H as <-.
      intros ->. specialize (He3 _ eq_refl). discriminate He3. }
  destruct (save_world fr fos (Manager_problem m3) w3) as [H4 He4].
  destruct (ProblemState_save fr fos (Manager_problem m3) w3) as [[b|e4] w4]; cbn [fst snd] in *.
  - split; [now rewrite H4, H3, H2, H1|]. intros e H. discriminate H.
  - split; [now rewrite H4, H3, H2, H1|]. intros e H. injection H as <-.
    intros ->. specialize (He4 _ eq_refl). discriminate He4.
Qed.

Lemma manager_loop_never_blocks (fr : float -> string) (fos : string -> option float) (t_end : float) (fuel : nat) :
  forall (assigned : Z) (s : MState) (e : exn),
    sock_timeout (snd s) <> None ->
    fst (manager_loop fr fos fuel t_end assigned s) = Raise e -> e <> BlocksForever.
Proof.
  induction fuel as [|fuel IH]; intros assigned s e Hto; rewrite manager_loop_eq;
    destruct (keep_working_frame (Manager_role (fst s)) t_end (snd s)) as [k Hw1];
    pose proof (keep_working_catchable (Manager_role (fst s)) t_end (snd s)) as Hk;
    destruct (keep_working (Manager_role (fst s)) t_end (snd s)) as [[[|]|e0] w1];
    cbn [fst snd] in *; subst w1; try discriminate;
    try (intros H; injection H as <-; intros ->; specialize (Hk _ eq_refl); discriminate Hk).
  - intros H. injection H as <-. discriminate.
  - destruct (manager_iteration_never_blocks fr fos assigned (fst s, set_ticks k (snd s)) Hto)
      as [Hto' Hit].
    destruct (manager_iteration fr fos assigned (fst s, set_ticks k (snd s))) as [[a'|e1] s2];
      cbn [fst snd] in *.
    + apply IH. rewrite Hto'. exact Hto.
    + intros H. injection H as <-. now apply Hit.
Qed.

Lemma getitem_never_blocks (obj : json) (key : string) (e : exn) :
  getitem obj key = Raise e -> e <> BlocksForever.
Proof.
  unfold getitem. destruct obj as [|b|z|f|s|l|items];
    try (intros H; injection H as <-; discriminate).
  destruct (dict_get key items); intros H; [discriminate H|].
  injection H as <-. discriminate.
Qed.

Lemma to_dict_never_blocks {V : Type} (to_value : json -> result V)
    (items : list (string * json)) (e : exn) :
  to_dict to_value items = Raise e -> e <> BlocksForever.
Proof.
  destruct items as [|[k v] rest]; cbn [to_dict]; [discriminate|].
  destruct (to_value v); destruct (to_dict to_value rest);
    intros H; try discriminate H; injection H as <-; discriminate.
Qed.

Lemma load_fields_never_blocks (obj : json) (pb : ProblemState) (e : exn) :
  fst (load_fields obj pb) = Raise e -> e <> BlocksForever.
Proof.
  assert (Hint : forall v e0, to_int v = Raise e0 -> e0 <> BlocksForever).
  { intros v e0. destruct v; cbn; intros H; try discriminate H;
      injection H as <-; discriminate. }
  assert (Hfd : forall v e0, to_float_dict v = Raise e0 -> e0 <> BlocksForever).
  { intros v e0. destruct v; cbn [to_float_dict];
      try (intros H; injection H as <-; discriminate). apply to_dict_never_blocks. }
  assert (Hsd : forall v e0, to_str_dict v = Raise e0 -> e0 <> BlocksForever).
  { intros v e0. destruct v; cbn [to_str_dict];
      try (intros H; injection H as <-; discriminate). apply to_dict_never_blocks. }
  unfold load_fields, bind, lift, modify.
  destruct (getitem obj "next") as [v1|e1] eqn:E1;
    [|cbn; intros H; injection H as <-; exact (getitem_never_blocks _ _ _ E1)].
  destruct (to_int v1) as [n|e2] eqn:E2;
    [|cbn; intros H; injection H as <-; exact (Hint _ _ E2)].
  destruct (getitem obj "pending") as [v3|e3] eqn:E3;
    [|cbn; intros H; injection H as <-; exact (getitem_never_blocks _ _ _ E3)].
  destruct (to_float_dict v3) as [p|e4] eqn:E4;
    [|cbn; intros H; injection H as <-; exact (Hfd _ _ E4)].
  destruct (getitem obj "busy_workers") as [v5|e5] eqn:E5;
    [|cbn; intros H; injection H as <-; exact (getitem_never_blocks _ _ _ E5)].
  destruct (to_str_dict v5) as [b|e6] eqn:E6;
    [|cbn; intros H; injection H as <-; exact (Hsd _ _ E6)].
  destruct (getitem obj "finished") as [v7|e7] eqn:E7;
    [|cbn; intros H; injection H as <-; exact (getitem_never_blocks _ _ _ E7)].
  destruct (to_int v7) as [f|e8] eqn:E8;
    [cbn; discriminate|cbn; intros H; injection H as <-; exact (Hint _ _ E8)].
Qed.

Lemma load_never_blocks (fos : string -> option float) (pb : ProblemState) (w : World)
    (e : exn) :
  fst (ProblemState_load fos pb w) = Raise e -> e <> BlocksForever.
Proof.
  unfold ProblemState_load, RegistryClient_read_data, http.
  destruct (script w) as [|[status body|] rest]; cbn [fst snd].
  - intros H. injection H as <-. discriminate.
  - destruct (status =? 200); [|discriminate].
    assert (Hloads : forall text, json_loads fos text = Raise e -> e <> BlocksForever).
    { intros text. unfold json_loads.
      destruct (scan fos _ Value _) as [[v r]|]; [destruct (skip_ws r)|];
        intros H; inversion H; discriminate. }
    destruct body as [|t|ps|ct c]; cbn [content_type content];
      try (cbn; intros H; injection H as <-; discriminate).
    destruct (String.eqb ct "application/json");
      [|intros H; injection H as <-; discriminate].
    destruct (json_loads fos c) as [obj|e0] eqn:Hj.
    + pose proof (load_fields_never_blocks obj pb e) as Hf.
      destruct (load_fields obj pb) as [r pb']. cbn [fst] in *. exact Hf.
    + cbn [fst]. intros H. injection H as <-. exact (Hloads c Hj).
  - intros H. injection H as <-. discriminate.
Qed.

(** X26: [Manager.do_work] never waits on its socket for good. It sets
    the socket non-blocking before its loop and nothing in the loop
    undoes that, so however [do_work] ends, it is not with a receive
    that never returns: the drain of every iteration comes back, with
    or without reports. *)
Theorem manager_never_waits_for_reports
    (fr : float -> string) (fos : string -> option float)
    (fuel : nat) (t_end : float) (s : MState) (e : exn) :
  fst (Manager_do_work fr fos fuel t_end s) = Raise e -> e <> BlocksForever.
Proof.
  rewrite Manager_do_work_eq.
  pose proof (load_never_blocks fos (problem_of s) (snd s)) as Hload.
  destruct (ProblemState_load fos (problem_of s) (snd s)) as [[[]|e0] [pb w1]];
    cbn [fst] in *.
  - apply manager_loop_never_blocks. cbn. discriminate.
  - intros H. injection H as <-. now apply Hload.
Qed.

Lemma manager_never_waits_for_reports_witness : TypeError <> BlocksForever.
Proof.
  apply (manager_never_waits_for_reports no_float_repr no_float_of_string 1 1010%float
           (manager_5001, world_at_1000 [HttpResponse 404 NoJson; unavailable] [])
           TypeError).
  reflexivity.
Defined.

Lemma worker_loop_eq (fuel : nat) (self : Worker) (t_end : float) (solved : Z) (w : World) :
  worker_loop fuel self t_end solved w =
  match keep_working (Worker_role self) t_end w with
  | (Raise e, w1) => (Raise e, w1)
  | (Return false, w1) => (Return solved, w1)
  | (Return true, w1) =>
      match fuel with
      | O => (Raise OutOfFuel, w1)
      | S fuel' =>
          match worker_attempt self solved (sock_settimeout 0.4 w1) with
          | (Return solved', w2) => worker_loop fuel' self t_end solved' w2
          | (Raise SocketTimeout, w2) => worker_loop fuel' self t_end solved w2
          | (Raise e, w2) => (Raise e, w2)
          end
      end
  end.
Proof.
  destruct fuel as [|fuel]; cbn [worker_loop]; unfold bind at 1;
    destruct (keep_working (Worker_role self) t_end w) as [[[|]|e] w1]; try reflexivity.
  unfold bind at 1, modify. unfold bind at 1, try_except.
  destruct (worker_attempt self solved (sock_settimeout 0.4 w1)) as [[solved'|e] w2];
    [reflexivity|].
  destruct e; reflexivity.
Qed.

(** With a timeout on the socket, the body of the [try] of the worker
    raises only exceptions of the interpreter. *)
Lemma worker_attempt_catchable (self : Worker) (solved : Z) (w : World) (t : float) (e : exn) :
  sock_timeout w = Some t ->
  fst (worker_attempt self solved w) = Raise e -> is_Exception e = true.
Proof.
  intros Hto. destruct (inbox w) as [|msg more] eqn:Hin.
  - unfold worker_attempt, bind, sock_recv. rewrite Hin, Hto.
    destruct (PrimFloat.eqb t 0); cbn; intros H; injection H as <-; reflexivity.
  - rewrite (worker_attempt_eq self solved w msg more Hin). cbv zeta.
    destruct (0 <? String.length (string_take 1024 msg))%nat; [|discriminate].
    destruct (item (split_comma (string_take 1024 msg)) 0) as [p0|e0] eqn:E0;
      [|cbn; intros H; injection H as <-; exact (item_catchable _ _ _ E0)].
    destruct (py_int p0) as [lower|e1] eqn:E1;
      [|cbn; intros H; injection H as <-; exact (py_int_catchable _ _ E1)].
    destruct (item (split_comma (string_take 1024 msg)) 1) as [p1|e2] eqn:E2;
      [|cbn; intros H; injection H as <-; exact (item_catchable _ _ _ E2)].
    destruct (py_int p1) as [higher|e3] eqn:E3;
      [|cbn; intros H; injection H as <-; exact (py_int_catchable _ _ E3)].
    destruct (active_players_world Caller (Worker_manager self) (set_inbox more w))
      as [_ Hap].
    destruct (active_players Caller (Worker_manager self) (set_inbox more w))
      as [[[[|player [|p2 ps]]|]|e4] w2]; cbn [fst] in *;
      try discriminate;
      try (intros H; injection H as <-; first [reflexivity | now apply Hap]).
    destruct (py_int player) as [port|e5] eqn:E5;
      [|cbn; intros H; injection H as <-; exact (py_int_catchable _ _ E5)].
    unfold sock_sendto. destruct ((port <? 0) || (65535 <? port)); cbn;
      intros H; [injection H as <-; reflexivity|discriminate H].
Qed.

Lemma keep_working_raises (role : Role) (t_end : float) (w : World) (e : exn) :
  fst (keep_working role t_end w) = Raise e -> e = OverflowError \/ e = ValueError.
Proof.
  unfold keep_working, is_holding, time_time.
  destruct (0.5 <=? t_end - clock w (ticks w))%float; [|discriminate].
  cbn [clock ticks set_ticks]. unfold int_of_float.
  destruct (Prim2SF _); cbn; intros H; try discriminate H; injection H as <-; auto.
Qed.

(** X27: [Worker.do_work] never waits for an assignment for good, and
    a wait that times out does not end it. It puts a timeout on the
    socket before every receive and catches [socket.timeout], so
    however [do_work] ends, it is neither with a receive that never
    returns nor with [socket.timeout]. *)
Theorem worker_never_waits_for_good
    (fuel : nat) (self : Worker) (t_end : float) (w : World) (e : exn) :
  fst (Worker_do_work fuel self t_end w) = Raise e ->
  e <> BlocksForever /\ e <> SocketTimeout.
Proof.
  unfold Worker_do_work. generalize 0 as solved. revert w.
  induction fuel as [|fuel IH]; intros w solved; rewrite worker_loop_eq;
    pose proof (keep_working_raises (Worker_role self) t_end w) as Hk;
    destruct (keep_working (Worker_role self) t_end w) as [[[|]|e0] w1];
    cbn [fst] in *; try discriminate;
    try (intros H; injection H as <-;
         destruct (Hk _ eq_refl) as [-> | ->]; split; discriminate).
  - intros H. injection H as <-. split; discriminate.
  - pose proof (worker_attempt_catchable self solved (sock_settimeout 0.4 w1) 0.4%float)
      as Hattempt.
    destruct (worker_attempt self solved (sock_settimeout 0.4 w1)) as [[solved'|e1] w2];
      cbn [fst] in *; [apply IH|].
    specialize (Hattempt e1 eq_refl eq_refl).
    destruct e1; try apply IH; try discriminate Hattempt;
      intros H; injection H as <-; split; discriminate.
Qed.

Lemma worker_never_waits_for_good_witness :
  ValueError <> BlocksForever /\ ValueError <> SocketTimeout.
Proof.
  apply (worker_never_waits_for_good 1 worker_5002 1010%float
           (world_at_1000 [] ["stop"]) ValueError).
  reflexivity.
Defined.

(** ** Worker.do_work: the count it returns *)

(** What the body of the [try] of the worker does to the count and to
    the datagrams sent: a round that returns has sent as many reports
    as it has added to the count, and a round that times out has sent
    none. *)
Lemma worker_attempt_count (self : Worker) (solved : Z) (w : World) :
  match worker_attempt self solved w with
  | (Return solved', w') =>
      Z.of_nat (List.length (outbox w')) - solved' = Z.of_nat (List.length (outbox w)) - solved
  | (Raise SocketTimeout, w') => outbox w' = outbox w
  | (Raise _, _) => True
  end.
Proof.
  destruct (inbox w) as [|msg more] eqn:Hin.
  - unfold worker_attempt, bind, sock_recv. rewrite Hin.
    destruct (sock_timeout w) as [t|]; [destruct (PrimFloat.eqb t 0)|]; cbn; trivial.
  - rewrite (worker_attempt_eq self solved w msg more Hin). cbv zeta.
    destruct (0 <? String.length (string_take 1024 msg))%nat; [|reflexivity].
    destruct (item (split_comma (string_take 1024 msg)) 0) as [p0|e0] eqn:E0.
    2:{ apply item_catchable in E0. destruct e0; trivial; discriminate E0. }
    destruct (py_int p0) as [lower|e1] eqn:E1.
    2:{ apply py_int_raises in E1. subst e1. exact I. }
    destruct (item (split_comma (string_take 1024 msg)) 1) as [p1|e2] eqn:E2.
    2:{ unfold item in E2. destruct (nth_error _ 1); inversion E2. exact I. }
    destruct (py_int p1) as [higher|e3] eqn:E3.
    2:{ apply py_int_raises in E3. subst e3. exact I. }
    pose proof (active_players_outbox Caller (Worker_manager self) (set_inbox more w)) as Ho.
    destruct (active_players_world Caller (Worker_manager self) (set_inbox more w))
      as [_ Hap].
    assert (Hraise : forall e4, fst (active_players Caller (Worker_manager self)
                                       (set_inbox more w)) = Raise e4 ->
                                e4 <> SocketTimeout).
    { unfold active_players, RegistryClient_read_role, http.
      destruct (script (set_inbox more w)) as [|[status body|] rest]; cbn;
        try (intros e4 H; injection H as <-; discriminate).
      destruct (status =? 200); [destruct body|]; cbn; intros e4 H;
        try discriminate H; injection H as <-; discriminate. }
    destruct (active_players Caller (Worker_manager self) (set_inbox more w))
      as [[[[|player [|p2 ps]]|]|e4] w2]; cbn [fst snd] in *; trivial;
      try (rewrite Ho; reflexivity).
    + destruct (py_int player) as [port|e5] eqn:E5.
      2:{ apply py_int_raises in E5. subst e5. exact I. }
      unfold sock_sendto. destruct ((port <? 0) || (65535 <? port)); [exact I|].
      cbn [outbox set_outbox]. rewrite length_app, Ho. cbn [List.length outbox set_inbox].
      lia.
    + specialize (Hraise e4 eq_refl). destruct e4; trivial.
Qed.

(** X28: the number [Worker.do_work] returns is the number of reports
    it has sent: whenever [do_work] returns, the socket has sent that
    many datagrams more than before the call, over all the rounds of the
    loop, those that timed out and those that dropped their result
    included. *)
Theorem worker_counts_its_reports
    (fuel : nat) (self : Worker) (t_end : float) (w : World) (n : Z) :
  fst (Worker_do_work fuel self t_end w) = Return n ->
  Z.of_nat (List.length (outbox (snd (Worker_do_work fuel self t_end w))))
  = Z.of_nat (List.length (outbox w)) + n.
Proof.
  unfold Worker_do_work.
  assert (Hgen : forall solved w0,
            fst (worker_loop fuel self t_end solved w0) = Return n ->
            Z.of_nat (List.length (outbox (snd (worker_loop fuel self t_end solved w0)))) - n
            = Z.of_nat (List.length (outbox w0)) - solved).
  { induction fuel as [|fuel IH]; intros solved w0; rewrite worker_loop_eq;
      destruct (keep_working_frame (Worker_role self) t_end w0) as [k Hw1];
      destruct (keep_working (Worker_role self) t_end w0) as [[[|]|e0] w1];
      cbn [fst snd] in *; subst w1; try discriminate;
      try (intros H; injection H as <-; reflexivity).
    pose proof (worker_attempt_count self solved (sock_settimeout 0.4 (set_ticks k w0)))
      as Hattempt.
    destruct (worker_attempt self solved (sock_settimeout 0.4 (set_ticks k w0)))
      as [[solved'|e1] w2].
    - intros H. rewrite (IH solved' w2 H). exact Hattempt.
    - destruct e1; try discriminate.
      intros H. rewrite (IH solved w2 H), Hattempt. reflexivity. }
  intros H. specialize (Hgen 0 w H). lia.
Qed.

Lemma worker_counts_its_reports_witness :
  Z.of_nat (List.length (outbox (snd (Worker_do_work 2 worker_5002 1010%float
                                        world_of_two_rounds))))
  = Z.of_nat (List.length (outbox world_of_two_rounds)) + 1.
Proof.
  apply (worker_counts_its_reports 2 worker_5002 1010%float world_of_two_rounds 1).
  vm_compute. reflexivity.
Defined.
